(** * A shallow embedding of the DouYin parsing service and downloader

    The development follows the Python sources:
    - [parsing_service/app.py]                      : module [ParsingService]
    - [parsing_service/strategies/base_strategy.py] : module [BaseStrategy]
    - [parsing_service/utils/cache_manager.py]      : module [CacheManager]
    - [parsing_service/utils/proxy_manager.py]      : module [ProxyManager]
    - [web_parser.py]                               : module [WebParser]
    - [downloader_v3.py]                            : module [Downloader]

    Conventions.  Python [int] is [Z].  A Python [float] is the rational
    number [Q] it stands for; counters that move by halves and clock
    readings are exact, and where the result of an operation has to be
    rounded (the strategy weights) the operations of module [Float] round
    it as binary64 arithmetic does.  A [str] is the sequence of its code
    points: a [string] holds one code point below 256 per character, and
    module [Unicode] has the functions that look beyond.  Dictionaries are
    [gmap]s.  The outside world (network, handlers, the
    random generator, the clock) is passed in explicitly as an oracle
    argument, and every function that mutates an object returns the new
    object next to its result. *)

From Stdlib Require Import Ascii String DecimalString QArith Qround Qabs Qpower Lqa.
From stdpp Require Import gmap strings list fin_maps sorting.

Set Warnings "-register-all".

Local Open Scope string_scope.

(** ** Python values *)

Module Py.

Inductive pyval :=
| PNone
| PBool (b : bool)
| PInt (z : Z)
| PFloat (q : Q)
| PStr (s : string)
| PList (l : list pyval)
| PDict (d : gmap string pyval).

Abbreviation dict := (gmap string pyval).

(** [bool(v)]: what [if v] and [not v] test. *)
Definition truthy (v : pyval) : bool :=
  match v with
  | PNone => false
  | PBool b => b
  | PInt z => negb (z =? 0)%Z
  | PFloat q => negb (Qeq_bool q 0)
  | PStr s => negb (String.eqb s "")
  | PList l => match l with [] => false | _ :: _ => true end
  | PDict d => negb (bool_decide (d = ∅))
  end.

(** [v == s] for a string literal [s]: only a [str] can be equal to it. *)
Definition eq_str (v : pyval) (s : string) : bool :=
  match v with
  | PStr s' => String.eqb s' s
  | _ => false
  end.

(** [d.get(k, dflt)] *)
Definition get (d : dict) (k : string) (dflt : pyval) : pyval :=
  default dflt (d !! k).

(** [k in d] *)
Definition contains (d : dict) (k : string) : bool :=
  bool_decide (is_Some (d !! k)).

(** [d.update(e)]: the entries of [e] win. *)
Definition update (d e : dict) : dict := e ∪ d.

(** [max(a, b)] on numbers: the first argument unless the second is
    strictly larger. *)
Definition max (a b : Q) : Q := if Qlt_le_dec a b then b else a.

(** [s.lower()] on ASCII. *)
Definition lower_ascii (c : ascii) : ascii :=
  let n := nat_of_ascii c in
  if (65 <=? n)%nat && (n <=? 90)%nat then ascii_of_nat (n + 32) else c.

Fixpoint lower (s : string) : string :=
  match s with
  | EmptyString => EmptyString
  | String c r => String (lower_ascii c) (lower r)
  end.

(** [s[len(p):]] when [s.startswith(p)]. *)
Fixpoint strip_prefix (p s : string) : option string :=
  match p, s with
  | EmptyString, _ => Some s
  | String a p', String b s' =>
      if Ascii.eqb a b then strip_prefix p' s' else None
  | String _ _, EmptyString => None
  end.

(** [needle in s] on strings. *)
Fixpoint str_contains (needle s : string) : bool :=
  match strip_prefix needle s with
  | Some _ => true
  | None => match s with
            | EmptyString => false
            | String _ r => str_contains needle r
            end
  end.

(** [s.replace(old, new)] for a non-empty [old]; [fuel] bounds the
    number of characters left to scan. *)
Fixpoint replace_fuel (fuel : nat) (old new s : string) : string :=
  match fuel with
  | O => s
  | S fuel =>
      match strip_prefix old s with
      | Some rest => new ++ replace_fuel fuel old new rest
      | None => match s with
                | EmptyString => EmptyString
                | String c r => String c (replace_fuel fuel old new r)
                end
      end
  end.

Definition replace (old new s : string) : string :=
  replace_fuel (S (String.length s)) old new s.

(** [str(v)]: a [str] is itself; other values go through [repr]. *)
Definition str (repr : pyval -> string) (v : pyval) : string :=
  match v with
  | PStr s => s
  | _ => repr v
  end.

Fixpoint chars (s : string) : list pyval :=
  match s with
  | EmptyString => []
  | String c r => PStr (String c EmptyString) :: chars r
  end.

(** What [for x in v] yields; [None] is the [TypeError] of a value that
    cannot be iterated.  (A [dict] yields its keys, in the order of
    [map_to_list].) *)
Definition iter (v : pyval) : option (list pyval) :=
  match v with
  | PList l => Some l
  | PStr s => Some (chars s)
  | PDict d => Some (map (fun kv => PStr (fst kv)) (map_to_list d))
  | _ => None
  end.

(** [v[0]]; [None] is the exception raised. *)
Definition first (v : pyval) : option pyval :=
  match v with
  | PList (x :: _) => Some x
  | PStr (String c _) => Some (PStr (String c EmptyString))
  | _ => None
  end.

(** The receiver of a [.get] call must be a [dict]. *)
Definition as_dict (v : pyval) : option dict :=
  match v with
  | PDict d => Some d
  | _ => None
  end.

Definition as_str (v : pyval) : option string :=
  match v with
  | PStr s => Some s
  | _ => None
  end.

End Py.

(** ** Binary64 arithmetic

    The finite binary64 numbers are rationals; an operation on them gives
    the exact result rounded to the nearest binary64 number, ties to the
    even significand. *)

Module Float.

(** [2^k] *)
Definition pow2 (k : Z) : Q := Qpower 2 k.

(** The exponent of a positive number: [2^e <= q < 2^(e+1)]. *)
Definition ilog2 (q : Q) : Z :=
  let k := (Z.log2 (Qnum q) - Z.log2 (Zpos (Qden q)))%Z in
  if Qle_bool (pow2 k) q then k else (k - 1)%Z.

(** Rounding a non-negative number to an integer, ties to even. *)
Definition rne (q : Q) : Z :=
  let f := Qfloor q in
  match (q - inject_Z f ?= 1 # 2)%Q with
  | Lt => f
  | Gt => (f + 1)%Z
  | Eq => if Z.even f then f else (f + 1)%Z
  end.

(** The binary64 number nearest to [q], ties to even: 53 significant
    bits, exponents from -1022.  (Numbers beyond the largest binary64
    number are not met here.) *)
Definition round (q : Q) : Q :=
  if Qeq_bool q 0 then 0
  else
    let a := Qabs q in
    let e := Z.max (ilog2 a) (-1022) in
    let u := pow2 (e - 52) in
    let m := inject_Z (rne (a / u)) in
    Qred (if Qlt_le_dec q 0 then - (m * u) else m * u).

Definition add (a b : Q) : Q := round (a + b).
Definition mul (a b : Q) : Q := round (a * b).
Definition div (a b : Q) : Q := round (a / b).

End Float.

(** ** The fragment of [re] used by the sources *)

Module Re.

(** [\d] on the code points below 256, where the decimal digits are 0
    to 9. *)
Definition is_digit (c : ascii) : bool :=
  let n := nat_of_ascii c in (48 <=? n)%nat && (n <=? 57)%nat.

(** A pattern [lit(\d{lo,hi})]; [hi = None] is [\d{lo,}], and [\d+] is
    [\d{1,}]. *)
Record pattern := { lit : string; lo : nat; hi : option nat }.

(** The greedy run of digits at the head of [s], at most [cap] long. *)
Fixpoint digits (cap : option nat) (s : string) : string :=
  match s with
  | EmptyString => EmptyString
  | String c r =>
      if is_digit c then
        match cap with
        | None => String c (digits None r)
        | Some O => EmptyString
        | Some (S n) => String c (digits (Some n) r)
        end
      else EmptyString
  end.

(** [re.match(p, s).group(1)] *)
Definition match_here (p : pattern) (s : string) : option string :=
  match Py.strip_prefix (lit p) s with
  | Some rest =>
      let d := digits (hi p) rest in
      if (lo p <=? String.length d)%nat then Some d else None
  | None => None
  end.

(** [re.search(p, s).group(1)]: the match at the leftmost position. *)
Fixpoint search (p : pattern) (s : string) : option string :=
  match match_here p s with
  | Some d => Some d
  | None => match s with
            | EmptyString => None
            | String _ r => search p r
            end
  end.

(** [re.sub('[set]', '', s)]: drop the characters of [set]. *)
Fixpoint remove_chars (set : list ascii) (s : string) : string :=
  match s with
  | EmptyString => EmptyString
  | String c r =>
      if existsb (Ascii.eqb c) set then remove_chars set r
      else String c (remove_chars set r)
  end.

End Re.

(** ** parsing_service/strategies/base_strategy.py *)

Module BaseStrategy.
Import Py.

Definition patterns : list Re.pattern :=
  [ {| Re.lit := "/video/"; Re.lo := 1; Re.hi := None |};
    {| Re.lit := "/note/"; Re.lo := 1; Re.hi := None |};
    {| Re.lit := "modal_id="; Re.lo := 1; Re.hi := None |};
    {| Re.lit := "aweme_id="; Re.lo := 1; Re.hi := None |};
    {| Re.lit := "/"; Re.lo := 15; Re.hi := Some 20%nat |} ].

(** The [for pattern in patterns] loop. *)
Fixpoint first_match (ps : list Re.pattern) (url : string) : option string :=
  match ps with
  | [] => None
  | pattern :: rest =>
      match Re.search pattern url with
      | Some group1 => Some group1
      | None => first_match rest url
      end
  end.

Definition extract_video_id (url : string) : option string :=
  match first_match patterns url with
  | Some id => Some id
  | None => if str_contains "v.douyin.com" url then None else None
  end.

(** [url_list[0]] of [d.get(k, {})] when both are truthy, as the play
    address, cover and music blocks read it.  The outer [None] is an
    exception, the inner one "nothing to store". *)
Definition first_url (d : dict) (k : string) : option (option pyval) :=
  let holder := get d k (PDict ∅) in
  if truthy holder then
    h ← as_dict holder;
    let url_list := get h "url_list" (PList []) in
    if truthy url_list then x ← first url_list; Some (Some x)
    else Some None
  else Some None.

Definition put (k : string) (v : option pyval) (info : dict) : dict :=
  match v with Some x => <[k := x]> info | None => info end.

(** The loop over [detail.get('images', [])]. *)
Fixpoint image_urls (imgs : list pyval) : option (list pyval) :=
  match imgs with
  | [] => Some []
  | PDict img :: rest =>
      let url_list := get img "url_list" (PList []) in
      if truthy url_list then
        x ← first url_list; r ← image_urls rest; Some (x :: r)
      else image_urls rest
  | _ :: rest => image_urls rest
  end.

(** [_extract_from_aweme_detail]; [None] stands for any exception. *)
Definition _extract_from_aweme_detail (repr : pyval -> string)
    (detail : pyval) : option dict :=
  detail ← as_dict detail;
  let info : dict := ∅ in
  let info := <["video_id" := PStr (str repr (get detail "aweme_id" (PStr "")))]> info in
  let info := <["title" := get detail "desc" (PStr "")]> info in
  let info := <["create_time" := get detail "create_time" (PInt 0)]> info in
  author ← as_dict (get detail "author" (PDict ∅));
  let info := <["author" := get author "nickname" (PStr "")]> info in
  let info := <["author_id" := get author "sec_uid" (PStr "")]> info in
  stats ← as_dict (get detail "statistics" (PDict ∅));
  let info :=
    <["statistics" :=
        PDict (<["likes" := get stats "digg_count" (PInt 0)]>
                (<["comments" := get stats "comment_count" (PInt 0)]>
                  (<["shares" := get stats "share_count" (PInt 0)]>
                    (<["views" := get stats "play_count" (PInt 0)]> ∅))))]>
      info in
  info ←
    (if truthy (get detail "images" PNone) then
       imgs ← iter (get detail "images" (PList []));
       urls ← image_urls imgs;
       Some (<["images" := PList urls]> (<["is_image" := PBool true]> info))
     else
       video ← as_dict (get detail "video" (PDict ∅));
       play ← first_url video "play_addr";
       video_url ←
         match play with
         | Some u => u ← as_str u; Some (Some (PStr (replace "playwm" "play" u)))
         | None => Some None
         end;
       let info := put "video_url" video_url info in
       cover ← first_url video "cover";
       let info := put "cover_url" cover info in
       Some (<["duration" := get video "duration" (PInt 0)]> info));
  let music := get detail "music" (PDict ∅) in
  if truthy music then
    music ← as_dict music;
    music_url ← first_url music "play_url";
    Some (put "music_url" music_url info)
  else Some info.

Definition blank_video_info (raw_data : dict) : dict :=
  <["video_id" := PStr ""]> (<["title" := PStr ""]> (<["author" := PStr ""]>
  (<["author_id" := PStr ""]> (<["video_url" := PStr ""]>
  (<["cover_url" := PStr ""]> (<["music_url" := PStr ""]>
  (<["duration" := PInt 0]> (<["create_time" := PInt 0]>
  (<["statistics" :=
       PDict (<["likes" := PInt 0]> (<["comments" := PInt 0]>
               (<["shares" := PInt 0]> (<["views" := PInt 0]> ∅))))]>
  (<["is_image" := PBool false]> (<["images" := PList []]>
  (<["raw_data" := PDict raw_data]> ∅)))))))))))).

(** [normalize_video_info]; [None] stands for any exception. *)
Definition normalize_video_info (repr : pyval -> string) (raw_data : dict)
  : option dict :=
  let video_info := blank_video_info raw_data in
  match raw_data !! "aweme_detail" with
  | Some detail =>
      info ← _extract_from_aweme_detail repr detail;
      Some (update video_info info)
  | None =>
      match raw_data !! "item_list" with
      | Some item_list =>
          if truthy item_list then
            detail ← first item_list;
            info ← _extract_from_aweme_detail repr detail;
            Some (update video_info info)
          else Some video_info
      | None =>
          if contains raw_data "aweme_id" then
            info ← _extract_from_aweme_detail repr (PDict raw_data);
            Some (update video_info info)
          else Some video_info
      end
  end.

End BaseStrategy.

(** ** web_parser.py *)

Module WebParser.

(** What [requests.get] ends in: an exception, or a response whose
    headers are keyed without regard to case (by lower-cased name). *)
Inductive http_result :=
| HttpError
| HttpResponse (status_code : Z) (headers : gmap string string).

Record request := { req_url : string; allow_redirects : bool }.

Definition header (headers : gmap string string) (name : string)
  : option string :=
  headers !! Py.lower name.

Definition video_pattern : Re.pattern :=
  {| Re.lit := "/video/"; Re.lo := 1; Re.hi := None |}.

Definition share_video_pattern : Re.pattern :=
  {| Re.lit := "/share/video/"; Re.lo := 1; Re.hi := None |}.

(** [_resolve_short_url]: the resolved URL and the requests issued. *)
Definition _resolve_short_url (requests_get : request -> http_result)
    (url : string) : string * list request :=
  let rq := {| req_url := url; allow_redirects := false |} in
  match requests_get rq with
  | HttpResponse _ headers =>
      match header headers "Location" with
      | Some location =>
          let video_id_match :=
            match Re.search video_pattern location with
            | Some m => Some m
            | None => Re.search share_video_pattern location
            end in
          match video_id_match with
          | Some video_id => ("https://www.douyin.com/video/" ++ video_id, [rq])
          | None => (location, [rq])
          end
      | None => (url, [rq])
      end
  | HttpError => (url, [rq])
  end.

End WebParser.

(** ** parsing_service/utils/cache_manager.py *)

Module CacheManager.
Import Py.

(** What a Redis [SETEX] leaves behind: the stored JSON text and the
    instant at which the key expires.  The text is kept as the document
    it denotes: [json.loads (json.dumps v)] is [v] on [pyval]. *)
Record entry := { document : pyval; expire_at : Q }.

Record t := {
  redis : gmap string entry;
  prefix : string;
  default_ttl : Z;
  stats : gmap string Z
}.

Definition __init__ (redis_client : gmap string entry) : t :=
  {| redis := redis_client;
     prefix := "douyin:cache:";
     default_ttl := 3600;
     stats := <["hits" := 0%Z]> (<["misses" := 0%Z]>
                (<["sets" := 0%Z]> (<["deletes" := 0%Z]> ∅))) |}.

(** [self.stats[k] += 1] *)
Definition bump (k : string) (self : t) : t :=
  {| redis := redis self; prefix := prefix self;
     default_ttl := default_ttl self;
     stats := <[k := (default 0%Z (stats self !! k) + 1)%Z]> (stats self) |}.

(** [key.startswith] raises on anything that is not a [str]; [None]
    stands for that exception.  [md5] is [hashlib.md5(..).hexdigest()]. *)
Definition _make_key (md5 : string -> string) (self : t) (key : pyval)
  : option string :=
  match key with
  | PStr k => Some (if String.prefix "http" k
                    then prefix self ++ "url:" ++ md5 k
                    else prefix self ++ k)
  | _ => None
  end.

(** [self.redis.get(cache_key)] when the clock of the store reads [now]:
    a key is gone once the clock is past its deadline, and still served
    at the deadline itself. *)
Definition redis_get (self : t) (cache_key : string) (now : Q) : option pyval :=
  match redis self !! cache_key with
  | Some e => if Qlt_le_dec (expire_at e) now then None else Some (document e)
  | None => None
  end.

(** [get]: [up] tells whether the Redis call goes through; every
    exception ends in [return None]. *)
Definition get (md5 : string -> string) (up : bool) (now : Q)
    (self : t) (key : pyval) : option pyval * t :=
  match _make_key md5 self key with
  | None => (None, self)
  | Some cache_key =>
      if up then
        match redis_get self cache_key now with
        | Some value => (Some value, bump "hits" self)
        | None => (None, bump "misses" self)
        end
      else (None, self)
  end.

(** [ttl or self.default_ttl] *)
Definition ttl_or_default (self : t) (ttl : option Z) : Z :=
  match ttl with
  | Some z => if (z =? 0)%Z then default_ttl self else z
  | None => default_ttl self
  end.

Definition cache_data (value : pyval) (now : Q) (ttl : Z) : pyval :=
  PDict (<["value" := value]>
           (<["cached_at" := PFloat now]> (<["ttl" := PInt ttl]> ∅))).

(** [set]: the deadline is counted from the clock reading [now], the
    clock of the store being taken to agree with the caller's.  [SETEX]
    raises on a non-positive expiry and on one whose count of
    milliseconds does not fit a signed 64-bit integer; the [except]
    clause turns that into [return False]. *)
Definition set (md5 : string -> string) (up : bool) (now : Q)
    (self : t) (key : pyval) (value : pyval) (ttl : option Z) : bool * t :=
  match _make_key md5 self key with
  | None => (false, self)
  | Some cache_key =>
      let ttl := ttl_or_default self ttl in
      if up && (0 <? ttl)%Z && (ttl * 1000 <? 9223372036854775808)%Z then
        (true,
         bump "sets"
           {| redis := <[cache_key := {| document := cache_data value now ttl;
                                         expire_at := (now + inject_Z ttl)%Q |}]>
                         (redis self);
              prefix := prefix self;
              default_ttl := default_ttl self;
              stats := stats self |})
      else (false, self)
  end.

End CacheManager.

(** ** parsing_service/utils/proxy_manager.py *)

Module ProxyManager.

Record proxy_stat := {
  success : Z;
  failure : Z;
  last_used : Q;
  last_success : Q;
  blocked : bool;
  block_until : Q
}.

(** The [defaultdict] factory. *)
Definition fresh : proxy_stat :=
  {| success := 0; failure := 0; last_used := 0; last_success := 0;
     blocked := false; block_until := 0 |}.

Record t := {
  proxies : list string;
  proxy_stats : gmap string proxy_stat;
  rotation_strategy : string;
  current_index : nat
}.

Definition __init__ (proxies : list string) : t :=
  {| proxies := proxies; proxy_stats := ∅;
     rotation_strategy := "random"; current_index := 0 |}.

(** [self.proxy_stats[proxy]] reads the entry, creating it when absent. *)
Definition stats_of (m : gmap string proxy_stat) (proxy : string) : proxy_stat :=
  default fresh (m !! proxy).

Definition with_stats (self : t) (m : gmap string proxy_stat) : t :=
  {| proxies := proxies self; proxy_stats := m;
     rotation_strategy := rotation_strategy self;
     current_index := current_index self |}.

(** The generator behind [random]: [randbelow n] for [random.choice] and
    [random] in [0,1) for [random.choices]. *)
Record rng := { randbelow : nat -> nat; random : Q }.

(** [random.choice(l)] on a non-empty list. *)
Definition choice (g : rng) (l : list string) : option string :=
  l !! (randbelow g (length l) mod length l)%nat.

(** One round of the loop of [_get_available_proxies]. *)
Definition available_step (current_time : Q)
    (acc : list string * gmap string proxy_stat) (proxy : string)
  : list string * gmap string proxy_stat :=
  let '(available, m) := acc in
  let stats := stats_of m proxy in
  if blocked stats && (if Qlt_le_dec current_time (block_until stats)
                       then true else false)
  then (available, <[proxy := stats]> m)
  else
    let stats :=
      if blocked stats
      then {| success := success stats; failure := failure stats;
              last_used := last_used stats;
              last_success := last_success stats;
              blocked := false; block_until := 0 |}
      else stats in
    if Qlt_le_dec (current_time - last_used stats)%Q 1%Q
    then (available, <[proxy := stats]> m)
    else ((available ++ [proxy])%list, <[proxy := stats]> m).

Definition _get_available_proxies (self : t) (current_time : Q)
  : list string * t :=
  let '(available, m) :=
    fold_left (available_step current_time) (proxies self)
              ([], proxy_stats self) in
  (available, with_stats self m).

Definition weight_of (m : gmap string proxy_stat) (proxy : string) : Q :=
  let stats := stats_of m proxy in
  let total := (success stats + failure stats)%Z in
  if (total =? 0)%Z then (1 # 2)%Q
  else (inject_Z (success stats) / inject_Z total)%Q.

Fixpoint accumulate (acc : Q) (ws : list Q) : list Q :=
  match ws with
  | [] => []
  | w :: r => (acc + w)%Q :: accumulate (acc + w)%Q r
  end.

(** [bisect(cum, x, 0, hi)]: the first index below [hi] whose entry
    exceeds [x], else [hi]. *)
Fixpoint bisect (cum : list Q) (x : Q) (hi : nat) : nat :=
  match hi, cum with
  | S hi', c :: r => if Qlt_le_dec x c then 0%nat else S (bisect r x hi')
  | _, _ => 0%nat
  end.

Definition sum_Q (ws : list Q) : Q := fold_right Qplus 0%Q ws.

(** [_get_weighted_proxy]; reading [proxy_stats] creates the entries. *)
Definition _get_weighted_proxy (g : rng) (self : t) (l : list string)
  : option string * t :=
  let weights := map (weight_of (proxy_stats self)) l in
  let m := fold_left (fun m p => <[p := stats_of m p]> m) l (proxy_stats self) in
  let total := sum_Q weights in
  if Qeq_bool total 0%Q
  then (choice g l, with_stats self m)
  else (l !! bisect (accumulate 0%Q weights) (random g * total)%Q (length l - 1)%nat,
        with_stats self m).

Definition touch_last_used (self : t) (proxy : string) (now : Q) : t :=
  let stats := stats_of (proxy_stats self) proxy in
  with_stats self
    (<[proxy := {| success := success stats; failure := failure stats;
                   last_used := now; last_success := last_success stats;
                   blocked := blocked stats;
                   block_until := block_until stats |}]> (proxy_stats self)).

(** [get_proxy]: [t_check] is the clock read by [_get_available_proxies],
    [t_use] the one stored in [last_used]. *)
Definition get_proxy (g : rng) (self : t) (strategy : option string)
    (t_check t_use : Q) : option string * t :=
  match proxies self with
  | [] => (None, self)
  | _ :: _ =>
      let strategy :=
        match strategy with
        | Some s => if String.eqb s "" then rotation_strategy self else s
        | None => rotation_strategy self
        end in
      let '(available_proxies, self) := _get_available_proxies self t_check in
      match available_proxies with
      | [] => (None, self)
      | first :: _ =>
          let '(proxy, self) :=
            if String.eqb strategy "random"
            then (choice g available_proxies, self)
            else if String.eqb strategy "round-robin"
            then (available_proxies
                    !! (current_index self mod length available_proxies)%nat,
                  {| proxies := proxies self;
                     proxy_stats := proxy_stats self;
                     rotation_strategy := rotation_strategy self;
                     current_index := S (current_index self) |})
            else if String.eqb strategy "weighted"
            then _get_weighted_proxy g self available_proxies
            else (Some first, self) in
          match proxy with
          | Some p => (Some p, touch_last_used self p t_use)
          | None => (None, self)
          end
      end
  end.

Definition _count_recent_failures (self : t) (proxy : string)
    (window : Q) (current_time : Q) : Z :=
  let stats := stats_of (proxy_stats self) proxy in
  if Qlt_le_dec (current_time - window)%Q (last_success stats)
  then 1%Z
  else Z.min (failure stats) 3.

Definition mark_success (self : t) (proxy : string) (now : Q) : t :=
  if String.eqb proxy "" then self
  else
    let stats := stats_of (proxy_stats self) proxy in
    with_stats self
      (<[proxy := {| success := (success stats + 1)%Z; failure := failure stats;
                     last_used := last_used stats; last_success := now;
                     blocked := blocked stats;
                     block_until := block_until stats |}]> (proxy_stats self)).

Definition mark_failure (self : t) (proxy : string) (block_duration : Q)
    (now : Q) : t :=
  if String.eqb proxy "" then self
  else
    let stats := stats_of (proxy_stats self) proxy in
    let stats := {| success := success stats; failure := (failure stats + 1)%Z;
                    last_used := last_used stats;
                    last_success := last_success stats;
                    blocked := blocked stats;
                    block_until := block_until stats |} in
    let self := with_stats self (<[proxy := stats]> (proxy_stats self)) in
    let recent_failures := _count_recent_failures self proxy 60%Q now in
    if (3 <=? recent_failures)%Z
    then with_stats self
           (<[proxy := {| success := success stats; failure := failure stats;
                          last_used := last_used stats;
                          last_success := last_success stats;
                          blocked := true;
                          block_until := (now + block_duration)%Q |}]>
              (proxy_stats self))
    else self.

End ProxyManager.

(** ** parsing_service/app.py: class ParsingService (state and bookkeeping) *)

Module ParsingService.
Import Py.

Inductive handler_obj :=
| APIStrategy | PlaywrightStrategy | SeleniumStrategy | RequestsStrategy.

(** One entry of [self.strategies]. *)
Record strategy := {
  name : string;
  handler : handler_obj;
  priority : Z;
  timeout : Q;
  enabled : bool
}.

(** [os.getenv(k, dflt)] *)
Definition getenv (env : gmap string string) (k dflt : string) : string :=
  default dflt (env !! k).

Definition _initialize_strategies (env : gmap string string) : list strategy :=
  [ {| name := "api_with_signature"; handler := APIStrategy;
       priority := 1; timeout := 10; enabled := true |} ]
  ++ (if String.eqb (lower (getenv env "ENABLE_PLAYWRIGHT" "true")) "true"
      then [ {| name := "playwright"; handler := PlaywrightStrategy;
                priority := 2; timeout := 30; enabled := true |} ]
      else [])
  ++ (if String.eqb (lower (getenv env "ENABLE_SELENIUM" "false")) "true"
      then [ {| name := "selenium"; handler := SeleniumStrategy;
                priority := 3; timeout := 30; enabled := true |} ]
      else [])
  ++ [ {| name := "requests"; handler := RequestsStrategy;
          priority := 4; timeout := 15; enabled := true |} ].

(** The literals 1.0, 0.8, 0.6 and 0.4, as binary64 holds them. *)
Definition _initialize_weights : gmap string Q :=
  <["api_with_signature" := Float.round 1]>
    (<["playwright" := Float.round (8 # 10)]>
       (<["selenium" := Float.round (6 # 10)]>
          (<["requests" := Float.round (4 # 10)]> ∅))).

(** The attributes of a [ParsingService] object. *)
Record t := {
  strategies : list strategy;
  strategy_weights : gmap string Q;
  failure_counts : gmap string Q;
  success_counts : gmap string Z
}.

Definition __init__ (env : gmap string string) : t :=
  {| strategies := _initialize_strategies env;
     strategy_weights := _initialize_weights;
     failure_counts := ∅;
     success_counts := ∅ |}.

(** [self.success_counts.get(n, 0)] and [self.failure_counts.get(n, 0)] *)
Definition success_count (self : t) (n : string) : Z :=
  default 0%Z (success_counts self !! n).

Definition failure_count (self : t) (n : string) : Q :=
  default 0%Q (failure_counts self !! n).

Definition _record_success (self : t) (strategy_name : string) : t :=
  let sc := <[strategy_name := (success_count self strategy_name + 1)%Z]>
              (success_counts self) in
  let fc :=
    match failure_counts self !! strategy_name with
    | Some f => <[strategy_name := Py.max 0 (f - (1 # 2))%Q]> (failure_counts self)
    | None => failure_counts self
    end in
  {| strategies := strategies self;
     strategy_weights := strategy_weights self;
     failure_counts := fc;
     success_counts := sc |}.

Definition _record_failure (self : t) (strategy_name : string) : t :=
  {| strategies := strategies self;
     strategy_weights := strategy_weights self;
     failure_counts :=
       <[strategy_name := (failure_count self strategy_name + 1)%Q]>
         (failure_counts self);
     success_counts := success_counts self |}.

(** [{**strategy, 'score': dynamic_weight}] *)
Record scored := { strat : strategy; score : Q }.

(** The score of one strategy in [_sort_strategies_by_weight].  The
    counters and their sum are exact (they are whole or half numbers,
    below 2^53); the quotient, the product, the sum and the final product
    are rounded one after the other. *)
Definition dynamic_weight (self : t) (s : strategy) : Q :=
  let base_weight := default (1 # 2)%Q (strategy_weights self !! name s) in
  let sc := inject_Z (success_count self (name s)) in
  let fc := failure_count self (name s) in
  if Qlt_le_dec 0 (sc + fc)
  then let success_rate := Float.div sc (sc + fc) in
       Float.mul base_weight (Float.add (1 # 2) (Float.mul success_rate (1 # 2)))
  else base_weight.

(** [sorted(..., key=score, reverse=True)] is a stable sort in
    descending key order: an element is placed before the first element
    whose key is not strictly greater. *)
Fixpoint insert_desc (x : scored) (l : list scored) : list scored :=
  match l with
  | [] => [x]
  | y :: r => if Qlt_le_dec (score x) (score y)
              then y :: insert_desc x r
              else x :: y :: r
  end.

Definition sorted_desc (l : list scored) : list scored :=
  foldr insert_desc [] l.

Definition _sort_strategies_by_weight (self : t) : list scored :=
  sorted_desc
    (map (fun s => {| strat := s; score := dynamic_weight self s |})
         (strategies self)).

Definition _validate_result (result : dict) : bool :=
  if negb (truthy (PDict result)) then false
  else if negb (forallb (contains result) ["video_id"; "title"; "author"])
  then false
  else match result !! "video_url" with
       | Some video_url =>
           if negb (truthy video_url) || eq_str video_url "None"
           then false else true
       | None => true
       end.

(** What awaiting [handler.parse(url, options)] ends in. *)
Inductive outcome :=
| RaisesTimeout
| Raises (msg : string)
| Returns (result : option dict).

(** The world outside the service: the digest function, whether Redis
    answers, the random generator, and for each handler call the time it
    takes and its outcome. *)
Record oracle := {
  md5 : string -> string;
  redis_up : bool;
  generator : ProxyManager.rng;
  handler_parse : handler_obj -> pyval -> dict -> Q * outcome
}.

Inductive log_line :=
| LogCacheHit (url : pyval)
| LogTrying (strategy_name : string)
| LogParsed (strategy_name : string) (elapsed : Q)
| LogTimedOut (strategy_name : string)
| LogFailed (strategy_name : string) (msg : string).

Inductive metric :=
| record_cache_hit
| record_parse_success (strategy_name : string) (elapsed : Q)
| record_parse_failure.

(** The module-level objects of app.py, and the clock. *)
Record globals := {
  cache_manager : CacheManager.t;
  proxy_manager : ProxyManager.t;
  metrics_collector : list metric;
  logger : list log_line;
  clock : Q
}.

Definition log (g : globals) (l : log_line) : globals :=
  {| cache_manager := cache_manager g; proxy_manager := proxy_manager g;
     metrics_collector := metrics_collector g;
     logger := (logger g ++ [l])%list; clock := clock g |}.

Definition collect (g : globals) (m : metric) : globals :=
  {| cache_manager := cache_manager g; proxy_manager := proxy_manager g;
     metrics_collector := (metrics_collector g ++ [m])%list;
     logger := logger g; clock := clock g |}.

Definition sleep (g : globals) (d : Q) : globals :=
  {| cache_manager := cache_manager g; proxy_manager := proxy_manager g;
     metrics_collector := metrics_collector g;
     logger := logger g; clock := (clock g + d)%Q |}.

Definition with_cache (g : globals) (c : CacheManager.t) : globals :=
  {| cache_manager := c; proxy_manager := proxy_manager g;
     metrics_collector := metrics_collector g;
     logger := logger g; clock := clock g |}.

Definition with_proxies (g : globals) (p : ProxyManager.t) : globals :=
  {| cache_manager := cache_manager g; proxy_manager := p;
     metrics_collector := metrics_collector g;
     logger := logger g; clock := clock g |}.

Definition of_option (o : option string) : pyval :=
  match o with Some s => PStr s | None => PNone end.

(** [f"{last_error}"] *)
Definition fmt_error (last_error : option string) : string :=
  match last_error with Some e => e | None => "None" end.

Definition _execute_strategy (o : oracle) (strategy : strategy)
    (url : pyval) (proxy : option string) (options : dict) : Q * outcome :=
  let strategy_options :=
    update (<["proxy" := of_option proxy]>
              (<["cookies" := get options "cookies" PNone]>
                 (<["headers" := get options "headers" PNone]> ∅)))
           options in
  handler_parse o (handler strategy) url strategy_options.

(** The [for strategy in sorted_strategies] loop of [parse_video].
    [asyncio.wait_for] lets the call finish when it takes no longer than
    the timeout and raises [TimeoutError] at the timeout otherwise. *)
Fixpoint try_strategies (o : oracle) (url : pyval) (proxy : option string)
    (options : dict) (start_time : Q) (sorted_strategies : list scored)
    (last_error : option string) (self : t) (g : globals)
  : (string + pyval) * t * globals :=
  match sorted_strategies with
  | [] =>
      (inl ("All strategies failed. Last error: " ++ fmt_error last_error),
       self, collect g record_parse_failure)
  | s :: rest =>
      let strategy := strat s in
      if negb (enabled strategy)
      then try_strategies o url proxy options start_time rest last_error self g
      else
        let strategy_name := name strategy in
        let g := log g (LogTrying strategy_name) in
        let '(taken, out) := _execute_strategy o strategy url proxy options in
        let timed_out :=
          let g := log (sleep g (timeout strategy)) (LogTimedOut strategy_name) in
          try_strategies o url proxy options start_time rest
            (Some ("Strategy " ++ strategy_name ++ " timed out"))
            (_record_failure self strategy_name) g in
        if Qle_bool taken (timeout strategy) then
          let g := sleep g taken in
          match out with
          | Returns (Some result) =>
              if truthy (PDict result) && _validate_result result then
                let self := _record_success self strategy_name in
                let '(_, c) := CacheManager.set (md5 o) (redis_up o) (clock g)
                                 (cache_manager g) url (PDict result)
                                 (Some 3600%Z) in
                let g := with_cache g c in
                let elapsed := (clock g - start_time)%Q in
                let g := collect g (record_parse_success strategy_name elapsed) in
                (inr (PDict result), self, log g (LogParsed strategy_name elapsed))
              else
                try_strategies o url proxy options start_time rest last_error self g
          | Returns None =>
              try_strategies o url proxy options start_time rest last_error self g
          | RaisesTimeout =>
              try_strategies o url proxy options start_time rest
                (Some ("Strategy " ++ strategy_name ++ " timed out"))
                (_record_failure self strategy_name)
                (log g (LogTimedOut strategy_name))
          | Raises e =>
              try_strategies o url proxy options start_time rest (Some e)
                (_record_failure self strategy_name)
                (log g (LogFailed strategy_name e))
          end
        else timed_out
  end.

(** [parse_video]: [inl msg] is [raise Exception(msg)]. *)
Definition parse_video (o : oracle) (url : pyval) (options : dict)
    (self : t) (g : globals) : (string + pyval) * t * globals :=
  let start_time := clock g in
  let '(cached_result, c) :=
    CacheManager.get (md5 o) (redis_up o) (clock g) (cache_manager g) url in
  let g := with_cache g c in
  let hit :=
    match cached_result with
    | Some v => truthy v && negb (truthy (get options "force_refresh" (PBool false)))
    | None => false
    end in
  match cached_result, hit with
  | Some v, true =>
      (inr v, self, collect (log g (LogCacheHit url)) record_cache_hit)
  | _, _ =>
      let '(proxy, g) :=
        if truthy (get options "use_proxy" (PBool false))
        then let '(p, pm) := ProxyManager.get_proxy (generator o)
                               (proxy_manager g) None (clock g) (clock g) in
             (p, with_proxies g pm)
        else (None, g) in
      let sorted_strategies := _sort_strategies_by_weight self in
      try_strategies o url proxy options start_time sorted_strategies None self g
  end.

(** *** The /batch_parse route *)

Record response := { status : Z; json : pyval }.

Definition type_name (v : pyval) : string :=
  match v with
  | PNone => "NoneType" | PBool _ => "bool" | PInt _ => "int"
  | PFloat _ => "float" | PStr _ => "str" | PList _ => "list"
  | PDict _ => "dict"
  end.

Definition result_entry (url : pyval) (result : string + pyval) : pyval :=
  match result with
  | inl e => PDict (<["url" := url]> (<["success" := PBool false]>
                      (<["error" := PStr e]> ∅)))
  | inr data => PDict (<["url" := url]> (<["success" := PBool true]>
                         (<["data" := data]> ∅)))
  end.

Definition error_body (e : string) : pyval :=
  PDict (<["error" := PStr e]> ∅).

Definition failure_body (e : string) : pyval :=
  PDict (<["success" := PBool false]> (<["error" := PStr e]> ∅)).

(** A coroutine object [parsing_service.parse_video(url, options)]: once
    it is run it takes the service and the module state to an outcome,
    [inl msg] for [raise Exception(msg)]. *)
Definition task : Type := t -> globals -> (string + pyval) * t * globals.

(** What the route does with a request.  It either answers at once, or it
    hands the event loop one task per URL and awaits
    [asyncio.gather] on them with [return_exceptions=True]: the tasks then run
    interleaved, in an order this development leaves open, and [gather]
    gives back their outcomes in the order of the tasks; the route goes
    on with these. *)
Inductive batch_step :=
| Answer (r : response)
| AwaitAll (tasks : list task) (k : list (string + pyval) -> response).

(** [urls[i]] in the result loop; [inl msg] is the exception, as [str]
    shows it.  The keys of a JSON object are strings, so [i] is never a
    key of a dict. *)
Definition getitem (urls : pyval) (l : list pyval) (i : nat) : string + pyval :=
  match urls with
  | PDict _ => inl (NilZero.string_of_uint (Nat.to_uint i))
  | PStr _ =>
      match l !! i with
      | Some u => inr u
      | None => inl "string index out of range"
      end
  | _ =>
      match l !! i with
      | Some u => inr u
      | None => inl "list index out of range"
      end
  end.

(** The loop [for i, result in enumerate(results)], from index [i]. *)
Fixpoint parsed_results (urls : pyval) (l : list pyval) (i : nat)
    (results : list (string + pyval)) : string + list pyval :=
  match results with
  | [] => inr []
  | result :: rest =>
      match getitem urls l i with
      | inl e => inl e
      | inr url =>
          match parsed_results urls l (S i) rest with
          | inl e => inl e
          | inr entries => inr (result_entry url result :: entries)
          end
      end
  end.

(** [batch_parse]: [data] is [request.json]. *)
Definition batch_parse (o : oracle) (data : pyval) : batch_step :=
  match data with
  | PDict data =>
      let urls := get data "urls" (PList []) in
      if negb (truthy urls)
      then Answer {| status := 400; json := error_body "URLs are required" |}
      else
        match iter urls with
        | None =>
            Answer {| status := 500;
                      json := failure_body ("object of type '" ++ type_name urls
                                            ++ "' has no len()") |}
        | Some l =>
            if (10 <? length l)%nat
            then Answer {| status := 400;
                           json := error_body "Maximum 10 URLs per batch" |}
            else
              let options :=
                <["use_proxy" := get data "use_proxy" (PBool false)]>
                  (<["cookies" := get data "cookies" PNone]> ∅) in
              AwaitAll (map (fun url => parse_video o url options) l)
                (fun results =>
                   match parsed_results urls l 0 results with
                   | inl e => {| status := 500; json := failure_body e |}
                   | inr entries =>
                       {| status := 200;
                          json := PDict (<["success" := PBool true]>
                                    (<["results" := PList entries]> ∅)) |}
                   end)
        end
  | _ =>
      Answer {| status := 500;
                json := failure_body ("'" ++ type_name data
                                      ++ "' object has no attribute 'get'") |}
  end.

(** The bookkeeping calls made on a service object over its life. *)
Inductive record_call :=
| RecordSuccess (strategy_name : string)
| RecordFailure (strategy_name : string).

Definition record (self : t) (c : record_call) : t :=
  match c with
  | RecordSuccess n => _record_success self n
  | RecordFailure n => _record_failure self n
  end.

Definition records (self : t) (cs : list record_call) : t :=
  fold_left record cs self.

Definition is_success_of (n : string) (c : record_call) : bool :=
  match c with
  | RecordSuccess m => bool_decide (m = n)
  | RecordFailure _ => false
  end.

Definition call_name (c : record_call) : string :=
  match c with RecordSuccess m | RecordFailure m => m end.

End ParsingService.

(** ** downloader_v3.py *)

Module Downloader.
Import Py.

(** The part of the disk the downloader touches: regular files with
    their contents, directories, and the paths the system refuses to open
    for writing (the parent directory is missing, as under a file name
    with a slash in it, or the process may not write there). *)
Record filesystem := {
  files : gmap string string;
  dirs : gset string;
  refused : gset string
}.

(** [path.exists()] *)
Definition path_exists (fs : filesystem) (path : string) : bool :=
  bool_decide (is_Some (files fs !! path)) || bool_decide (path ∈ dirs fs).

(** [path.mkdir(exist_ok=True)], for a directory that is there or can be
    made. *)
Definition mkdir (fs : filesystem) (path : string) : filesystem :=
  {| files := files fs; dirs := {[path]} ∪ dirs fs; refused := refused fs |}.

(** [path.unlink()] *)
Definition unlink (fs : filesystem) (path : string) : filesystem :=
  {| files := delete path (files fs); dirs := dirs fs;
     refused := refused fs |}.

(** Whether [open(path, 'wb')] returns a file; it raises [OSError] on a
    directory and on a path the system refuses. *)
Definition can_open (fs : filesystem) (path : string) : bool :=
  negb (bool_decide (path ∈ dirs fs))
  && negb (bool_decide (path ∈ refused fs)).

(** The disk once a file opened with [open(path, 'wb')] has received
    [content]. *)
Definition write_file (fs : filesystem) (path content : string) : filesystem :=
  {| files := <[path := content]> (files fs); dirs := dirs fs;
     refused := refused fs |}.

(** [save_dir / filename] *)
Definition join (save_dir filename : string) : string :=
  save_dir ++ "/" ++ filename.

(** How the body of a response ends. *)
Inductive stream_end := Complete | Broken.

(** What [session.get(url, ...)] ends in.  [content_length] is the
    header as [int] reads it: absent, unreadable ([Some None]) or a
    number. *)
Inductive http_result :=
| GetRaises
| GetResponse (status_code : Z) (content_length : option (option Z))
              (chunks : list string) (fin : stream_end).

Record t := {
  stats : gmap string Z;
  download_dir : string
}.

(** [self.stats[k] += 1] *)
Definition bump (k : string) (self : t) : t :=
  {| stats := <[k := (default 0%Z (stats self !! k) + 1)%Z]> (stats self);
     download_dir := download_dir self |}.

Definition illegal : list ascii :=
  ["<"; ">"; ":"; ascii_of_nat 34; "/"; "\"; "|"; "?"; "*"]%char.

(** [str.isspace] on the code points below 256. *)
Definition is_space (c : ascii) : bool :=
  let n := nat_of_ascii c in
  ((9 <=? n)%nat && (n <=? 13)%nat) || ((28 <=? n)%nat && (n <=? 32)%nat)
  || (n =? 133)%nat || (n =? 160)%nat.

Fixpoint lstrip (s : string) : string :=
  match s with
  | EmptyString => EmptyString
  | String c r => if is_space c then lstrip r else s
  end.

Definition rev_string (s : string) : string :=
  string_of_list_ascii (rev (list_ascii_of_string s)).

Definition strip (s : string) : string :=
  rev_string (lstrip (rev_string (lstrip s))).

(** [_sanitize_filename]; [re.sub] raises on anything but a [str]. *)
Definition _sanitize_filename (filename : pyval) : option string :=
  filename ← as_str filename;
  let filename := Re.remove_chars illegal filename in
  let filename := String.substring 0 50 filename in
  let filename := strip filename in
  Some (if String.eqb filename "" then "untitled" else filename).

(** [response.raise_for_status()] raises on 4xx and 5xx. *)
Definition is_error_status (status_code : Z) : bool :=
  (400 <=? status_code)%Z && (status_code <? 600)%Z.

(** The bytes [f.write] has put in the file after the chunk loop. *)
Definition written (chunks : list string) : string :=
  fold_left (fun acc chunk => acc ++ chunk) chunks "".

(** [_download_cover]: every exception is swallowed. *)
Definition _download_cover (session_get : string -> http_result)
    (fs : filesystem) (cover_url : pyval) (save_dir filename : string)
  : filesystem :=
  let filepath := join save_dir filename in
  if path_exists fs filepath then fs
  else match as_str cover_url with
       | Some u =>
           match session_get u with
           | GetResponse status_code _ chunks Complete =>
               if is_error_status status_code then fs
               else if can_open fs filepath
                    then write_file fs filepath (written chunks)
                    else fs
           | _ => fs
           end
       | None => fs
       end.

(** [f"{i:02d}"] *)
Definition two_digits (i : nat) : string :=
  let d := NilZero.string_of_uint (Nat.to_uint i) in
  if (i <? 10)%nat then "0" ++ d else d.

(** The loop of [_download_images] from index [i]; returns the number of
    images stored. *)
Fixpoint image_loop (session_get : string -> http_result) (image_dir : string)
    (i : nat) (images : list pyval) (fs : filesystem) : nat * filesystem :=
  match images with
  | [] => (0%nat, fs)
  | image_url :: rest =>
      let stored :=
        match as_str image_url with
        | Some u =>
            match session_get u with
            | GetResponse status_code _ chunks Complete =>
                let image_path :=
                  join image_dir ("image_" ++ two_digits i ++ ".jpg") in
                if is_error_status status_code then None
                else if can_open fs image_path
                     then Some (write_file fs image_path (written chunks))
                     else None
            | _ => None
            end
        | None => None
        end in
      match stored with
      | Some fs =>
          let '(n, fs) := image_loop session_get image_dir (S i) rest fs in
          (S n, fs)
      | None => image_loop session_get image_dir (S i) rest fs
      end
  end.

(** [_download_images]; the outer [None] is an exception that escapes. *)
Definition _download_images (repr : pyval -> string)
    (session_get : string -> http_result) (self : t) (fs : filesystem)
    (video_info : dict) (save_dir title author : string)
  : option bool * t * filesystem :=
  let images := get video_info "images" (PList []) in
  if negb (truthy images) then (Some false, self, fs)
  else
    let video_id := get video_info "video_id" (PStr "unknown") in
    let image_dir :=
      join save_dir (author ++ "_" ++ title ++ "_" ++ str repr video_id) in
    let fs := mkdir fs image_dir in
    match images with
    | PList _ | PStr _ | PDict _ =>
        let '(success_count, fs) :=
          image_loop session_get image_dir 1 (default [] (iter images)) fs in
        if (0 <? success_count)%nat
        then (Some true, bump "success" self, fs)
        else (Some false, bump "failed" self, fs)
    | _ => (None, self, fs)
    end.

(** [download_video]: [Some b] is [return b], [None] an exception that
    escapes the method.  [save_dir] is a [Path] or [None]; a [Path] is
    always truthy. *)
Definition download_video (repr : pyval -> string)
    (session_get : string -> http_result) (self : t) (fs : filesystem)
    (video_info : dict) (save_dir : option string)
  : option bool * t * filesystem :=
  if negb (truthy (PDict video_info)) then (Some false, self, fs)
  else
    let save_dir :=
      match save_dir with
      | Some d => d
      | None => download_dir self
      end in
    let fs := mkdir fs save_dir in
    let video_id := get video_info "video_id" (PStr "unknown") in
    match _sanitize_filename (get video_info "title" video_id),
          _sanitize_filename (get video_info "author" (PStr "unknown")) with
    | Some title, Some author =>
        if truthy (get video_info "is_image" PNone)
        then _download_images repr session_get self fs video_info
               save_dir title author
        else
          let video_url := get video_info "video_url" PNone in
          if negb (truthy video_url) then (Some false, self, fs)
          else
            let stem := author ++ "_" ++ title ++ "_" ++ str repr video_id in
            let filename := stem ++ ".mp4" in
            let filepath := join save_dir filename in
            if path_exists fs filepath
            then (Some true, bump "skipped" self, fs)
            else
              (* the [except Exception] handler, entered with disk [fs] *)
              let failed (fs : filesystem) :=
                (Some false, bump "failed" self,
                 if path_exists fs filepath then unlink fs filepath else fs) in
              match as_str video_url with
              | None => failed fs
              | Some u =>
                  match session_get u with
                  | GetRaises => failed fs
                  | GetResponse status_code content_length chunks fin =>
                      if is_error_status status_code then failed fs
                      else
                        match content_length with
                        | Some None => failed fs
                        | _ =>
                            if negb (can_open fs filepath) then failed fs
                            else
                              let fs :=
                                write_file fs filepath (written chunks) in
                              match fin with
                              | Broken => failed fs
                              | Complete =>
                                  let self := bump "success" self in
                                  let cover_url :=
                                    get video_info "cover_url" PNone in
                                  let fs :=
                                    if truthy cover_url
                                    then _download_cover session_get fs
                                           cover_url save_dir (stem ++ ".jpg")
                                    else fs in
                                  (Some true, self, fs)
                              end
                        end
                  end
              end
    | _, _ => (None, self, fs)
    end.

End Downloader.

(** ** Text beyond Latin-1

    A Python [str] is a sequence of code points.  The [string]s of the
    other modules hold one code point below 256 per character; the
    functions whose result depends on what lies beyond ([\d], [strip],
    slicing by characters) are given here on all of [str], and the
    theorems relate the two. *)

Module Unicode.

Definition of_string (s : string) : list N :=
  map N_of_ascii (list_ascii_of_string s).

(** [s[len(p):]] when [s.startswith(p)]. *)
Fixpoint strip_prefix (p s : list N) : option (list N) :=
  match p, s with
  | [], _ => Some s
  | a :: p', b :: s' => if N.eqb a b then strip_prefix p' s' else None
  | _ :: _, [] => None
  end.

(** [needle in s] *)
Fixpoint contains (needle s : list N) : bool :=
  match strip_prefix needle s with
  | Some _ => true
  | None => match s with
            | [] => false
            | _ :: r => contains needle r
            end
  end.

(** The fragment of [re] on [str] patterns.  There [\d] is every decimal
    digit of the Unicode tables the interpreter was built with; the class
    is the parameter [decimal]. *)
Section Regex.
Variable decimal : N -> bool.

(** The greedy run of digits at the head of [s], at most [cap] long. *)
Fixpoint digits (cap : option nat) (s : list N) : list N :=
  match s with
  | [] => []
  | c :: r =>
      if decimal c then
        match cap with
        | None => c :: digits None r
        | Some O => []
        | Some (S n) => c :: digits (Some n) r
        end
      else []
  end.

(** [re.match(p, s).group(1)] *)
Definition match_here (p : Re.pattern) (s : list N) : option (list N) :=
  match strip_prefix (of_string (Re.lit p)) s with
  | Some rest =>
      let d := digits (Re.hi p) rest in
      if (Re.lo p <=? length d)%nat then Some d else None
  | None => None
  end.

(** [re.search(p, s).group(1)]: the match at the leftmost position. *)
Fixpoint search (p : Re.pattern) (s : list N) : option (list N) :=
  match match_here p s with
  | Some d => Some d
  | None => match s with
            | [] => None
            | _ :: r => search p r
            end
  end.

(** The [for pattern in patterns] loop of [extract_video_id]. *)
Fixpoint first_match (ps : list Re.pattern) (url : list N) : option (list N) :=
  match ps with
  | [] => None
  | pattern :: rest =>
      match search pattern url with
      | Some group1 => Some group1
      | None => first_match rest url
      end
  end.

(** [BaseStrategy.extract_video_id] on any [str]. *)
Definition extract_video_id (url : list N) : option (list N) :=
  match first_match BaseStrategy.patterns url with
  | Some id => Some id
  | None => if contains (of_string "v.douyin.com") url then None else None
  end.

End Regex.

(** [str.isspace]: the code points of category Zs or of bidirectional
    class WS, B or S. *)
Definition is_space (c : N) : bool :=
  ((9 <=? c) && (c <=? 13) || (28 <=? c) && (c <=? 32)
   || (c =? 133) || (c =? 160) || (c =? 5760)
   || (8192 <=? c) && (c <=? 8202)
   || (c =? 8232) || (c =? 8233) || (c =? 8239) || (c =? 8287)
   || (c =? 12288))%N.

Definition illegal : list N := map N_of_ascii Downloader.illegal.

(** [re.sub('[set]', '', s)] *)
Fixpoint remove_chars (set : list N) (s : list N) : list N :=
  match s with
  | [] => []
  | c :: r =>
      if existsb (N.eqb c) set then remove_chars set r
      else c :: remove_chars set r
  end.

Fixpoint lstrip (s : list N) : list N :=
  match s with
  | [] => []
  | c :: r => if is_space c then lstrip r else s
  end.

(** [s.strip()] *)
Definition strip (s : list N) : list N :=
  rev (lstrip (rev (lstrip s))).

(** [_sanitize_filename] on any [str]. *)
Definition _sanitize_filename (filename : list N) : list N :=
  let filename := remove_chars illegal filename in
  let filename := take 50 filename in
  let filename := strip filename in
  match filename with
  | [] => of_string "untitled"
  | _ :: _ => filename
  end.

End Unicode.

(** ** Properties of the bookkeeping state *)

Module Props.
Import Py ParsingService.

Definition counts_nonneg (self : t) : Prop :=
  forall n f, failure_counts self !! n = Some f -> (0 <= f)%Q.

Definition mentions (n : string) (cs : list record_call) : Prop :=
  Exists (fun c => call_name c = n) cs.

(** What the counters of a name look like after a history of calls. *)
Definition history_inv (self : t) (cs : list record_call) (n : string) : Prop :=
  (0 <= success_count self n)%Z
  /\ (0 <= failure_count self n)%Q
  /\ (mentions n cs ->
      (1 <= success_count self n)%Z \/ (1 <= failure_count self n)%Q)
  /\ (~ mentions n cs ->
      success_counts self !! n = None /\ failure_counts self !! n = None).

(** Descending order of scores. *)
Definition by_score_desc (a b : scored) : Prop := (score b <= score a)%Q.

(** The strategy names that follow "Trying strategy:" in a log. *)
Definition tried (l : list log_line) : list string :=
  omap (fun x => match x with LogTrying n => Some n | _ => None end) l.

(** How one attempt of the chain ends. *)
Inductive verdict :=
| Accepted (result : dict)
| Invalid
| Failed (error : string).

Definition attempt (o : oracle) (url : pyval) (proxy : option string)
    (options : dict) (s : strategy) : verdict :=
  let '(taken, out) := _execute_strategy o s url proxy options in
  if Qle_bool taken (timeout s) then
    match out with
    | Returns (Some result) =>
        if _validate_result result then Accepted result else Invalid
    | Returns None => Invalid
    | RaisesTimeout => Failed ("Strategy " ++ name s ++ " timed out")
    | Raises e => Failed e
    end
  else Failed ("Strategy " ++ name s ++ " timed out").

Definition rejected (o : oracle) (url : pyval) (proxy : option string)
    (options : dict) (s : strategy) : Prop :=
  forall result, attempt o url proxy options s <> Accepted result.

(** The time one attempt takes on the clock. *)
Definition time_spent (o : oracle) (url : pyval) (proxy : option string)
    (options : dict) (s : strategy) : Q :=
  let taken := fst (_execute_strategy o s url proxy options) in
  if Qle_bool taken (timeout s) then taken else timeout s.

Definition total_time (o : oracle) (url : pyval) (proxy : option string)
    (options : dict) (l : list strategy) : Q :=
  fold_right (fun s acc => (time_spent o url proxy options s + acc)%Q) 0%Q l.

(** The error of the last attempt that raised or timed out. *)
Definition last_error_after (o : oracle) (url : pyval) (proxy : option string)
    (options : dict) (chain : list strategy) (before : option string)
  : option string :=
  fold_left (fun acc s => match attempt o url proxy options s with
                          | Failed e => Some e
                          | _ => acc
                          end) chain before.

(** The enabled strategies in the order [parse_video] walks them. *)
Definition chain_of (self : t) : list strategy :=
  filter (fun s => enabled s = true) (map strat (_sort_strategies_by_weight self)).

(** The proxy [parse_video] hands to the handlers. *)
Definition proxy_for (o : oracle) (options : dict) (g : globals) : option string :=
  if truthy (get options "use_proxy" (PBool false))
  then fst (ProxyManager.get_proxy (generator o) (proxy_manager g) None
              (clock g) (clock g))
  else None.

(** [parse_video] answers from the cache. *)
Definition cache_hit (o : oracle) (url : pyval) (options : dict) (g : globals)
  : bool :=
  match fst (CacheManager.get (md5 o) (redis_up o) (clock g) (cache_manager g) url) with
  | Some v => truthy v && negb (truthy (get options "force_refresh" (PBool false)))
  | None => false
  end.

(** The walk of a chain: the strategies in [attempted] were tried, in this
    order and one after the other; either the last of them is the first
    strategy of the chain with an accepted result, which is returned, or
    the whole chain was tried without one and the exception reports the
    last error. *)
Definition walk (o : oracle) (url : pyval) (proxy : option string)
    (options : dict) (chain : list strategy) (before : option string)
    (attempted : list strategy) (r : string + pyval) : Prop :=
  (exists pre s rest result,
      chain = (pre ++ s :: rest)%list /\ attempted = (pre ++ [s])%list
      /\ Forall (rejected o url proxy options) pre
      /\ attempt o url proxy options s = Accepted result
      /\ r = inr (PDict result))
  \/ (attempted = chain
      /\ Forall (rejected o url proxy options) chain
      /\ r = inl ("All strategies failed. Last error: "
                  ++ fmt_error (last_error_after o url proxy options chain before))).

(** One call of [parse_video] walks the chain of its service. *)
Definition walks_chain (o : oracle) (url : pyval) (options : dict)
    (self : t) (g : globals) : Prop :=
  let out := parse_video o url options self g in
  let proxy := proxy_for o options g in
  exists attempted,
    walk o url proxy options (chain_of self) None attempted out.1.1
    /\ tried (logger out.2) = (tried (logger g) ++ map name attempted)%list
    /\ (clock out.2 == clock g + total_time o url proxy options attempted)%Q
    /\ Forall (fun s => (time_spent o url proxy options s <= timeout s)%Q) attempted.

(** A proxy is currently blocked at time [now]: its flag is set and its
    [block_until] lies in the future. *)
Definition currently_blocked (st : ProxyManager.proxy_stat) (now : Q) : Prop :=
  ProxyManager.blocked st = true /\ (now < ProxyManager.block_until st)%Q.

(** The directory and the file [download_video] writes to, for a record
    that takes the video branch: non-empty, with a title and an author
    that are strings, not an image post, and with a truthy video_url. *)
Definition video_target (repr : pyval -> string) (self : Downloader.t)
    (video_info : dict) (save_dir : option string) : option (string * string) :=
  if truthy (PDict video_info) then
    let dir := match save_dir with
               | Some d => d
               | None => Downloader.download_dir self
               end in
    let video_id := get video_info "video_id" (PStr "unknown") in
    title ← Downloader._sanitize_filename (get video_info "title" video_id);
    author ← Downloader._sanitize_filename (get video_info "author" (PStr "unknown"));
    if truthy (get video_info "is_image" PNone) then None
    else if truthy (get video_info "video_url" PNone)
    then Some (dir, Downloader.join dir
                      ((author ++ "_" ++ title ++ "_" ++ str repr video_id)
                       ++ ".mp4"))
    else None
  else None.

(** *** What a regular-expression search finds *)

Fixpoint digits_only (s : string) : bool :=
  match s with
  | EmptyString => true
  | String c r => Re.is_digit c && digits_only r
  end.

Definition starts_with_digit (s : string) : bool :=
  match s with
  | EmptyString => false
  | String c _ => Re.is_digit c
  end.

Definition capped (cap : option nat) (n : nat) : Prop :=
  match cap with
  | Some h => (n <= h)%nat
  | None => True
  end.

(** The pattern matches [s] right after [pre], with group 1 equal to [d]:
    the literal, then a run of digits that is as long as the bounds and
    the text allow. *)
Definition match_at (p : Re.pattern) (s pre d : string) : Prop :=
  exists rest,
    s = pre ++ Re.lit p ++ d ++ rest
    /\ digits_only d = true
    /\ (Re.lo p <= String.length d)%nat
    /\ capped (Re.hi p) (String.length d)
    /\ (Re.hi p = Some (String.length d) \/ starts_with_digit rest = false).

(** [d] is group 1 of the leftmost match of the pattern in [s]. *)
Definition found (p : Re.pattern) (s d : string) : Prop :=
  exists pre,
    match_at p s pre d
    /\ forall pre' d', (String.length pre' < String.length pre)%nat ->
                       ~ match_at p s pre' d'.

(** The pattern matches nowhere in [s]. *)
Definition absent (p : Re.pattern) (s : string) : Prop :=
  forall pre d, ~ match_at p s pre d.

(** The fetcher returned data that [warmup] counts. *)
Definition fetched_data (fetcher_func : pyval -> Q * option pyval) (url : pyval)
  : bool :=
  match (fetcher_func url).2 with
  | Some data => truthy data
  | None => false
  end.

(** What a call of the downloader may have done to the counters other
    than 'total', given what it returned. *)
Inductive counted (self : Downloader.t) : option bool -> Downloader.t -> Prop :=
| counted_nothing r : r <> Some true -> counted self r self
| counted_success : counted self (Some true) (Downloader.bump "success" self)
| counted_skipped : counted self (Some true) (Downloader.bump "skipped" self)
| counted_failed : counted self (Some false) (Downloader.bump "failed" self).

(** The proxy table [m'] holds the same success and failure counts as
    [m], and blocks no proxy that [m] does not block. *)
Definition same_record (m m' : gmap string ProxyManager.proxy_stat) : Prop :=
  forall p,
    let before := ProxyManager.stats_of m p in
    let after := ProxyManager.stats_of m' p in
    ProxyManager.success after = ProxyManager.success before
    /\ ProxyManager.failure after = ProxyManager.failure before
    /\ (ProxyManager.blocked after = true -> ProxyManager.blocked before = true).

(** *** What a regular-expression search finds in a [str] *)

Definition starts_decimal (decimal : N -> bool) (s : list N) : bool :=
  match s with
  | [] => false
  | c :: _ => decimal c
  end.

(** The pattern matches [s] right after [pre], with group 1 equal to [d]:
    the literal, then a run of decimal digits that is as long as the
    bounds and the text allow. *)
Definition umatch_at (decimal : N -> bool) (p : Re.pattern)
    (s pre d : list N) : Prop :=
  exists rest,
    s = (pre ++ Unicode.of_string (Re.lit p) ++ d ++ rest)%list
    /\ forallb decimal d = true
    /\ (Re.lo p <= length d)%nat
    /\ capped (Re.hi p) (length d)
    /\ (Re.hi p = Some (length d) \/ starts_decimal decimal rest = false).

(** [d] is group 1 of the leftmost match of the pattern in [s]. *)
Definition ufound (decimal : N -> bool) (p : Re.pattern) (s d : list N)
  : Prop :=
  exists pre,
    umatch_at decimal p s pre d
    /\ forall pre' d', (length pre' < length pre)%nat ->
                       ~ umatch_at decimal p s pre' d'.

(** The pattern matches nowhere in [s]. *)
Definition uabsent (decimal : N -> bool) (p : Re.pattern) (s : list N)
  : Prop :=
  forall pre d, ~ umatch_at decimal p s pre d.

(** [\d] on the code points below 256: the ten ASCII digits. *)
Definition latin_decimal (decimal : N -> bool) : Prop :=
  forall c, (c < 256)%N -> decimal c = ((48 <=? c) && (c <=? 57))%N.

End Props.

(** ** Concrete worlds used in the examples *)

Module Examples.
Import Py ParsingService.

Definition url0 : pyval := PStr "https://www.douyin.com/video/7123456789012345678".

Definition record0 : dict :=
  <["video_id" := PStr "7123456789012345678"]>
    (<["title" := PStr "clip"]> (<["author" := PStr "someone"]> ∅)).

Definition generator0 : ProxyManager.rng :=
  {| ProxyManager.randbelow := fun _ => 0%nat; ProxyManager.random := 0 |}.

(** A world in which every handler raises. *)
Definition oracle_down : oracle :=
  {| md5 := fun s => s; redis_up := true; generator := generator0;
     handler_parse := fun _ _ _ => (1%Q, Raises "blocked") |}.

(** A world in which every handler answers [record0] after two seconds. *)
Definition oracle_up : oracle :=
  {| md5 := fun s => s; redis_up := true; generator := generator0;
     handler_parse := fun _ _ _ => (2%Q, Returns (Some record0)) |}.

Definition service0 : t := __init__ ∅.

Definition globals0 : globals :=
  {| cache_manager := CacheManager.__init__ ∅;
     proxy_manager := ProxyManager.__init__ [];
     metrics_collector := [];
     logger := [];
     clock := 1000 |}.

(** [globals0] ten seconds after [record0] was cached for [url0]. *)
Definition globals_cached : globals :=
  {| cache_manager :=
       snd (CacheManager.set (fun s => s) true 1000 (CacheManager.__init__ ∅)
              url0 (PDict record0) (Some 3600%Z));
     proxy_manager := ProxyManager.__init__ [];
     metrics_collector := [];
     logger := [];
     clock := 1010 |}.

Definition proxy0 : string := "http://10.0.0.7:8080".

(** A manager whose only proxy has failed twice. *)
Definition proxies_failing : ProxyManager.t :=
  ProxyManager.mark_failure
    (ProxyManager.mark_failure (ProxyManager.__init__ [proxy0]) proxy0 300 100)
    proxy0 300 101.

(** A clip whose download breaks after two chunks. *)
Definition clip0 : dict :=
  <["video_url" := PStr "https://cdn.example/clip.mp4"]> record0.

Definition session_broken (u : string) : Downloader.http_result :=
  Downloader.GetResponse 200 (Some (Some 4096%Z)) ["abc"; "def"] Downloader.Broken.

Definition downloader0 : Downloader.t :=
  {| Downloader.stats :=
       <["total" := 0%Z]> (<["success" := 0%Z]>
         (<["failed" := 0%Z]> (<["skipped" := 0%Z]> ∅)));
     Downloader.download_dir := "downloads" |}.

Definition disk0 : Downloader.filesystem :=
  {| Downloader.files := ∅; Downloader.dirs := ∅; Downloader.refused := ∅ |}.

Definition short_link0 : string := "https://v.douyin.com/iRNBho6u/".

(** A server answering the short link with a redirect to a share page. *)
Definition redirect0 (rq : WebParser.request) : WebParser.http_result :=
  WebParser.HttpResponse 302
    (<["location" :=
         "https://www.iesdouyin.com/share/video/7123456789012345678/?region=CN"]> ∅).

End Examples.

(** ** cache_manager.py: the remaining operations *)

Module CacheManagerExt.
Import Py CacheManager.

(** [self.redis.exists(cache_key)] at clock reading [now]: an expired key
    is gone. *)
Definition redis_exists (self : t) (cache_key : string) (now : Q) : bool :=
  match redis_get self cache_key now with
  | Some _ => true
  | None => false
  end.

(** [exists]: every exception ends in [return False]. *)
Definition exists_ (md5 : string -> string) (up : bool) (now : Q)
    (self : t) (key : pyval) : bool :=
  match _make_key md5 self key with
  | None => false
  | Some cache_key => up && redis_exists self cache_key now
  end.

(** [delete]: [self.redis.delete] answers the number of keys removed. *)
Definition delete (md5 : string -> string) (up : bool) (now : Q)
    (self : t) (key : pyval) : bool * t :=
  match _make_key md5 self key with
  | None => (false, self)
  | Some cache_key =>
      if up then
        if redis_exists self cache_key now then
          (true,
           bump "deletes"
             {| redis := base.delete cache_key (redis self);
                prefix := prefix self;
                default_ttl := default_ttl self;
                stats := stats self |})
        else (false, self)
      else (false, self)
  end.

(** The loop of [warmup].  [fetcher_func url] takes some time and returns
    data or raises ([None]); the result lists, next to the count, the URLs
    the fetcher was called with. *)
Fixpoint warmup (md5 : string -> string) (up : bool)
    (fetcher_func : pyval -> Q * option pyval) (now : Q)
    (self : t) (urls : list pyval) : nat * list pyval * t :=
  match urls with
  | [] => (0%nat, [], self)
  | url :: rest =>
      if exists_ md5 up now self url
      then warmup md5 up fetcher_func now self rest
      else
        let '(taken, fetched) := fetcher_func url in
        let now := (now + taken)%Q in
        match fetched with
        | Some data =>
            if truthy data then
              let '(_, self) := set md5 up now self url data None in
              let '(n, calls, self) := warmup md5 up fetcher_func now self rest in
              (S n, url :: calls, self)
            else
              let '(n, calls, self) := warmup md5 up fetcher_func now self rest in
              (n, url :: calls, self)
        | None =>
            let '(n, calls, self) := warmup md5 up fetcher_func now self rest in
            (n, url :: calls, self)
        end
  end.

End CacheManagerExt.

(** ** proxy_manager.py: maintaining the proxy list *)

Module ProxyManagerExt.
Import ProxyManager.

Definition with_proxies (self : t) (l : list string) : t :=
  {| proxies := l; proxy_stats := proxy_stats self;
     rotation_strategy := rotation_strategy self;
     current_index := current_index self |}.

Definition add_proxy (self : t) (proxy : string) : t :=
  if bool_decide (proxy ∈ proxies self) then self
  else with_proxies self (proxies self ++ [proxy])%list.

(** [list.remove(x)]: drops the first occurrence. *)
Fixpoint list_remove (x : string) (l : list string) : list string :=
  match l with
  | [] => []
  | y :: r => if String.eqb y x then r else y :: list_remove x r
  end.

Definition remove_proxy (self : t) (proxy : string) : t :=
  if bool_decide (proxy ∈ proxies self)
  then with_proxies self (list_remove proxy (proxies self))
  else self.

(** [load_from_file]: [lines] is what iterating over the open file yields,
    [None] when it cannot be opened. *)
Definition load_line (self : t) (line : string) : t :=
  let line := Downloader.strip line in
  if negb (String.eqb line "") && negb (String.prefix "#" line)
  then add_proxy self line
  else self.

Definition load_from_file (self : t) (lines : option (list string)) : t :=
  match lines with
  | Some ls => fold_left load_line ls self
  | None => self
  end.

End ProxyManagerExt.

(** ** app.py: the /parse route *)

Module Routes.
Import Py ParsingService.

(** [parse_video] of the route: [data] is [request.json]. *)
Definition parse_route (o : oracle) (data : pyval) (self : t) (g : globals)
  : response * t * globals :=
  match data with
  | PDict data =>
      let url := get data "url" PNone in
      if negb (truthy url)
      then ({| status := 400; json := error_body "URL is required" |}, self, g)
      else
        let options : dict :=
          <["use_proxy" := get data "use_proxy" (PBool false)]>
            (<["force_refresh" := get data "force_refresh" (PBool false)]>
               (<["cookies" := get data "cookies" PNone]>
                  (<["headers" := get data "headers" PNone]> ∅))) in
        match parse_video o url options self g with
        | (inr result, self, g) =>
            ({| status := 200;
                json := PDict (<["success" := PBool true]>
                                 (<["data" := result]> ∅)) |}, self, g)
        | (inl e, self, g) =>
            ({| status := 500; json := failure_body e |}, self, g)
        end
  | _ =>
      ({| status := 500;
          json := failure_body ("'" ++ type_name data
                                ++ "' object has no attribute 'get'") |},
       self, g)
  end.

End Routes.

(** ** downloader_v3.py: talking to the parsing service *)

Module DownloaderExt.
Import Py Downloader.

(** The entries of [self.config] that the methods read. *)
Record config := {
  max_retries : Z;
  timeout : Z;
  chunk_size : Z;
  max_workers : Z;
  use_proxy : bool;
  force_refresh : bool
}.

(** What [self.session.post(url, json=data, ...)] ends in; the body is
    [response.json()], [None] when that raises. *)
Inductive post_result :=
| PostRaises
| PostResponse (status_code : Z) (body : option pyval).

(** [parse_video] of the downloader: [PNone] is [return None]. *)
Definition parse_video (post : string -> dict -> post_result)
    (parsing_service_url : string) (cfg : config)
    (url : pyval) (cookies : pyval) : pyval :=
  let data : dict :=
    <["url" := url]>
      (<["use_proxy" := PBool (use_proxy cfg)]>
         (<["force_refresh" := PBool (force_refresh cfg)]> ∅)) in
  let data := if truthy cookies then <["cookies" := cookies]> data else data in
  match post (parsing_service_url ++ "/parse") data with
  | PostResponse status_code (Some (PDict result)) =>
      if (status_code =? 200)%Z then
        if truthy (get result "success" PNone)
        then get result "data" PNone
        else PNone
      else PNone
  | PostResponse status_code _ => PNone
  | PostRaises => PNone
  end.

(** [download_from_url]: the outer [None] is an exception that escapes.
    A truthy answer that is no dict gets as far as [save_dir.mkdir] in
    [download_video] and raises at [video_info.get]. *)
Definition download_from_url (repr : pyval -> string)
    (post : string -> dict -> post_result)
    (session_get : string -> http_result)
    (parsing_service_url : string) (cfg : config)
    (self : t) (fs : filesystem) (url : pyval) (cookies : pyval)
  : option bool * t * filesystem :=
  let self := bump "total" self in
  let video_info := parse_video post parsing_service_url cfg url cookies in
  if negb (truthy video_info) then (Some false, bump "failed" self, fs)
  else
    match video_info with
    | PDict video_info => download_video repr session_get self fs video_info None
    | _ => (None, self, mkdir fs (download_dir self))
    end.

(** [self.stats[k]] *)
Definition stat (self : t) (k : string) : Z := default 0%Z (stats self !! k).

End DownloaderExt.

(** ** A downloader in front of the service *)

Module ExamplesExt.
Import Py ParsingService DownloaderExt.

(** [self.config] as [__init__] sets it. *)
Definition config0 : config :=
  {| max_retries := 3; timeout := 30; chunk_size := 8192; max_workers := 5;
     use_proxy := false; force_refresh := false |}.

(** A POST that is answered by the /parse route of a service in the
    state [Examples.globals_cached]. *)
Definition post_cached (endpoint : string) (data : dict) : post_result :=
  let resp := (Routes.parse_route Examples.oracle_down (PDict data)
                 Examples.service0 Examples.globals_cached).1.1 in
  PostResponse (status resp) (Some (json resp)).

(** A class of decimal digits: the ASCII digits and the Arabic-Indic
    ones. *)
Definition decimal0 (c : N) : bool :=
  ((48 <=? c) && (c <=? 57) || (1632 <=? c) && (c <=? 1641))%N.

(** A video link whose id is written with Arabic-Indic digits. *)
Definition url_arabic : list N :=
  (Unicode.of_string "https://www.douyin.com/video/" ++ [1633; 1634; 1635]%N)%list.

(** A title of sixty CJK characters between ideographic spaces. *)
Definition title_cjk : list N :=
  ([12288] ++ repeat 25243%N 60 ++ [12288])%N%list.

End ExamplesExt.

(** * Theorems *)

(** ** Rounding *)

Section Rounding.
Import Float.

Local Open Scope Q_scope.

Lemma pow2_pos k : 0 < pow2 k.
Proof. apply Qpower_0_lt. reflexivity. Qed.

Lemma pow2_add a b : pow2 (a + b) == pow2 a * pow2 b.
Proof. apply Qpower_plus. discriminate. Qed.

Lemma pow2_le a b : (a <= b)%Z -> pow2 a <= pow2 b.
Proof. intros H. apply Qpower_le_compat_l; [exact H|discriminate]. Qed.

Lemma pow2_lt_inv a b : pow2 a < pow2 b -> (a < b)%Z.
Proof. intros H. apply (Qpower_lt_compat_l_inv 2); [exact H|reflexivity]. Qed.

Lemma pow2_Z k : (0 <= k)%Z -> pow2 k == inject_Z (2 ^ k).
Proof. intros H. unfold pow2. now rewrite Zpower_Qpower. Qed.

Lemma ilog2_spec q : 0 < q -> pow2 (ilog2 q) <= q /\ q < pow2 (ilog2 q + 1).
Proof.
  intros Hq. unfold ilog2.
  destruct q as [n d]. cbn [Qnum Qden].
  assert (Hn : (0 < n)%Z) by (unfold Qlt in Hq; cbn in Hq; lia).
  set (a := Z.log2 n). set (b := Z.log2 (Z.pos d)).
  assert (Ha : (0 <= a)%Z) by apply Z.log2_nonneg.
  assert (Hb : (0 <= b)%Z) by apply Z.log2_nonneg.
  destruct (Z.log2_spec n Hn) as [Ha1 Ha2]. fold a in Ha1, Ha2.
  destruct (Z.log2_spec (Z.pos d) eq_refl) as [Hb1 Hb2]. fold b in Hb1, Hb2.
  assert (Hq1 : n # d == inject_Z n / inject_Z (Z.pos d)) by apply Qmake_Qdiv.
  assert (Hd : 0 < inject_Z (Z.pos d)) by reflexivity.
  assert (Hlow : pow2 (a - b - 1) <= n # d).
  { rewrite Hq1. apply Qle_shift_div_l; [exact Hd|].
    assert (E : pow2 (a - b - 1) * pow2 (b + 1) == pow2 a).
    { rewrite <- pow2_add. now replace (a - b - 1 + (b + 1))%Z with a by ring. }
    apply Qle_trans with (pow2 (a - b - 1) * pow2 (b + 1)).
    - apply Qmult_le_l; [apply pow2_pos|].
      rewrite pow2_Z by lia. rewrite <- Zle_Qle. lia.
    - rewrite E, pow2_Z by lia. rewrite <- Zle_Qle. exact Ha1. }
  assert (Hhigh : n # d < pow2 (a - b + 1)).
  { rewrite Hq1. apply Qlt_shift_div_r; [exact Hd|].
    assert (E : pow2 (a - b + 1) * pow2 b == pow2 (a + 1)).
    { rewrite <- pow2_add. now replace (a - b + 1 + b)%Z with (a + 1)%Z by ring. }
    apply Qlt_le_trans with (pow2 (a + 1)).
    - rewrite pow2_Z by lia. rewrite <- Zlt_Qlt.
      replace (a + 1)%Z with (Z.succ a) by lia. exact Ha2.
    - rewrite <- E. apply Qmult_le_l; [apply pow2_pos|].
      rewrite pow2_Z by lia. rewrite <- Zle_Qle. exact Hb1. }
  destruct (Qle_bool (pow2 (a - b)) (n # d)) eqn:E.
  - apply Qle_bool_iff in E. split; [exact E|exact Hhigh].
  - split; [exact Hlow|].
    replace (a - b - 1 + 1)%Z with (a - b)%Z by ring.
    apply Qnot_le_lt. intros H. apply Qle_bool_iff in H. congruence.
Qed.

Lemma ilog2_le a b : 0 < a -> a <= b -> (ilog2 a <= ilog2 b)%Z.
Proof.
  intros Ha Hab.
  destruct (ilog2_spec a Ha) as [H1 _].
  destruct (ilog2_spec b (Qlt_le_trans _ _ _ Ha Hab)) as [_ H2].
  assert (H : pow2 (ilog2 a) < pow2 (ilog2 b + 1)).
  { eapply Qle_lt_trans; [exact H1|]. eapply Qle_lt_trans; [exact Hab|exact H2]. }
  apply pow2_lt_inv in H. lia.
Qed.

Lemma rne_floor q : (Qfloor q <= rne q <= Qfloor q + 1)%Z.
Proof.
  unfold rne. destruct (_ ?= _); [destruct (Z.even _)| |]; lia.
Qed.

Lemma rne_Z z : rne (inject_Z z) = z.
Proof.
  unfold rne. rewrite Qfloor_Z.
  assert (E : inject_Z z - inject_Z z == 0) by ring.
  assert (C : (inject_Z z - inject_Z z ?= 1 # 2) = Lt).
  { rewrite <- Qlt_alt. rewrite E. reflexivity. }
  now rewrite C.
Qed.

Lemma rne_le a b : a <= b -> (rne a <= rne b)%Z.
Proof.
  intros Hab. pose proof (Qfloor_resp_le _ _ Hab) as Hf.
  pose proof (rne_floor a) as Ha. pose proof (rne_floor b) as Hb.
  destruct (Z.eq_dec (Qfloor a) (Qfloor b)) as [E|NE]; [|lia].
  unfold rne in *. rewrite <- E in *.
  destruct (a - inject_Z (Qfloor a) ?= 1 # 2) eqn:Ca;
    destruct (b - inject_Z (Qfloor a) ?= 1 # 2) eqn:Cb;
    try lia; try (destruct (Z.even (Qfloor a)); lia).
  - (* Eq, Lt *) exfalso. apply Qeq_alt in Ca. apply Qlt_alt in Cb. lra.
  - (* Gt, Eq *) exfalso. apply Qgt_alt in Ca. apply Qeq_alt in Cb. lra.
  - (* Gt, Lt *) exfalso. apply Qgt_alt in Ca. apply Qlt_alt in Cb. lra.
Qed.

Lemma round_pos_form q :
  0 < q ->
  let u := pow2 (Z.max (ilog2 q) (-1022) - 52) in
  round q == inject_Z (rne (q / u)) * u.
Proof.
  intros Hq u. unfold round.
  destruct (Qeq_bool q 0) eqn:E.
  { apply Qeq_bool_iff in E. rewrite E in Hq. discriminate Hq. }
  assert (Ha : Qabs q = q).
  { destruct q as [n d]. unfold Qlt in Hq. cbn in Hq.
    unfold Qabs. f_equal. lia. }
  rewrite Ha. fold u. rewrite Qred_correct.
  destruct (Qlt_le_dec q 0) as [Hneg|_]; [|reflexivity].
  exfalso. apply (Qlt_irrefl 0). now apply Qlt_trans with q.
Qed.

Lemma round_0 q : q == 0 -> round q = 0.
Proof.
  intros H. unfold round.
  destruct (Qeq_bool q 0) eqn:E; [reflexivity|].
  apply Qeq_bool_neq in E. contradiction.
Qed.

Lemma round_nonneg q : 0 <= q -> 0 <= round q.
Proof.
  intros Hq. destruct (Qeq_dec q 0) as [E|NE].
  { rewrite (round_0 q E). apply Qle_refl. }
  assert (Hpos : 0 < q).
  { apply Qle_lteq in Hq as [H|H]; [exact H|]. symmetry in H. contradiction. }
  rewrite (round_pos_form q Hpos).
  set (u := pow2 _). pose proof (pow2_pos (Z.max (ilog2 q) (-1022) - 52)) as Hu.
  fold u in Hu.
  apply Qmult_le_0_compat; [|apply Qlt_le_weak, Hu].
  change 0 with (inject_Z 0). rewrite <- Zle_Qle.
  pose proof (rne_floor (q / u)) as [Hf _].
  assert (0 <= Qfloor (q / u))%Z; [|lia].
  change 0%Z with (Qfloor 0). apply Qfloor_resp_le.
  apply Qle_shift_div_l; [exact Hu|]. rewrite Qmult_0_l. exact Hq.
Qed.

(** Rounding is monotone (on the non-negative numbers). *)
Lemma round_le a b : 0 <= a -> a <= b -> round a <= round b.
Proof.
  intros Ha Hab. destruct (Qeq_dec a 0) as [E|NE].
  { rewrite (round_0 a E). apply round_nonneg. now apply Qle_trans with a. }
  assert (Hpa : 0 < a).
  { apply Qle_lteq in Ha as [H|H]; [exact H|]. symmetry in H. contradiction. }
  assert (Hpb : 0 < b) by now apply Qlt_le_trans with a.
  rewrite (round_pos_form a Hpa), (round_pos_form b Hpb).
  pose proof (ilog2_le a b Hpa Hab) as He.
  set (ea := Z.max (ilog2 a) (-1022)). set (eb := Z.max (ilog2 b) (-1022)).
  assert (Hea : (ea <= eb)%Z) by (unfold ea, eb; lia).
  pose proof (pow2_pos (ea - 52)) as Hua. pose proof (pow2_pos (eb - 52)) as Hub.
  destruct (Z.eq_dec ea eb) as [Eq|Ne].
  - rewrite <- Eq. apply Qmult_le_compat_r; [|apply Qlt_le_weak, Hua].
    rewrite <- Zle_Qle. apply rne_le.
    apply Qmult_le_compat_r; [exact Hab|].
    apply Qlt_le_weak, Qinv_lt_0_compat, Hua.
  - assert (Hlt : (ea < eb)%Z) by lia.
    assert (Hb1 : eb = ilog2 b) by (unfold ea, eb in *; lia).
    destruct (ilog2_spec a Hpa) as [_ Ha2].
    destruct (ilog2_spec b Hpb) as [Hb2 _].
    (* round a <= 2^(ea+1) <= 2^eb <= round b *)
    apply Qle_trans with (pow2 (ea + 1)).
    + assert (E53 : pow2 (ea + 1) == inject_Z (2 ^ 53) * pow2 (ea - 52)).
      { rewrite <- (pow2_Z 53) by lia. rewrite <- pow2_add.
        now replace (53 + (ea - 52))%Z with (ea + 1)%Z by ring. }
      rewrite E53. apply Qmult_le_compat_r; [|apply Qlt_le_weak, Hua].
      rewrite <- Zle_Qle.
      rewrite <- (rne_Z (2 ^ 53)). apply rne_le.
      apply Qle_shift_div_r; [exact Hua|]. rewrite <- E53.
      apply Qlt_le_weak. eapply Qlt_le_trans; [exact Ha2|].
      apply pow2_le. unfold ea. lia.
    + apply Qle_trans with (pow2 eb); [apply pow2_le; lia|].
      assert (E52 : pow2 eb == inject_Z (2 ^ 52) * pow2 (eb - 52)).
      { rewrite <- (pow2_Z 52) by lia. rewrite <- pow2_add.
        now replace (52 + (eb - 52))%Z with eb by ring. }
      rewrite E52 at 1. apply Qmult_le_compat_r; [|apply Qlt_le_weak, Hub].
      rewrite <- Zle_Qle.
      rewrite <- (rne_Z (2 ^ 52)). apply rne_le.
      apply Qle_shift_div_l; [exact Hub|]. rewrite <- E52, Hb1. exact Hb2.
Qed.

End Rounding.

Section Bookkeeping.
Import ParsingService Props.

Lemma py_max_nonneg (q : Q) : (0 <= Py.max 0 q)%Q.
Proof. unfold Py.max. destruct (Qlt_le_dec 0 q); lra. Qed.

Lemma record_nonneg self c : counts_nonneg self -> counts_nonneg (record self c).
Proof.
  intros Hinv n f. destruct c as [m|m]; simpl.
  - destruct (failure_counts self !! m) as [g|] eqn:Hm; [|apply Hinv].
    rewrite lookup_insert. case_decide; [|apply Hinv].
    intros [= <-]. apply py_max_nonneg.
  - rewrite lookup_insert. case_decide; [|apply Hinv].
    intros [= <-]. unfold failure_count.
    destruct (failure_counts self !! m) as [g|] eqn:Hm; simpl.
    + specialize (Hinv _ _ Hm). lra.
    + lra.
Qed.

Lemma records_nonneg cs : forall self,
  counts_nonneg self -> counts_nonneg (records self cs).
Proof.
  induction cs as [|c cs IH]; intros self H; [exact H|].
  apply IH, record_nonneg, H.
Qed.

Lemma init_nonneg env : counts_nonneg (__init__ env).
Proof. intros n f. simpl. rewrite lookup_empty. discriminate. Qed.

Lemma success_count_record self c n :
  success_count (record self c) n
  = (success_count self n + if is_success_of n c then 1 else 0)%Z.
Proof.
  destruct c as [m|m]; simpl; unfold success_count; simpl.
  - rewrite lookup_insert.
    case_bool_decide; case_decide; subst; simpl; unfold success_count;
      try congruence; lia.
  - lia.
Qed.

Lemma success_count_records cs : forall self n,
  success_count (records self cs) n
  = (success_count self n + Z.of_nat (length (filter (is_success_of n) cs)))%Z.
Proof.
  induction cs as [|c cs IH]; intros self n; [simpl; lia|].
  change (records self (c :: cs)) with (records (record self c) cs).
  rewrite IH, success_count_record, filter_cons.
  destruct (is_success_of n c); simpl length; lia.
Qed.

End Bookkeeping.

(** ** Success and failure bookkeeping *)

Section History.
Import ParsingService Props.

Lemma records_snoc self cs c :
  records self (cs ++ [c]) = record (records self cs) c.
Proof. unfold records. now rewrite fold_left_app. Qed.

Lemma record_strategies self c :
  strategies (record self c) = strategies self
  /\ strategy_weights (record self c) = strategy_weights self.
Proof. destruct c; simpl; auto. Qed.

Lemma records_strategies cs : forall self,
  strategies (records self cs) = strategies self
  /\ strategy_weights (records self cs) = strategy_weights self.
Proof.
  induction cs as [|c cs IH]; intros self; [auto|].
  change (records self (c :: cs)) with (records (record self c) cs).
  destruct (IH (record self c)) as [-> ->]. apply record_strategies.
Qed.

Lemma history_inv_records env cs n :
  history_inv (records (__init__ env) cs) cs n.
Proof.
  induction cs as [|c cs IH] using rev_ind.
  - unfold history_inv, success_count, failure_count, mentions; simpl.
    rewrite !lookup_empty; simpl. repeat split; try lia; try lra.
    intros H. inversion H.
  - rewrite records_snoc. set (self := records (__init__ env) cs) in *.
    destruct IH as (Hs & Hf & Hyes & Hno).
    assert (Hm : mentions n (cs ++ [c]) <-> mentions n cs \/ call_name c = n).
    { unfold mentions. rewrite Exists_app, Exists_cons, Exists_nil. tauto. }
    assert (Hnn : counts_nonneg self)
      by (apply records_nonneg, init_nonneg).
    assert (Hother : forall m, m <> n ->
              match failure_counts self !! m with
              | Some f => <[m := Py.max 0 (f - (1 # 2))]> (failure_counts self)
              | None => failure_counts self
              end !! n = failure_counts self !! n).
    { intros m Hne. destruct (failure_counts self !! m); [|done].
      now rewrite lookup_insert_ne. }
    destruct c as [m|m]; simpl in Hm;
      unfold history_inv, success_count, failure_count; simpl;
      destruct (decide (m = n)) as [->|Hne].
    + (* a success of [n] *)
      rewrite lookup_insert_eq; simpl. fold (success_count self n).
      split; [lia|]. split.
      { destruct (failure_counts self !! n) as [f|] eqn:E.
        - rewrite lookup_insert_eq; simpl. apply py_max_nonneg.
        - rewrite E; simpl. lra. }
      split; [intros _; left; lia|].
      intros H. exfalso. apply H, Hm. now right.
    + (* a success of another strategy *)
      rewrite lookup_insert_ne by done. rewrite (Hother m Hne).
      fold (success_count self n). fold (failure_count self n).
      split; [exact Hs|]. split; [exact Hf|]. split.
      * intros H. apply Hyes. apply Hm in H. tauto.
      * intros H. apply Hno. intros H'. apply H, Hm. tauto.
    + (* a failure of [n] *)
      rewrite lookup_insert_eq; simpl.
      fold (success_count self n). fold (failure_count self n).
      split; [exact Hs|]. split; [lra|]. split; [intros _; right; lra|].
      intros H. exfalso. apply H, Hm. now right.
    + (* a failure of another strategy *)
      rewrite lookup_insert_ne by done.
      fold (success_count self n). fold (failure_count self n).
      split; [exact Hs|]. split; [exact Hf|]. split.
      * intros H. apply Hyes. apply Hm in H. tauto.
      * intros H. apply Hno. intros H'. apply H, Hm. tauto.
Qed.

End History.

Section Reach.
Import Py ParsingService Props.

Lemma try_strategies_records o url proxy options start : forall l last_error self g,
  exists cs,
    (try_strategies o url proxy options start l last_error self g).1.2
    = records self cs.
Proof.
  induction l as [|s l IH]; intros last_error self g.
  - exists []. reflexivity.
  - cbn [try_strategies].
    destruct (enabled (strat s)); cbn [negb]; [|apply IH].
    destruct (_execute_strategy o (strat s) url proxy options) as [taken out].
    assert (Hfail : forall last' g',
      exists cs,
        (try_strategies o url proxy options start l last'
           (_record_failure self (name (strat s))) g').1.2 = records self cs).
    { intros last' g'.
      destruct (IH last' (_record_failure self (name (strat s))) g') as [cs Hcs].
      exists (RecordFailure (name (strat s)) :: cs). exact Hcs. }
    destruct (Qle_bool taken (timeout (strat s))); [|apply Hfail].
    destruct out as [|e|[result|]]; try apply Hfail; try apply IH.
    destruct (truthy (PDict result) && _validate_result result); [|apply IH].
    destruct (CacheManager.set _ _ _ _ _ _ _) as [ok c].
    exists [RecordSuccess (name (strat s))]. reflexivity.
Qed.

Lemma parse_video_records o url options self g :
  exists cs, (parse_video o url options self g).1.2 = records self cs.
Proof.
  unfold parse_video.
  destruct (CacheManager.get _ _ _ _ _) as [cached c].
  assert (Hbody : forall g1,
    exists cs,
      (let '(proxy, g2) :=
         if truthy (get options "use_proxy" (PBool false))
         then let '(p, pm) := ProxyManager.get_proxy (generator o)
                                (proxy_manager g1) None (clock g1) (clock g1) in
              (p, with_proxies g1 pm)
         else (None, g1) in
       try_strategies o url proxy options (clock g)
         (_sort_strategies_by_weight self) None self g2).1.2 = records self cs).
  { intros g1. destruct (truthy (get options "use_proxy" (PBool false))).
    - destruct (ProxyManager.get_proxy _ _ _ _ _) as [p pm].
      apply try_strategies_records.
    - apply try_strategies_records. }
  destruct cached as [v|]; [|apply Hbody].
  destruct (truthy v && _); [|apply Hbody].
  exists []. reflexivity.
Qed.

End Reach.

(** C10: every entry of [failure_counts] is non-negative after any sequence
    of [_record_success] and [_record_failure] calls on a fresh service;
    [_record_failure] adds 1 to the failure count of its strategy,
    [_record_success] takes one half off a recorded failure count but never
    below 0 (and leaves an absent entry absent), and the success count of a
    strategy is the number of [_record_success] calls made for it.  A call
    of [parse_video] changes the counters only through such calls. *)
Theorem failure_counts_never_negative
    (env : gmap string string) (cs : list ParsingService.record_call)
    (n : string) :
  let self := ParsingService.records (ParsingService.__init__ env) cs in
  (forall m f, ParsingService.failure_counts self !! m = Some f -> (0 <= f)%Q)
  /\ ParsingService.failure_count (ParsingService._record_failure self n) n
     = (ParsingService.failure_count self n + 1)%Q
  /\ (forall f, ParsingService.failure_counts self !! n = Some f ->
      exists f',
        ParsingService.failure_counts (ParsingService._record_success self n) !! n
        = Some f'
        /\ (0 <= f')%Q
        /\ ((1 # 2 <= f)%Q -> (f' == f - (1 # 2))%Q)
        /\ ((f <= 1 # 2)%Q -> (f' == 0)%Q))
  /\ (ParsingService.failure_counts self !! n = None ->
      ParsingService.failure_counts (ParsingService._record_success self n) !! n
      = None)
  /\ ParsingService.success_count self n
     = Z.of_nat (length (filter (ParsingService.is_success_of n) cs))
  /\ ParsingService.success_count (ParsingService._record_success self n) n
     = (ParsingService.success_count self n + 1)%Z
  /\ (forall o url options g,
        exists cs',
          (ParsingService.parse_video o url options self g).1.2
          = ParsingService.records (ParsingService.__init__ env) (cs ++ cs')).
Proof.
  intros self. repeat split.
  7:{ intros o url options g.
      destruct (parse_video_records o url options self g) as [cs' Hcs].
      exists cs'. rewrite Hcs. unfold self, ParsingService.records.
      now rewrite fold_left_app. }
  - apply records_nonneg, init_nonneg.
  - unfold ParsingService.failure_count at 1; simpl.
    now rewrite lookup_insert_eq.
  - intros f Hf. simpl. rewrite Hf, lookup_insert_eq.
    eexists; split; [reflexivity|].
    unfold Py.max. destruct (Qlt_le_dec 0 (f - (1 # 2))); repeat split; intros; lra.
  - intros Hf. simpl. now rewrite Hf.
  - unfold self. rewrite success_count_records.
    unfold ParsingService.success_count; simpl. rewrite lookup_empty; simpl. lia.
  - unfold ParsingService.success_count at 1; simpl.
    now rewrite lookup_insert_eq.
Qed.

Lemma failure_counts_never_negative_witness :
  exists f,
    ParsingService.failure_counts
      (ParsingService.records (ParsingService.__init__ ∅)
         [ParsingService.RecordFailure "requests";
          ParsingService.RecordSuccess "requests";
          ParsingService.RecordSuccess "requests";
          ParsingService.RecordSuccess "requests"]) !! "requests" = Some f
    /\ (0 <= f)%Q.
Proof.
  eexists. split; [vm_compute; reflexivity|].
  apply (proj1 (failure_counts_never_negative ∅
           [ParsingService.RecordFailure "requests";
            ParsingService.RecordSuccess "requests";
            ParsingService.RecordSuccess "requests";
            ParsingService.RecordSuccess "requests"] "requests") "requests").
  vm_compute. reflexivity.
Defined.

(** ** The order of the chain *)

Section Ordering.
Import ParsingService Props.

Lemma insert_desc_perm x l : insert_desc x l ≡ₚ x :: l.
Proof.
  induction l as [|y r IH]; simpl; [done|].
  destruct (Qlt_le_dec (score x) (score y)); [|done].
  rewrite IH. apply Permutation_swap.
Qed.

Lemma sorted_desc_perm l : sorted_desc l ≡ₚ l.
Proof.
  induction l as [|x l IH]; simpl; [done|].
  rewrite insert_desc_perm. now constructor.
Qed.

Lemma insert_desc_sorted x l :
  StronglySorted by_score_desc l ->
  StronglySorted by_score_desc (insert_desc x l).
Proof.
  induction 1 as [|y r Hr IH Hy]; simpl.
  - repeat constructor.
  - destruct (Qlt_le_dec (score x) (score y)) as [Hlt|Hle].
    + constructor; [exact IH|].
      rewrite insert_desc_perm. constructor; [|exact Hy].
      unfold by_score_desc. lra.
    + constructor; [now constructor|].
      constructor; [exact Hle|].
      eapply Forall_impl; [exact Hy|].
      unfold by_score_desc. intros z Hz. simpl in Hz. lra.
Qed.

Lemma sorted_desc_sorted l : StronglySorted by_score_desc (sorted_desc l).
Proof.
  induction l as [|x l IH]; simpl; [constructor|].
  now apply insert_desc_sorted.
Qed.

Lemma sorted_desc_scores (P : scored -> Prop) l :
  Forall P l -> Forall P (sorted_desc l).
Proof. intros H. now rewrite sorted_desc_perm. Qed.

End Ordering.

(** ** Walking the chain *)

Section Chain.
Import Py ParsingService Props.

Variables (o : oracle) (url : pyval) (proxy : option string) (options : dict).

Lemma tried_app l1 l2 : tried (l1 ++ l2) = (tried l1 ++ tried l2)%list.
Proof. apply omap_app. Qed.

Lemma time_spent_bounded s :
  (time_spent o url proxy options s <= timeout s)%Q.
Proof.
  unfold time_spent.
  destruct (Qle_bool _ _) eqn:E; [now apply Qle_bool_iff|apply Qle_refl].
Qed.

Lemma validate_nonempty result :
  _validate_result result = true -> truthy (PDict result) = true.
Proof.
  unfold _validate_result. destruct (truthy (PDict result)); simpl; congruence.
Qed.

Lemma accept_test result :
  truthy (PDict result) && _validate_result result = _validate_result result.
Proof.
  destruct (_validate_result result) eqn:E; [|apply andb_false_r].
  now rewrite validate_nonempty.
Qed.

Lemma walk_skip s chain before before' attempted r :
  rejected o url proxy options s ->
  before' = match attempt o url proxy options s with
            | Failed e => Some e
            | _ => before
            end ->
  walk o url proxy options chain before' attempted r ->
  walk o url proxy options (s :: chain) before (s :: attempted) r.
Proof.
  intros Hrej -> [(pre & s' & rest & result & -> & -> & Hpre & Hacc & ->)
                 |(-> & Hall & ->)].
  - left. exists (s :: pre), s', rest, result. repeat split; auto.
  - right. repeat split; auto.
Qed.

Lemma try_strategies_walk start : forall l last_error self g,
  let out := try_strategies o url proxy options start l last_error self g in
  exists attempted,
    walk o url proxy options
      (filter (fun s => enabled s = true) (map strat l)) last_error
      attempted out.1.1
    /\ tried (logger out.2) = (tried (logger g) ++ map name attempted)%list
    /\ (clock out.2 == clock g + total_time o url proxy options attempted)%Q
    /\ Forall (fun s => (time_spent o url proxy options s <= timeout s)%Q)
         attempted.
Proof.
  induction l as [|s l IH]; intros last_error self g.
  - exists []. simpl. repeat split; [|now rewrite app_nil_r|lra|constructor].
    right. repeat split. constructor.
  - cbn [try_strategies]. rewrite map_cons, filter_cons.
    destruct (enabled (strat s)) eqn:En; cbn [negb].
    2:{ rewrite decide_False by discriminate. apply IH. }
    rewrite decide_True by reflexivity.
    assert (Hstep : forall last' self' g',
      rejected o url proxy options (strat s) ->
      last' = match attempt o url proxy options (strat s) with
              | Failed e => Some e
              | _ => last_error
              end ->
      tried (logger g') = (tried (logger g) ++ [name (strat s)])%list ->
      (clock g' == clock g + time_spent o url proxy options (strat s))%Q ->
      let out := try_strategies o url proxy options start l last' self' g' in
      exists attempted,
        walk o url proxy options
          (strat s :: filter (fun s => enabled s = true) (map strat l))
          last_error attempted out.1.1
        /\ tried (logger out.2) = (tried (logger g) ++ map name attempted)%list
        /\ (clock out.2 == clock g + total_time o url proxy options attempted)%Q
        /\ Forall (fun s => (time_spent o url proxy options s <= timeout s)%Q)
             attempted).
    { intros last' self' g' Hrej Hlast Htried Hclock.
      destruct (IH last' self' g') as (attempted & Hw & Ht & Hc & Hb).
      exists (strat s :: attempted). repeat split.
      - eapply walk_skip; eauto.
      - rewrite Ht, Htried, <- app_assoc. reflexivity.
      - rewrite Hc, Hclock. simpl. lra.
      - constructor; [apply time_spent_bounded|exact Hb]. }
    unfold rejected, attempt, time_spent in Hstep.
    destruct (_execute_strategy o (strat s) url proxy options)
      as [taken out] eqn:Ex.
    simpl fst in Hstep.
    destruct (Qle_bool taken (timeout (strat s))) eqn:Et.
    + destruct out as [|e|[result|]].
      * apply Hstep; [intros ?; discriminate|reflexivity| |simpl; lra].
        simpl. rewrite !tried_app. simpl. now rewrite ?app_nil_r.
      * apply Hstep; [intros ?; discriminate|reflexivity| |simpl; lra].
        simpl. rewrite !tried_app. simpl. now rewrite ?app_nil_r.
      * rewrite accept_test.
        destruct (_validate_result result) eqn:Ev.
        -- destruct (CacheManager.set _ _ _ _ _ _ _) as [ok c].
           exists [strat s]. simpl. repeat split.
           ++ left. eexists [], (strat s), _, result. repeat split; auto.
              unfold attempt. now rewrite Ex, Et, Ev.
           ++ rewrite !tried_app. simpl. now rewrite app_nil_r.
           ++ unfold time_spent. rewrite Ex. simpl. rewrite Et. lra.
           ++ constructor; [apply time_spent_bounded|constructor].
        -- apply Hstep; [intros ?; discriminate|reflexivity| |simpl; lra].
           simpl. rewrite !tried_app. simpl. now rewrite ?app_nil_r.
      * apply Hstep; [intros ?; discriminate|reflexivity| |simpl; lra].
        simpl. rewrite !tried_app. simpl. now rewrite ?app_nil_r.
    + apply Hstep; [intros ?; discriminate|reflexivity| |simpl; lra].
      simpl. rewrite !tried_app. simpl. now rewrite ?app_nil_r.
Qed.

End Chain.

Section ParseVideo.
Import Py ParsingService Props.

Lemma walk_prefix o url proxy options chain before attempted r :
  walk o url proxy options chain before attempted r ->
  attempted `prefix_of` chain.
Proof.
  intros [(pre & s & rest & result & -> & -> & _)|(-> & _)].
  - exists rest. now rewrite <- app_assoc.
  - exists []. now rewrite app_nil_r.
Qed.

Lemma parse_video_miss o url options self g :
  cache_hit o url options g = false ->
  walks_chain o url options self g.
Proof.
  unfold cache_hit, walks_chain, parse_video, proxy_for.
  destruct (CacheManager.get _ _ _ _ _) as [cached c]. simpl fst.
  intros Hmiss.
  assert (Hbody : forall g1, logger g1 = logger g -> clock g1 = clock g ->
    proxy_manager g1 = proxy_manager g ->
    let out :=
      (let '(proxy, g2) :=
         if truthy (get options "use_proxy" (PBool false))
         then let '(p, pm) := ProxyManager.get_proxy (generator o)
                                (proxy_manager g1) None (clock g1) (clock g1) in
              (p, with_proxies g1 pm)
         else (None, g1) in
       try_strategies o url proxy options (clock g)
         (_sort_strategies_by_weight self) None self g2) in
    exists attempted,
      walk o url
        (if truthy (get options "use_proxy" (PBool false))
         then (ProxyManager.get_proxy (generator o) (proxy_manager g) None
                 (clock g) (clock g)).1
         else None) options (chain_of self) None attempted out.1.1
      /\ tried (logger out.2) = (tried (logger g) ++ map name attempted)%list
      /\ (clock out.2 == clock g
          + total_time o url
              (if truthy (get options "use_proxy" (PBool false))
               then (ProxyManager.get_proxy (generator o) (proxy_manager g) None
                       (clock g) (clock g)).1
               else None) options attempted)%Q
      /\ Forall (fun s => (time_spent o url
              (if truthy (get options "use_proxy" (PBool false))
               then (ProxyManager.get_proxy (generator o) (proxy_manager g) None
                       (clock g) (clock g)).1
               else None) options s <= timeout s)%Q) attempted).
  { intros g1 Hl Hc Hp. rewrite Hp, Hc.
    destruct (truthy (get options "use_proxy" (PBool false))).
    - destruct (ProxyManager.get_proxy _ _ _ _ _) as [p pm]. simpl fst.
      pose proof (try_strategies_walk o url p options (clock g)
                    (_sort_strategies_by_weight self) None self
                    (with_proxies g1 pm)) as H.
      simpl in H. rewrite Hl, Hc in H. exact H.
    - pose proof (try_strategies_walk o url None options (clock g)
                    (_sort_strategies_by_weight self) None self g1) as H.
      simpl in H. rewrite Hl, Hc in H. exact H. }
  destruct cached as [v|].
  - rewrite Hmiss. apply (Hbody (with_cache g c)); reflexivity.
  - apply (Hbody (with_cache g c)); reflexivity.
Qed.

Lemma parse_video_tried o url options self g :
  exists attempted,
    attempted `prefix_of` chain_of self
    /\ tried (logger (parse_video o url options self g).2)
       = (tried (logger g) ++ map name attempted)%list.
Proof.
  destruct (cache_hit o url options g) eqn:Hhit.
  - exists []. split; [apply prefix_nil|].
    revert Hhit. unfold cache_hit, parse_video.
    destruct (CacheManager.get _ _ _ _ _) as [[v|] c]; simpl fst; [|discriminate].
    intros ->. simpl. rewrite tried_app. simpl. now rewrite !app_nil_r.
  - destruct (parse_video_miss o url options self g Hhit)
      as (attempted & Hw & Ht & _).
    exists attempted. split; [|exact Ht].
    eapply walk_prefix, Hw.
Qed.

End ParseVideo.

(** C1 (as amended): when [parse_video] does not answer from the cache (no
    live entry for the URL, or [force_refresh] set), it tries the enabled
    strategies one after the other in the order of the sorted chain, each
    attempt taking no longer than the strategy's timeout; the strategies
    tried are exactly those up to the first one whose result is validated,
    whose result is returned; and when no strategy of the chain has a
    validated result the whole chain is tried and the exception raised
    reads "All strategies failed. Last error: e", [e] being the error of
    the last strategy that raised or timed out ([None] when none did).
    When it answers from the cache, it returns the cached document, tries
    no strategy and leaves the counters of the service alone. *)
Theorem parse_video_walks_the_chain
    (o : ParsingService.oracle) (url : Py.pyval) (options : Py.dict)
    (self : ParsingService.t) (g : ParsingService.globals) :
  let out := ParsingService.parse_video o url options self g in
  (Props.cache_hit o url options g = false ->
   Props.walks_chain o url options self g)
  /\ (Props.cache_hit o url options g = true ->
      exists v,
        (CacheManager.get (ParsingService.md5 o) (ParsingService.redis_up o)
           (ParsingService.clock g) (ParsingService.cache_manager g) url).1
        = Some v
        /\ out.1.1 = inr v
        /\ out.1.2 = self
        /\ Props.tried (ParsingService.logger out.2)
           = Props.tried (ParsingService.logger g)).
Proof.
  split; [apply parse_video_miss|].
  unfold Props.cache_hit, ParsingService.parse_video.
  destruct (CacheManager.get _ _ _ _ _) as [[v|] c]; cbn [fst]; [|discriminate].
  intros ->. exists v. repeat split. simpl.
  rewrite tried_app. simpl. now rewrite app_nil_r.
Qed.

Lemma parse_video_walks_the_chain_witness :
  Props.cache_hit Examples.oracle_up Examples.url0 ∅ Examples.globals0 = false
  /\ Props.walks_chain Examples.oracle_up Examples.url0 ∅
       Examples.service0 Examples.globals0.
Proof.
  split; [vm_compute; reflexivity|].
  apply (proj1 (parse_video_walks_the_chain Examples.oracle_up Examples.url0 ∅
                  Examples.service0 Examples.globals0)).
  vm_compute. reflexivity.
Defined.

(** C1 as stated fails on a cache hit: with a live cache entry for the URL
    and every handler raising, [parse_video] tries no strategy and returns
    the cached document instead of raising. *)
Lemma parse_video_cache_hit_skips_the_chain :
  ~ Props.walks_chain Examples.oracle_down Examples.url0 ∅
      Examples.service0 Examples.globals_cached.
Proof.
  intros (attempted & Hw & _).
  assert (E : exists v,
    (ParsingService.parse_video Examples.oracle_down Examples.url0 ∅
       Examples.service0 Examples.globals_cached).1.1 = inr v)
    by (eexists; vm_compute; reflexivity).
  destruct E as [v E]. rewrite E in Hw. clear E.
  destruct Hw as [(pre & s & rest & result & _ & _ & _ & Hacc & _)|(_ & _ & Hr)];
    [|discriminate Hr].
  unfold Props.attempt, ParsingService._execute_strategy in Hacc.
  simpl in Hacc. destruct (Qle_bool _ _); discriminate Hacc.
Qed.

Section Weights.
Import Py ParsingService Props.

Lemma inject_Z_nonneg z : (0 <= z)%Z -> (0 <= inject_Z z)%Q.
Proof. intros H. change 0%Q with (inject_Z 0). now rewrite <- Zle_Qle. Qed.

Lemma inject_Z_pos z : (1 <= z)%Z -> (1 <= inject_Z z)%Q.
Proof. intros H. change 1%Q with (inject_Z 1). now rewrite <- Zle_Qle. Qed.

Lemma dynamic_weight_with_history env cs s :
  let self := records (__init__ env) cs in
  let base := default (1 # 2)%Q (strategy_weights self !! name s) in
  let sc := inject_Z (success_count self (name s)) in
  let fc := failure_count self (name s) in
  mentions (name s) cs ->
  (0 < sc + fc)%Q
  /\ dynamic_weight self s
     = Float.mul base
         (Float.add (1 # 2) (Float.mul (Float.div sc (sc + fc)) (1 # 2))).
Proof.
  intros self base sc fc Hm.
  destruct (history_inv_records env cs (name s)) as (Hs & Hf & Hyes & _).
  fold self in Hs, Hf, Hyes.
  assert (Hpos : (0 < sc + fc)%Q).
  { pose proof (inject_Z_nonneg _ Hs).
    destruct (Hyes Hm) as [H1|H1].
    - pose proof (inject_Z_pos _ H1). unfold sc, fc. lra.
    - unfold sc, fc. lra. }
  split; [exact Hpos|].
  unfold dynamic_weight. fold base sc fc.
  destruct (Qlt_le_dec 0 (sc + fc)) as [_|Hle]; [reflexivity|lra].
Qed.

Lemma dynamic_weight_without_history env cs s :
  let self := records (__init__ env) cs in
  ~ mentions (name s) cs ->
  dynamic_weight self s = default (1 # 2)%Q (strategy_weights self !! name s).
Proof.
  intros self Hm.
  destruct (history_inv_records env cs (name s)) as (_ & _ & _ & Hno).
  destruct (Hno Hm) as [Hs Hf]. fold self in Hs, Hf.
  unfold dynamic_weight, success_count, failure_count. rewrite Hs, Hf. simpl.
  destruct (Qlt_le_dec 0 (inject_Z 0 + 0)) as [Hlt|_]; [|reflexivity].
  exfalso. revert Hlt. apply Qle_not_lt. now compute.
Qed.

End Weights.

(** C2: [parse_video] tries the strategies in the order of
    [_sort_strategies_by_weight], which lists every strategy once, by
    descending dynamic weight.  For a strategy with a recorded success or
    failure the weight is the base weight times
    [0.5 + success_rate * 0.5], the success rate being the success count
    over the sum of the success and failure counts, all of it computed in
    binary64 arithmetic, each operation rounding its result; a strategy
    without history keeps its base weight, which is the binary64 number
    1.0 for api_with_signature, 0.8 for playwright, 0.6 for selenium and
    0.4 for requests.  The order follows the rounded weights: where two
    exact weights would tie, the rounded ones decide. *)
Theorem strategies_tried_by_descending_weight
    (env : gmap string string) (cs : list ParsingService.record_call)
    (o : ParsingService.oracle) (url : Py.pyval) (options : Py.dict)
    (g : ParsingService.globals) :
  let self := ParsingService.records (ParsingService.__init__ env) cs in
  let sorted := ParsingService._sort_strategies_by_weight self in
  map ParsingService.strat sorted ≡ₚ ParsingService.strategies self
  /\ StronglySorted Props.by_score_desc sorted
  /\ Forall (fun e => ParsingService.score e
                      = ParsingService.dynamic_weight self (ParsingService.strat e))
       sorted
  /\ (forall s,
        let base := default (1 # 2)%Q
                      (ParsingService.strategy_weights self
                         !! ParsingService.name s) in
        let sc := inject_Z (ParsingService.success_count self
                              (ParsingService.name s)) in
        let fc := ParsingService.failure_count self (ParsingService.name s) in
        (Props.mentions (ParsingService.name s) cs ->
         (0 < sc + fc)%Q
         /\ ParsingService.dynamic_weight self s
            = Float.mul base
                (Float.add (1 # 2)
                   (Float.mul (Float.div sc (sc + fc)) (1 # 2))))
        /\ (~ Props.mentions (ParsingService.name s) cs ->
            ParsingService.dynamic_weight self s = base))
  /\ (ParsingService.strategy_weights self !! "api_with_signature" = Some 1%Q
      /\ ParsingService.strategy_weights self !! "playwright"
         = Some (Float.round (8 # 10))
      /\ ParsingService.strategy_weights self !! "selenium"
         = Some (Float.round (6 # 10))
      /\ ParsingService.strategy_weights self !! "requests"
         = Some (Float.round (4 # 10)))
  /\ (exists attempted,
        attempted `prefix_of` Props.chain_of self
        /\ Props.tried (ParsingService.logger
                          (ParsingService.parse_video o url options self g).2)
           = (Props.tried (ParsingService.logger g)
              ++ map ParsingService.name attempted)%list).
Proof.
  intros self sorted.
  split; [|split; [|split; [|split; [|split]]]].
  - unfold sorted, ParsingService._sort_strategies_by_weight.
    rewrite sorted_desc_perm, map_map. simpl. now rewrite map_id.
  - apply sorted_desc_sorted.
  - apply sorted_desc_scores. apply Forall_forall. intros e He.
    apply list_elem_of_In, in_map_iff in He as (s & <- & _). reflexivity.
  - intros s base sc fc. split.
    + apply dynamic_weight_with_history.
    + apply dynamic_weight_without_history.
  - unfold self.
    destruct (records_strategies cs (ParsingService.__init__ env)) as [_ ->].
    repeat split; vm_compute; reflexivity.
  - apply parse_video_tried.
Qed.

Lemma strategies_tried_by_descending_weight_witness :
  let cs := [ParsingService.RecordFailure "api_with_signature";
             ParsingService.RecordSuccess "api_with_signature";
             ParsingService.RecordFailure "api_with_signature";
             ParsingService.RecordSuccess "playwright";
             ParsingService.RecordSuccess "playwright";
             ParsingService.RecordSuccess "playwright";
             ParsingService.RecordFailure "playwright"] in
  let self := ParsingService.records (ParsingService.__init__ ∅) cs in
  let api := {| ParsingService.name := "api_with_signature";
                ParsingService.handler := ParsingService.APIStrategy;
                ParsingService.priority := 1;
                ParsingService.timeout := 10;
                ParsingService.enabled := true |} in
  let playwright := {| ParsingService.name := "playwright";
                       ParsingService.handler := ParsingService.PlaywrightStrategy;
                       ParsingService.priority := 2;
                       ParsingService.timeout := 30;
                       ParsingService.enabled := true |} in
  Props.mentions "playwright" cs
  /\ ParsingService.dynamic_weight self playwright
     = (6305039478318695 # 9007199254740992)%Q
  /\ ParsingService.dynamic_weight self api
     = (3152519739159347 # 4503599627370496)%Q
  /\ map ParsingService.name
       (map ParsingService.strat
          (ParsingService._sort_strategies_by_weight self))
     = ["playwright"; "api_with_signature"; "requests"].
Proof.
  intros cs self api playwright.
  assert (Hm : Props.mentions (ParsingService.name playwright) cs).
  { unfold cs. apply Exists_exists.
    exists (ParsingService.RecordSuccess "playwright").
    split; [|reflexivity]. apply list_elem_of_In. simpl. tauto. }
  split; [exact Hm|].
  destruct (strategies_tried_by_descending_weight ∅ cs Examples.oracle_up
              Examples.url0 ∅ Examples.globals0)
    as (_ & _ & _ & H & _).
  destruct (H playwright) as [Hyes _]. destruct (Hyes Hm) as [_ Hw].
  split; [|split].
  - etransitivity; [exact Hw|]. vm_compute. reflexivity.
  - vm_compute. reflexivity.
  - vm_compute. reflexivity.
Defined.

(** ** Validation and normalisation of records *)

Section Records.
Import Py ParsingService Props.

Lemma validate_result_iff (result : dict) :
  _validate_result result = true <->
  result <> ∅
  /\ is_Some (result !! "video_id")
  /\ is_Some (result !! "title")
  /\ is_Some (result !! "author")
  /\ (forall v, result !! "video_url" = Some v ->
        truthy v = true /\ v <> PStr "None").
Proof.
  assert (Heq : forall v, eq_str v "None" = true <-> v = PStr "None").
  { intros v. destruct v; simpl; try (split; [discriminate|congruence]).
    rewrite String.eqb_eq. split; congruence. }
  unfold _validate_result. cbn [truthy forallb]. split.
  - intros H.
    destruct (bool_decide (result = ∅)) eqn:E0; cbn in H; [discriminate|].
    apply bool_decide_eq_false in E0.
    destruct (contains result "video_id") eqn:E1,
             (contains result "title") eqn:E2,
             (contains result "author") eqn:E3; cbn in H; try discriminate.
    apply bool_decide_eq_true in E1, E2, E3.
    repeat split; auto.
    + rewrite H0 in H. destruct (truthy v); [reflexivity|discriminate].
    + rewrite H0 in H. intros Hn. apply Heq in Hn. rewrite Hn in H.
      rewrite orb_true_r in H. discriminate.
  - intros (H0 & H1 & H2 & H3 & Hu).
    rewrite (bool_decide_eq_false_2 _ H0). cbn. unfold contains.
    rewrite !bool_decide_eq_true_2 by assumption. cbn.
    destruct (result !! "video_url") as [v|]; [|reflexivity].
    destruct (Hu v eq_refl) as [-> Hn]. cbn.
    destruct (eq_str v "None") eqn:N; [|reflexivity].
    apply Heq in N. contradiction.
Qed.

(** The step of the chain on a strategy that answers in time. *)
Lemma chain_accepts_iff_valid o url proxy options start s rest last_error
    self g taken result :
  enabled (strat s) = true ->
  _execute_strategy o (strat s) url proxy options = (taken, Returns (Some result)) ->
  Qle_bool taken (timeout (strat s)) = true ->
  let g1 := sleep (log g (LogTrying (name (strat s)))) taken in
  let out := try_strategies o url proxy options start (s :: rest) last_error self g in
  (_validate_result result = true ->
   out.1.1 = inr (PDict result)
   /\ out.1.2 = _record_success self (name (strat s))
   /\ cache_manager out.2
      = (CacheManager.set (md5 o) (redis_up o) (clock g1) (cache_manager g) url
           (PDict result) (Some 3600%Z)).2)
  /\ (_validate_result result = false ->
      out = try_strategies o url proxy options start rest last_error self g1).
Proof.
  intros En Ex Et g1 out. unfold out. cbn [try_strategies].
  rewrite En, Ex, Et, accept_test. cbn [negb].
  split; intros Ev; rewrite Ev; [|reflexivity].
  fold g1. change (cache_manager g1) with (cache_manager g).
  destruct (CacheManager.set _ _ _ _ _ _ _) as [ok c]. simpl. auto.
Qed.

Lemma blank_has_required raw k :
  k = "video_id" \/ k = "title" \/ k = "author" ->
  is_Some (BaseStrategy.blank_video_info raw !! k).
Proof.
  unfold BaseStrategy.blank_video_info.
  intros [-> | [-> | ->]]; rewrite ?lookup_insert_eq;
    repeat (rewrite lookup_insert_ne by done); rewrite ?lookup_insert_eq; eauto.
Qed.

Lemma normalize_shape repr raw r :
  BaseStrategy.normalize_video_info repr raw = Some r ->
  r = BaseStrategy.blank_video_info raw
  \/ exists info, r = update (BaseStrategy.blank_video_info raw) info.
Proof.
  unfold BaseStrategy.normalize_video_info. intros H.
  repeat case_match; simplify_option_eq; eauto.
Qed.

End Records.

(** C6: the chain accepts the answer of a strategy (returns it from
    [parse_video], records a success for the strategy and writes it to the
    cache) exactly when [_validate_result] holds of it, that is when the
    record is non-empty, has the keys video_id, title and author, and its
    video_url, when present, is neither falsy (empty) nor the string
    'None'; otherwise the chain moves on with its counters untouched.  A
    record returned by [normalize_video_info] has the keys video_id, title
    and author. *)
Theorem accepted_iff_valid_and_normalized_has_required
    (o : ParsingService.oracle) (url : Py.pyval) (proxy : option string)
    (options : Py.dict) (start : Q) (s : ParsingService.scored)
    (rest : list ParsingService.scored) (last_error : option string)
    (self : ParsingService.t) (g : ParsingService.globals) (taken : Q)
    (result : Py.dict) :
  ParsingService.enabled (ParsingService.strat s) = true ->
  ParsingService._execute_strategy o (ParsingService.strat s) url proxy options
  = (taken, ParsingService.Returns (Some result)) ->
  Qle_bool taken (ParsingService.timeout (ParsingService.strat s)) = true ->
  let valid :=
    result <> ∅
    /\ is_Some (result !! "video_id")
    /\ is_Some (result !! "title")
    /\ is_Some (result !! "author")
    /\ (forall v, result !! "video_url" = Some v ->
          Py.truthy v = true /\ v <> Py.PStr "None") in
  let g1 := ParsingService.sleep
              (ParsingService.log g
                 (ParsingService.LogTrying
                    (ParsingService.name (ParsingService.strat s)))) taken in
  let out := ParsingService.try_strategies o url proxy options start (s :: rest)
               last_error self g in
  (ParsingService._validate_result result = true <-> valid)
  /\ (valid ->
      out.1.1 = inr (Py.PDict result)
      /\ out.1.2 = ParsingService._record_success self
                     (ParsingService.name (ParsingService.strat s))
      /\ ParsingService.cache_manager out.2
         = (CacheManager.set (ParsingService.md5 o) (ParsingService.redis_up o)
              (ParsingService.clock g1) (ParsingService.cache_manager g) url
              (Py.PDict result) (Some 3600%Z)).2)
  /\ (~ valid ->
      out = ParsingService.try_strategies o url proxy options start rest
              last_error self g1)
  /\ (forall repr raw info k,
        BaseStrategy.normalize_video_info repr raw = Some info ->
        k = "video_id" \/ k = "title" \/ k = "author" ->
        is_Some (info !! k)).
Proof.
  intros En Ex Et valid g1 out.
  pose proof (validate_result_iff result) as Hiff. fold valid in Hiff.
  destruct (chain_accepts_iff_valid o url proxy options start s rest last_error
              self g taken result En Ex Et) as [Hyes Hno].
  split; [exact Hiff|]. split; [|split].
  - intros Hv. apply Hyes, Hiff, Hv.
  - intros Hv. apply Hno.
    destruct (ParsingService._validate_result result); [|reflexivity].
    exfalso. apply Hv, Hiff. reflexivity.
  - intros repr raw info k Hn Hk.
    destruct (normalize_shape repr raw info Hn) as [-> | [i ->]].
    + now apply blank_has_required.
    + unfold Py.update. apply lookup_union_is_Some. right.
      now apply blank_has_required.
Qed.

Lemma accepted_iff_valid_and_normalized_has_required_witness :
  let s := {| ParsingService.strat :=
                {| ParsingService.name := "api_with_signature";
                   ParsingService.handler := ParsingService.APIStrategy;
                   ParsingService.priority := 1;
                   ParsingService.timeout := 10;
                   ParsingService.enabled := true |};
              ParsingService.score := 1 |} in
  ParsingService.enabled (ParsingService.strat s) = true
  /\ ParsingService._execute_strategy Examples.oracle_up (ParsingService.strat s)
       Examples.url0 None ∅
     = (2%Q, ParsingService.Returns (Some Examples.record0))
  /\ Qle_bool 2 (ParsingService.timeout (ParsingService.strat s)) = true
  /\ ParsingService._validate_result Examples.record0 = true.
Proof.
  intros s.
  assert (H1 : ParsingService.enabled (ParsingService.strat s) = true)
    by reflexivity.
  assert (H2 : ParsingService._execute_strategy Examples.oracle_up
                 (ParsingService.strat s) Examples.url0 None ∅
               = (2%Q, ParsingService.Returns (Some Examples.record0)))
    by reflexivity.
  assert (H3 : Qle_bool 2 (ParsingService.timeout (ParsingService.strat s)) = true)
    by reflexivity.
  split; [exact H1|]. split; [exact H2|]. split; [exact H3|].
  apply (proj1 (accepted_iff_valid_and_normalized_has_required
                  Examples.oracle_up Examples.url0 None ∅ 1000 s []
                  None Examples.service0 Examples.globals0 2
                  Examples.record0 H1 H2 H3)).
  split; [|split; [|split; [|split; [|intros v H; split]]]].
  - intros E. apply (f_equal (fun m => m !! "title")) in E.
    vm_compute in E. discriminate E.
  - eexists. vm_compute. reflexivity.
  - eexists. vm_compute. reflexivity.
  - eexists. vm_compute. reflexivity.
  - vm_compute in H. discriminate H.
  - vm_compute in H. discriminate H.
Defined.

(** ** The cache *)

Section Cache.
Import Py ParsingService Props.

Lemma cache_data_nonempty value now ttl d :
  CacheManager.cache_data value now ttl = PDict d -> d <> ∅.
Proof. intros [= <-]. apply insert_non_empty. Qed.

Lemma cache_get_after_set md5 up now now' c c' url value ttl :
  CacheManager.set md5 up now c (PStr url) value ttl = (true, c') ->
  (now' < now + inject_Z (CacheManager.ttl_or_default c ttl))%Q ->
  CacheManager.get md5 true now' c' (PStr url)
  = (Some (CacheManager.cache_data value now (CacheManager.ttl_or_default c ttl)),
     CacheManager.bump "hits" c').
Proof.
  unfold CacheManager.set, CacheManager.get. cbn [CacheManager._make_key].
  destruct (up && _ && _) eqn:E; [|discriminate].
  intros [= <-] Hlt. unfold CacheManager.redis_get. simpl.
  rewrite lookup_insert_eq. simpl.
  destruct (Qlt_le_dec _ _) as [Hgt|_]; [|reflexivity].
  exfalso. exact (Qlt_irrefl _ (Qlt_trans _ _ _ Hlt Hgt)).
Qed.

End Cache.

(** C3 (what the code does): after a successful [set(url, record)], a
    [get(url)] made before the entry expires does not return [record] but
    the envelope [{'value': record, 'cached_at': ..., 'ttl': ...}] that
    [set] stored; for a record that passes [_validate_result] the envelope
    differs from the record, and a cache-hitting [parse_video] returns the
    envelope. *)
Theorem cache_get_returns_the_envelope
    (o : ParsingService.oracle) (url : string) (record options : Py.dict)
    (ttl : option Z) (now : Q) (c c' : CacheManager.t)
    (self : ParsingService.t) (g : ParsingService.globals) :
  ParsingService._validate_result record = true ->
  CacheManager.set (ParsingService.md5 o) (ParsingService.redis_up o) now c
    (Py.PStr url) (Py.PDict record) ttl = (true, c') ->
  ParsingService.cache_manager g = c' ->
  (ParsingService.clock g < now + inject_Z (CacheManager.ttl_or_default c ttl))%Q ->
  Py.truthy (Py.get options "force_refresh" (Py.PBool false)) = false ->
  let envelope :=
    CacheManager.cache_data (Py.PDict record) now
      (CacheManager.ttl_or_default c ttl) in
  (CacheManager.get (ParsingService.md5 o) true (ParsingService.clock g) c'
     (Py.PStr url)).1 = Some envelope
  /\ envelope <> Py.PDict record
  /\ (ParsingService.parse_video o (Py.PStr url) options self g).1.1
     = inr envelope.
Proof.
  intros Hvalid Hset Hg Hlt Hforce envelope.
  assert (Hup : ParsingService.redis_up o = true).
  { revert Hset. unfold CacheManager.set. simpl.
    destruct (ParsingService.redis_up o); [reflexivity|discriminate]. }
  pose proof (cache_get_after_set _ _ _ _ _ _ _ _ _ Hset Hlt) as Hget.
  split; [now rewrite Hget|]. split.
  - intros E. unfold envelope, CacheManager.cache_data in E.
    injection E as E.
    apply validate_result_iff in Hvalid as (_ & [v Hv] & _).
    rewrite <- E in Hv.
    repeat (rewrite lookup_insert_ne in Hv by done).
    rewrite lookup_empty in Hv. discriminate Hv.
  - unfold ParsingService.parse_video. rewrite Hg, Hup, Hget. simpl.
    rewrite Hforce. reflexivity.
Qed.

Lemma cache_get_returns_the_envelope_witness :
  let c' := (CacheManager.set (fun s => s) true 1000 (CacheManager.__init__ ∅)
               Examples.url0 (Py.PDict Examples.record0) (Some 3600%Z)).2 in
  ParsingService._validate_result Examples.record0 = true
  /\ ParsingService.cache_manager Examples.globals_cached = c'
  /\ (CacheManager.get (fun s => s) true 1010 c' Examples.url0).1
     <> Some (Py.PDict Examples.record0).
Proof.
  intros c'.
  assert (H1 : ParsingService._validate_result Examples.record0 = true)
    by (vm_compute; reflexivity).
  assert (H2 : CacheManager.set (ParsingService.md5 Examples.oracle_down)
                 (ParsingService.redis_up Examples.oracle_down) 1000
                 (CacheManager.__init__ ∅)
                 (Py.PStr "https://www.douyin.com/video/7123456789012345678")
                 (Py.PDict Examples.record0) (Some 3600%Z) = (true, c'))
    by (vm_compute; reflexivity).
  assert (H3 : ParsingService.cache_manager Examples.globals_cached = c')
    by reflexivity.
  assert (H4 : (ParsingService.clock Examples.globals_cached
                < 1000 + inject_Z (CacheManager.ttl_or_default
                                     (CacheManager.__init__ ∅) (Some 3600%Z)))%Q)
    by (vm_compute; reflexivity).
  assert (H5 : Py.truthy (Py.get ∅ "force_refresh" (Py.PBool false)) = false)
    by reflexivity.
  split; [exact H1|]. split; [exact H3|].
  destruct (cache_get_returns_the_envelope Examples.oracle_down _ _ ∅ _ _ _ _
              Examples.service0 Examples.globals_cached H1 H2 H3 H4 H5)
    as (Hget & Hne & _).
  change (ParsingService.clock Examples.globals_cached) with 1010%Q in Hget.
  change (ParsingService.md5 Examples.oracle_down) with (fun s : string => s) in Hget.
  unfold Examples.url0. rewrite Hget. intros E. apply Hne. congruence.
Defined.

(** ** Proxies *)

Section Proxies.
Import ProxyManager Props.

Variable current_time : Q.

Lemma available_step_spec avail m proxy :
  let '(avail', m') := available_step current_time (avail, m) proxy in
  (forall q, currently_blocked (stats_of m q) current_time ->
             stats_of m' q = stats_of m q)
  /\ (forall q, q <> proxy -> stats_of m' q = stats_of m q)
  /\ (avail' = avail
      \/ avail' = (avail ++ [proxy])%list
         /\ ~ currently_blocked (stats_of m proxy) current_time
         /\ (1 <= current_time - last_used (stats_of m proxy))%Q)
  /\ (~ currently_blocked (stats_of m proxy) current_time ->
      (1 <= current_time - last_used (stats_of m proxy))%Q ->
      avail' = (avail ++ [proxy])%list).
Proof.
  unfold available_step, currently_blocked.
  assert (Hne : forall st q, q <> proxy ->
            stats_of (<[proxy := st]> m) q = stats_of m q).
  { intros st q Hq. unfold stats_of. now rewrite lookup_insert_ne. }
  assert (Heq : forall st, stats_of (<[proxy := st]> m) proxy = st).
  { intros st. unfold stats_of. now rewrite lookup_insert_eq. }
  set (stats := stats_of m proxy).
  destruct (blocked stats) eqn:Eb; cbn [andb].
  - destruct (Qlt_le_dec current_time (block_until stats)) as [Hlt|Hge].
    + repeat split; auto.
      * intros q _. destruct (decide (q = proxy)) as [->|Hq]; auto.
      * intros H. exfalso. apply H. auto.
    + cbn [last_used].
      destruct (Qlt_le_dec (current_time - last_used stats) 1) as [Hc|Hc].
      * repeat split; auto.
        -- intros q [Hq1 Hq2]. destruct (decide (q = proxy)) as [->|Hq]; auto.
           fold stats in Hq2. exfalso. lra.
        -- intros _ H. exfalso. lra.
      * repeat split; auto.
        -- intros q [Hq1 Hq2]. destruct (decide (q = proxy)) as [->|Hq]; auto.
           fold stats in Hq2. exfalso. lra.
        -- right. repeat split; auto. intros [_ H]. lra.
  - destruct (Qlt_le_dec (current_time - last_used stats) 1) as [Hc|Hc].
    + repeat split; auto.
      * intros q [Hq1 Hq2]. destruct (decide (q = proxy)) as [->|Hq]; auto.
      * intros _ H. exfalso. lra.
    + repeat split; auto.
      * intros q [Hq1 Hq2]. destruct (decide (q = proxy)) as [->|Hq]; auto.
      * right. repeat split; auto. intros [H _]. congruence.
Qed.

Lemma available_fold_not_blocked l : forall avail m m0,
  (forall q, currently_blocked (stats_of m0 q) current_time ->
             stats_of m q = stats_of m0 q) ->
  (forall p, p ∈ avail -> ~ currently_blocked (stats_of m0 p) current_time) ->
  forall p, p ∈ (fold_left (available_step current_time) l (avail, m)).1 ->
            ~ currently_blocked (stats_of m0 p) current_time.
Proof.
  induction l as [|x l IH]; intros avail m m0 Hm Hav; [exact Hav|].
  cbn [fold_left].
  pose proof (available_step_spec avail m x) as Hs.
  destruct (available_step current_time (avail, m) x) as [avail' m'].
  destruct Hs as (Hkeep & _ & Hadd & _).
  apply IH.
  - intros q Hq. rewrite Hkeep; [now apply Hm|]. now rewrite Hm.
  - intros p Hp. destruct Hadd as [->|(-> & Hnb & _)]; [now apply Hav|].
    apply elem_of_app in Hp as [Hp|Hp]; [now apply Hav|].
    apply list_elem_of_singleton in Hp as ->.
    intros Hb. apply Hnb. now rewrite Hm.
Qed.

Lemma available_fold_mono l : forall avail m p,
  p ∈ avail -> p ∈ (fold_left (available_step current_time) l (avail, m)).1.
Proof.
  induction l as [|x l IH]; intros avail m p Hp; [exact Hp|].
  cbn [fold_left].
  pose proof (available_step_spec avail m x) as Hs.
  destruct (available_step current_time (avail, m) x) as [avail' m'].
  destruct Hs as (_ & _ & Hadd & _).
  apply IH. destruct Hadd as [->|(-> & _)]; [exact Hp|].
  apply elem_of_app. now left.
Qed.

Lemma available_fold_selectable l : forall avail m p,
  p ∈ l ->
  ~ currently_blocked (stats_of m p) current_time ->
  (1 <= current_time - last_used (stats_of m p))%Q ->
  p ∈ (fold_left (available_step current_time) l (avail, m)).1.
Proof.
  induction l as [|x l IH]; intros avail m p Hp Hnb Hcool.
  - inversion Hp.
  - cbn [fold_left].
    pose proof (available_step_spec avail m x) as Hs.
    destruct (available_step current_time (avail, m) x) as [avail' m'].
    destruct Hs as (_ & Hother & _ & Hadd).
    destruct (decide (p = x)) as [->|Hne].
    + apply available_fold_mono. rewrite (Hadd Hnb Hcool).
      apply elem_of_app. right. now apply list_elem_of_singleton.
    + apply elem_of_cons in Hp as [Hp|Hp]; [contradiction|].
      apply IH; [exact Hp| |]; now rewrite (Hother p Hne).
Qed.

Lemma get_available_fst self :
  (_get_available_proxies self current_time).1
  = (fold_left (available_step current_time) (proxies self)
       ([], proxy_stats self)).1.
Proof.
  unfold _get_available_proxies. now destruct (fold_left _ _ _).
Qed.

Lemma available_not_blocked self p :
  p ∈ (_get_available_proxies self current_time).1 ->
  ~ currently_blocked (stats_of (proxy_stats self) p) current_time.
Proof.
  rewrite get_available_fst.
  apply available_fold_not_blocked; [auto|]. intros q Hq. inversion Hq.
Qed.

Lemma choice_elem g l p : choice g l = Some p -> p ∈ l.
Proof. unfold choice. apply list_elem_of_lookup_2. Qed.

Lemma weighted_elem g self l q :
  (_get_weighted_proxy g self l).1 = Some q -> q ∈ l.
Proof.
  unfold _get_weighted_proxy.
  destruct (Qeq_bool _ _); cbn [fst];
    [apply choice_elem|apply list_elem_of_lookup_2].
Qed.

Lemma get_proxy_from_available g self strategy t_use p :
  (get_proxy g self strategy current_time t_use).1 = Some p ->
  p ∈ (_get_available_proxies self current_time).1.
Proof.
  unfold get_proxy. destruct (proxies self) as [|x l]; [discriminate|].
  destruct (_get_available_proxies self current_time) as [avail self'].
  cbn [fst]. destruct avail as [|first rest]; [discriminate|].
  set (avail := first :: rest).
  match goal with
  | |- (let '(proxy, self0) := ?c in _).1 = _ -> _ =>
      assert (Hc : forall q, c.1 = Some q -> q ∈ avail);
      [|destruct c as [[q|] s0]; cbn; [intros [= <-]; now apply Hc|discriminate]]
  end.
  intros q. repeat case_match; cbn [fst]; subst;
    first [ apply choice_elem
          | apply list_elem_of_lookup_2
          | apply weighted_elem
          | intros [= <-]; apply elem_of_cons; now left ].
Qed.

End Proxies.

Section Blocking.
Import ProxyManager Props.

Lemma stats_of_insert (m : gmap string proxy_stat) p st :
  stats_of (<[p := st]> m) p = st.
Proof. unfold stats_of. now rewrite lookup_insert_eq. Qed.

Lemma mark_failure_blocks self p duration now :
  p <> "" ->
  (2 <= failure (stats_of (proxy_stats self) p))%Z ->
  (last_success (stats_of (proxy_stats self) p) <= now - 60)%Q ->
  let st := stats_of (proxy_stats (mark_failure self p duration now)) p in
  blocked st = true /\ block_until st = (now + duration)%Q.
Proof.
  intros Hp Hf Hs. unfold mark_failure, _count_recent_failures.
  apply String.eqb_neq in Hp. rewrite Hp. cbv zeta.
  cbn [with_stats proxy_stats]. rewrite !stats_of_insert.
  cbn [last_success failure].
  destruct (Qlt_le_dec (now - 60) _) as [Hlt|_]; [exfalso; lra|].
  replace (3 <=? Z.min _ 3)%Z with true
    by (symmetry; apply Z.leb_le; lia).
  cbn [with_stats proxy_stats]. rewrite stats_of_insert.
  split; reflexivity.
Qed.

End Blocking.

(** C8: [get_proxy] never returns a proxy that is blocked at the time of
    the call (flag set and [block_until] in the future).  A [mark_failure]
    that reaches three failures, with no success in the last minute, sets
    the flag and [block_until = now + block_duration]; from then on no
    [get_proxy] made before [block_until] returns the proxy, while one made
    at or after [block_until] (and past the cool-down) finds it available
    again.  [get_proxy] returns [None] when the proxy list is empty and
    when no proxy is available. *)
Theorem get_proxy_never_returns_blocked
    (g : ProxyManager.rng) (self : ProxyManager.t) (strategy : option string)
    (t_check t_use : Q) (p : string) (duration now : Q) :
  let st := ProxyManager.stats_of (ProxyManager.proxy_stats self) p in
  ((ProxyManager.get_proxy g self strategy t_check t_use).1 = Some p ->
   ~ Props.currently_blocked st t_check)
  /\ (p <> "" ->
      (2 <= ProxyManager.failure st)%Z ->
      (ProxyManager.last_success st <= now - 60)%Q ->
      let self' := ProxyManager.mark_failure self p duration now in
      let st' := ProxyManager.stats_of (ProxyManager.proxy_stats self') p in
      ProxyManager.blocked st' = true
      /\ ProxyManager.block_until st' = (now + duration)%Q
      /\ forall g' strategy' t t',
           (t < now + duration)%Q ->
           (ProxyManager.get_proxy g' self' strategy' t t').1 <> Some p)
  /\ (ProxyManager.blocked st = true ->
      (ProxyManager.get_proxy g self strategy t_check t_use).1 = Some p ->
      (ProxyManager.block_until st <= t_check)%Q)
  /\ (p ∈ ProxyManager.proxies self ->
      (ProxyManager.block_until st <= t_check)%Q ->
      (1 <= t_check - ProxyManager.last_used st)%Q ->
      p ∈ (ProxyManager._get_available_proxies self t_check).1)
  /\ (ProxyManager.proxies self = [] ->
      (ProxyManager.get_proxy g self strategy t_check t_use).1 = None)
  /\ ((ProxyManager._get_available_proxies self t_check).1 = [] ->
      (ProxyManager.get_proxy g self strategy t_check t_use).1 = None).
Proof.
  intros st.
  assert (Hsafe : forall g0 self0 s0 t t' q,
    (ProxyManager.get_proxy g0 self0 s0 t t').1 = Some q ->
    ~ Props.currently_blocked
        (ProxyManager.stats_of (ProxyManager.proxy_stats self0) q) t).
  { intros g0 self0 s0 t t' q H.
    eapply available_not_blocked, get_proxy_from_available, H. }
  split; [apply Hsafe|]. split; [|split; [|split; [|split]]].
  - intros Hp Hf Hs self' st'.
    destruct (mark_failure_blocks self p duration now Hp Hf Hs) as [Hb Hu].
    fold self' st' in Hb, Hu. split; [exact Hb|]. split; [exact Hu|].
    intros g' strategy' t t' Ht Hget. apply Hsafe in Hget. apply Hget.
    split; [exact Hb|]. fold st'. rewrite Hu. exact Ht.
  - intros Hb Hget. apply Hsafe in Hget.
    destruct (Qlt_le_dec t_check (ProxyManager.block_until st)) as [Hlt|Hle];
      [|exact Hle].
    exfalso. apply Hget. split; assumption.
  - intros Hin Hu Hcool. rewrite get_available_fst.
    apply available_fold_selectable; [exact Hin| |exact Hcool].
    intros [_ Hlt]. fold st in Hlt. lra.
  - intros Hnil. unfold ProxyManager.get_proxy. now rewrite Hnil.
  - intros Hnil. unfold ProxyManager.get_proxy.
    destruct (ProxyManager.proxies self); [reflexivity|].
    destruct (ProxyManager._get_available_proxies self t_check) as [avail s'].
    cbn [fst] in Hnil. now rewrite Hnil.
Qed.

Lemma get_proxy_never_returns_blocked_witness :
  Examples.proxy0 <> ""
  /\ (2 <= ProxyManager.failure
            (ProxyManager.stats_of
               (ProxyManager.proxy_stats Examples.proxies_failing)
               Examples.proxy0))%Z
  /\ (ProxyManager.get_proxy Examples.generator0
        (ProxyManager.mark_failure Examples.proxies_failing Examples.proxy0 300 102)
        None 200 200).1 <> Some Examples.proxy0.
Proof.
  assert (H1 : Examples.proxy0 <> "") by discriminate.
  assert (H2 : (2 <= ProxyManager.failure
                      (ProxyManager.stats_of
                         (ProxyManager.proxy_stats Examples.proxies_failing)
                         Examples.proxy0))%Z) by (vm_compute; discriminate).
  assert (H3 : (ProxyManager.last_success
                  (ProxyManager.stats_of
                     (ProxyManager.proxy_stats Examples.proxies_failing)
                     Examples.proxy0) <= 102 - 60)%Q) by (vm_compute; discriminate).
  split; [exact H1|]. split; [exact H2|].
  destruct (get_proxy_never_returns_blocked Examples.generator0
              Examples.proxies_failing None 200 200 Examples.proxy0 300 102)
    as (_ & Hblock & _).
  destruct (Hblock H1 H2 H3) as (_ & _ & Hnever).
  apply Hnever. vm_compute. reflexivity.
Defined.

(** ** The batch route *)

Section Batch.
Import Py ParsingService.

Lemma parsed_results_list (l : list pyval) : forall results i,
  (i + length results <= length l)%nat ->
  exists entries,
    parsed_results (PList l) l i results = inr entries
    /\ length entries = length results
    /\ forall j r, results !! j = Some r ->
         exists url, l !! (i + j)%nat = Some url
                     /\ entries !! j = Some (result_entry url r).
Proof.
  induction results as [|r rest IH]; intros i Hlen.
  - exists []. repeat split. intros j r Hj. discriminate.
  - cbn [length] in Hlen. cbn [parsed_results getitem].
    destruct (l !! i) as [url|] eqn:Hi.
    2:{ apply lookup_ge_None in Hi. lia. }
    destruct (IH (S i)) as (entries & -> & Hn & Hent); [lia|].
    exists (result_entry url r :: entries). split; [reflexivity|].
    split; [cbn; now rewrite Hn|].
    intros [|j] r' Hj.
    + injection Hj as <-. exists url. rewrite Nat.add_0_r. auto.
    + destruct (Hent j r' Hj) as (u & Hu & He).
      exists u. rewrite Nat.add_succ_r. auto.
Qed.

End Batch.

(** C9: [batch_parse] answers 400 'URLs are required' when the body has no
    'urls' or an empty list, and 400 'Maximum 10 URLs per batch' when the
    list has more than ten entries; in both cases it answers at once,
    without creating a single [parse_video] task.  Whatever the body, tasks
    are created only for one to ten URLs.  For a list of one to ten URLs it
    creates one [parse_video] task per URL, in the order of the list, awaits
    them all, and answers 200 with one entry per URL, in the order of the
    list, each carrying its URL and either the data or the error that the
    task of that URL ended in. *)
Theorem batch_parse_checks_the_url_list
    (o : ParsingService.oracle) (data : Py.dict) (l : list Py.pyval) :
  let step := ParsingService.batch_parse o (Py.PDict data) in
  let options : Py.dict :=
    <["use_proxy" := Py.get data "use_proxy" (Py.PBool false)]>
      (<["cookies" := Py.get data "cookies" Py.PNone]> ∅) in
  ((data !! "urls" = None \/ data !! "urls" = Some (Py.PList [])) ->
   step = ParsingService.Answer
            {| ParsingService.status := 400;
               ParsingService.json :=
                 ParsingService.error_body "URLs are required" |})
  /\ (data !! "urls" = Some (Py.PList l) -> (10 < length l)%nat ->
      step = ParsingService.Answer
               {| ParsingService.status := 400;
                  ParsingService.json :=
                    ParsingService.error_body "Maximum 10 URLs per batch" |})
  /\ (forall tasks k, step = ParsingService.AwaitAll tasks k ->
        (1 <= length tasks <= 10)%nat)
  /\ (data !! "urls" = Some (Py.PList l) ->
      (1 <= length l)%nat -> (length l <= 10)%nat ->
      exists k,
        step = ParsingService.AwaitAll
                 (map (fun url => ParsingService.parse_video o url options) l) k
        /\ forall results : list (string + Py.pyval),
             length results = length l ->
             exists entries,
               k results
               = {| ParsingService.status := 200;
                    ParsingService.json :=
                      Py.PDict (<["success" := Py.PBool true]>
                                  (<["results" := Py.PList entries]> ∅)) |}
               /\ length entries = length l
               /\ forall i url, l !! i = Some url ->
                    exists r, results !! i = Some r
                      /\ entries !! i
                         = Some (ParsingService.result_entry url r)).
Proof.
  intros step options. unfold step, ParsingService.batch_parse.
  split; [|split; [|split]].
  - unfold Py.get. intros [-> | ->]; reflexivity.
  - unfold Py.get. intros -> Hlen. cbn [from_option id Py.iter].
    destruct l as [|x l']; [simpl in Hlen; lia|]. cbn [Py.truthy negb].
    apply Nat.ltb_lt in Hlen. now rewrite Hlen.
  - intros tasks k.
    destruct (Py.get data "urls" (Py.PList [])) as [|b|z|q|s|l0|d] eqn:Hu;
      cbn [Py.truthy Py.iter negb]; try discriminate;
      try (destruct (negb _); discriminate).
    + destruct s as [|c s]; cbn [String.eqb negb]; [discriminate|].
      assert (Hne : (1 <= length (Py.chars (String c s)))%nat)
        by (simpl; lia).
      revert Hne. generalize (Py.chars (String c s)). intros l0 Hne.
      destruct (10 <? _)%nat eqn:Hhi; [discriminate|].
      intros [= <- _]. rewrite length_map.
      apply Nat.ltb_ge in Hhi. lia.
    + destruct l0 as [|x l0]; [discriminate|].
      assert (Hne : (1 <= length (x :: l0))%nat) by (simpl; lia).
      revert Hne. generalize (x :: l0). intros l1 Hne.
      destruct (10 <? _)%nat eqn:Hhi; [discriminate|].
      intros [= <- _]. rewrite length_map.
      apply Nat.ltb_ge in Hhi. lia.
    + destruct (bool_decide (d = ∅)) eqn:Hd; cbn [negb]; [discriminate|].
      assert (Hne : (1 <= length (map (fun kv : string * Py.pyval =>
                                         Py.PStr kv.1) (map_to_list d)))%nat).
      { apply bool_decide_eq_false in Hd. rewrite length_map.
        destruct (map_to_list d) as [|kv rest] eqn:Hl; [|simpl; lia].
        apply map_to_list_empty_iff in Hl. contradiction. }
      revert Hne.
      generalize (map (fun kv : string * Py.pyval => Py.PStr kv.1)
                    (map_to_list d)).
      intros l1 Hne.
      destruct (10 <? _)%nat eqn:Hhi; [discriminate|].
      intros [= <- _]. rewrite length_map.
      apply Nat.ltb_ge in Hhi. lia.
  - subst options. unfold Py.get. intros -> Hlo Hhi.
    cbn [from_option id Py.iter].
    destruct l as [|x l']; [simpl in Hlo; lia|]. cbn [Py.truthy negb].
    apply Nat.ltb_ge in Hhi. rewrite Hhi.
    eexists. split; [reflexivity|].
    intros results Hlen.
    destruct (parsed_results_list (x :: l') results 0) as (entries & He & Hn & Hent);
      [lia|].
    exists entries. cbv beta. rewrite He. split; [reflexivity|].
    split; [lia|].
    intros i url Hi.
    destruct (results !! i) as [r|] eqn:Hr.
    + exists r. split; [reflexivity|].
      destruct (Hent i r Hr) as (u & Hu & Hentry).
      cbn [Nat.add] in Hu. rewrite Hi in Hu. injection Hu as <-. exact Hentry.
    + apply lookup_ge_None in Hr. apply lookup_lt_Some in Hi. lia.
Qed.

Lemma batch_parse_checks_the_url_list_witness :
  let data : Py.dict := <["urls" := Py.PList [Examples.url0]]> ∅ in
  let out := (ParsingService.parse_video Examples.oracle_up Examples.url0
                (<["use_proxy" := Py.PBool false]> (<["cookies" := Py.PNone]> ∅))
                Examples.service0 Examples.globals0).1.1 in
  data !! "urls" = Some (Py.PList [Examples.url0])
  /\ exists k,
       ParsingService.batch_parse Examples.oracle_up (Py.PDict data)
       = ParsingService.AwaitAll
           [ParsingService.parse_video Examples.oracle_up Examples.url0
              (<["use_proxy" := Py.PBool false]> (<["cookies" := Py.PNone]> ∅))] k
       /\ ParsingService.status (k [out]) = 200%Z.
Proof.
  intros data out.
  assert (H : data !! "urls" = Some (Py.PList [Examples.url0]))
    by (vm_compute; reflexivity).
  split; [exact H|].
  destruct (batch_parse_checks_the_url_list Examples.oracle_up data
              [Examples.url0])
    as (_ & _ & _ & Hok).
  destruct (Hok H) as (k & Hstep & Hk); [simpl; lia|simpl; lia|].
  exists k. split; [exact Hstep|].
  destruct (Hk [out] eq_refl) as (entries & -> & _). reflexivity.
Defined.

(** ** The downloader *)

Section Download.
Import Py Downloader Props.

Lemma not_exists_no_file fs path :
  path_exists fs path = false -> files fs !! path = None /\ path ∉ dirs fs.
Proof.
  unfold path_exists. intros H. apply orb_false_elim in H as [H1 H2].
  apply bool_decide_eq_false in H1, H2. split; [|exact H2].
  destruct (files fs !! path); [|reflexivity]. exfalso. apply H1. eauto.
Qed.

Lemma exists_after_write fs path content :
  path_exists (write_file fs path content) path = true.
Proof.
  unfold path_exists, write_file. cbn [files].
  rewrite lookup_insert_eq. apply orb_true_iff. left.
  apply bool_decide_eq_true. eauto.
Qed.

(** The exception handler leaves no file at [path], whatever had been
    written there. *)
Lemma handler_cleans fs path :
  path ∉ dirs fs ->
  let fs' := if path_exists fs path then unlink fs path else fs in
  files fs' !! path = None
  /\ path_exists fs' path = false
  /\ (forall q, q <> path -> files fs' !! q = files fs !! q).
Proof.
  intros Hd. destruct (path_exists fs path) eqn:E; cbn zeta.
  - unfold path_exists, unlink. cbn [files dirs]. rewrite lookup_delete_eq.
    repeat split.
    + apply orb_false_iff. split; apply bool_decide_eq_false; [|exact Hd].
      intros [? ?]; discriminate.
    + intros q Hq. now rewrite lookup_delete_ne.
  - repeat split; [|exact E]. now apply not_exists_no_file in E as [-> _].
Qed.

End Download.

(** C7: on the video branch, when the target file already exists
    [download_video] returns [True], adds one to the 'skipped' counter and
    leaves every file as it was; when the target does not exist and the
    call returns [False], no file is left at the target path (a partially
    written one has been deleted), the 'failed' counter has been
    incremented and no other file has changed; a body that breaks off
    partway makes the call return [False]. *)
Theorem download_video_skips_existing_and_removes_partial
    (repr : Py.pyval -> string)
    (session_get : string -> Downloader.http_result)
    (self : Downloader.t) (fs : Downloader.filesystem)
    (video_info : Py.dict) (save_dir : option string)
    (dir filepath : string) :
  Props.video_target repr self video_info save_dir = Some (dir, filepath) ->
  let fs0 := Downloader.mkdir fs dir in
  let out := Downloader.download_video repr session_get self fs video_info save_dir in
  (Downloader.path_exists fs0 filepath = true ->
   out = (Some true, Downloader.bump "skipped" self, fs0)
   /\ Downloader.files fs0 = Downloader.files fs
   /\ Downloader.stats (Downloader.bump "skipped" self) !! "skipped"
      = Some (default 0 (Downloader.stats self !! "skipped") + 1)%Z)
  /\ (Downloader.path_exists fs0 filepath = false ->
      (out.1.1 = Some false ->
       Downloader.files out.2 !! filepath = None
       /\ Downloader.path_exists out.2 filepath = false
       /\ out.1.2 = Downloader.bump "failed" self
       /\ forall q, q <> filepath ->
            Downloader.files out.2 !! q = Downloader.files fs !! q)
      /\ (forall u status_code content_length chunks,
            Py.get video_info "video_url" Py.PNone = Py.PStr u ->
            session_get u
            = Downloader.GetResponse status_code content_length chunks
                Downloader.Broken ->
            out.1.1 = Some false)
      /\ out.1.1 <> None).
Proof.
  intros Ht fs0 out. unfold Props.video_target in Ht.
  unfold out, Downloader.download_video.
  destruct (Py.truthy (Py.PDict video_info)); [|discriminate Ht]. cbn [negb].
  destruct (Downloader._sanitize_filename
              (Py.get video_info "title" _)) as [title|]; [|discriminate Ht].
  destruct (Downloader._sanitize_filename
              (Py.get video_info "author" _)) as [author|]; [|discriminate Ht].
  cbn [mbind option_bind] in Ht.
  destruct (Py.truthy (Py.get video_info "is_image" Py.PNone));
    [discriminate Ht|].
  destruct (Py.truthy (Py.get video_info "video_url" Py.PNone));
    [|discriminate Ht].
  injection Ht as <- <-. cbn [negb]. fold fs0.
  split.
  - intros ->. repeat split.
    unfold Downloader.bump. cbn [Downloader.stats]. now rewrite lookup_insert_eq.
  - intros Hne. rewrite Hne.
    destruct (not_exists_no_file _ _ Hne) as [Hfile Hdir].
    set (filepath := Downloader.join _ _) in *.
    assert (Hfail : forall fs1 : Downloader.filesystem,
      Downloader.dirs fs1 = Downloader.dirs fs0 ->
      (forall q, q <> filepath ->
                 Downloader.files fs1 !! q = Downloader.files fs0 !! q) ->
      let fs' := if Downloader.path_exists fs1 filepath
                 then Downloader.unlink fs1 filepath else fs1 in
      Downloader.files fs' !! filepath = None
      /\ Downloader.path_exists fs' filepath = false
      /\ forall q, q <> filepath ->
           Downloader.files fs' !! q = Downloader.files fs !! q).
    { intros fs1 Hd Hq.
      assert (Hd1 : filepath ∉ Downloader.dirs fs1) by now rewrite Hd.
      destruct (handler_cleans fs1 filepath Hd1) as (H1 & H2 & H3).
      repeat split; [exact H1|exact H2|].
      intros q Hqne. rewrite (H3 q Hqne), (Hq q Hqne). reflexivity. }
    assert (H0 := Hfail fs0 eq_refl (fun q _ => eq_refl)).
    split; [|split].
    + destruct (Py.as_str _) as [u|]; cbn [fst snd].
      2:{ intros _. destruct H0 as (? & ? & ?). repeat split; assumption. }
      destruct (session_get u) as [|st cl chunks fin]; cbn [fst snd].
      { intros _. destruct H0 as (? & ? & ?). repeat split; assumption. }
      destruct (Downloader.is_error_status st); cbn [fst snd].
      { intros _. destruct H0 as (? & ? & ?). repeat split; assumption. }
      assert (Hw := Hfail (Downloader.write_file fs0 filepath
                             (Downloader.written chunks)) eq_refl
                      (fun q Hq => lookup_insert_ne _ _ _ _ (not_eq_sym Hq))).
      destruct cl as [[n|]|]; cbn [fst snd];
        try (intros _; destruct H0 as (? & ? & ?); repeat split; assumption);
        (destruct (Downloader.can_open fs0 filepath); cbn [negb fst snd];
         [|intros _; destruct H0 as (? & ? & ?); repeat split; assumption]);
        destruct fin; cbn [fst snd]; try discriminate;
        intros _; destruct Hw as (? & ? & ?); repeat split; assumption.
    + intros u st cl chunks Hu Hs. rewrite Hu. cbn [Py.as_str]. rewrite Hs.
      destruct (Downloader.is_error_status st); [reflexivity|].
      destruct cl as [[n|]|]; try reflexivity;
        destruct (Downloader.can_open fs0 filepath); reflexivity.
    + destruct (Py.as_str _) as [u|]; [|discriminate].
      destruct (session_get u) as [|st cl chunks fin]; [discriminate|].
      destruct (Downloader.is_error_status st); [discriminate|].
      destruct cl as [[n|]|]; try discriminate;
        (destruct (Downloader.can_open fs0 filepath); [|discriminate]);
        destruct fin; discriminate.
Qed.

Lemma download_video_skips_existing_and_removes_partial_witness :
  let target := Props.video_target (fun _ => "") Examples.downloader0
                  Examples.clip0 None in
  target = Some ("downloads",
                 "downloads/someone_clip_7123456789012345678.mp4")
  /\ Downloader.files
       (Downloader.download_video (fun _ => "") Examples.session_broken
          Examples.downloader0 Examples.disk0 Examples.clip0 None).2
     !! "downloads/someone_clip_7123456789012345678.mp4" = None.
Proof.
  intros target.
  assert (H : target = Some ("downloads",
                 "downloads/someone_clip_7123456789012345678.mp4"))
    by (vm_compute; reflexivity).
  split; [exact H|].
  destruct (download_video_skips_existing_and_removes_partial
              (fun _ => "") Examples.session_broken Examples.downloader0
              Examples.disk0 Examples.clip0 None _ _ H) as [_ Hnew].
  destruct Hnew as (Hclean & _ & _); [vm_compute; reflexivity|].
  destruct Hclean as (Hf & _); [vm_compute; reflexivity|].
  exact Hf.
Defined.

(** ** Regular-expression search *)

Section Search.
Import Props.

Local Open Scope string_scope.
Local Arguments String.append !_ _ / : simpl nomatch.

Lemma strip_prefix_iff a s t : Py.strip_prefix a s = Some t <-> s = a ++ t.
Proof.
  revert s. induction a as [|x a IH]; intros s; simpl.
  - split; congruence.
  - destruct s as [|y s]; [split; discriminate|].
    destruct (Ascii.eqb x y) eqn:E.
    + apply Ascii.eqb_eq in E as ->. rewrite IH. split; congruence.
    + apply Ascii.eqb_neq in E. split; [discriminate|congruence].
Qed.

Lemma digits_sound cap : forall t,
  exists rest,
    t = Re.digits cap t ++ rest
    /\ digits_only (Re.digits cap t) = true
    /\ capped cap (String.length (Re.digits cap t))
    /\ (cap = Some (String.length (Re.digits cap t))
        \/ starts_with_digit rest = false).
Proof.
  intros t. revert cap. induction t as [|c t IH]; intros cap.
  - exists "". simpl. repeat split; auto. destruct cap; simpl; auto. lia.
  - simpl. destruct (Re.is_digit c) eqn:Ec.
    + destruct cap as [[|n]|].
      * exists (String c t). simpl. repeat split; auto.
      * destruct (IH (Some n)) as (rest & H1 & H2 & H3 & H4).
        exists rest. simpl. rewrite Ec, H2. repeat split; auto.
        -- now rewrite <- H1.
        -- simpl in H3. lia.
        -- destruct H4 as [H4|H4]; [left|now right].
           injection H4 as H4. now rewrite <- H4.
      * destruct (IH None) as (rest & H1 & H2 & _ & H4).
        exists rest. simpl. rewrite Ec, H2. repeat split; auto.
        -- now rewrite <- H1.
        -- destruct H4 as [H4|H4]; [discriminate|now right].
    + exists (String c t). simpl. repeat split; auto.
      destruct cap; simpl; auto. lia.
Qed.

Lemma digits_complete cap : forall d rest,
  digits_only d = true ->
  capped cap (String.length d) ->
  (cap = Some (String.length d) \/ starts_with_digit rest = false) ->
  Re.digits cap (d ++ rest) = d.
Proof.
  intros d. revert cap. induction d as [|c d IH]; intros cap rest Hd Hc Hm.
  - simpl. destruct rest as [|x rest]; [reflexivity|]. simpl.
    destruct (Re.is_digit x) eqn:Ex; [|reflexivity].
    destruct Hm as [->|Hm]; [reflexivity|]. simpl in Hm. congruence.
  - simpl in Hd. apply andb_true_iff in Hd as [Hc1 Hd]. simpl. rewrite Hc1.
    destruct cap as [[|n]|].
    + simpl in Hc. lia.
    + f_equal. apply IH; auto.
      * simpl in *. lia.
      * destruct Hm as [Hm|Hm]; [left|now right].
        injection Hm as Hm. now f_equal.
    + f_equal. apply IH; auto.
      destruct Hm as [Hm|Hm]; [discriminate|now right].
Qed.

Lemma match_here_iff p s d :
  Re.match_here p s = Some d <-> match_at p s "" d.
Proof.
  unfold Re.match_here, match_at. simpl. split.
  - destruct (Py.strip_prefix (Re.lit p) s) as [t|] eqn:Et; [|discriminate].
    apply strip_prefix_iff in Et as ->.
    destruct (Nat.leb_spec (Re.lo p) (String.length (Re.digits (Re.hi p) t)));
      [|discriminate].
    intros [= <-].
    destruct (digits_sound (Re.hi p) t) as (rest & H1 & H2 & H3 & H4).
    exists rest. repeat split; auto. now rewrite <- H1.
  - intros (rest & -> & Hd & Hlo & Hc & Hm).
    rewrite (proj2 (strip_prefix_iff _ _ _) eq_refl).
    rewrite (digits_complete _ _ _ Hd Hc Hm).
    apply Nat.leb_le in Hlo. now rewrite Hlo.
Qed.

Lemma match_at_cons p c s pre d :
  match_at p (String c s) (String c pre) d <-> match_at p s pre d.
Proof.
  unfold match_at. simpl. split; intros (rest & H & Hr); exists rest;
    (split; [congruence|exact Hr]).
Qed.

Lemma match_at_head p c c' s pre d :
  match_at p (String c s) (String c' pre) d -> c' = c.
Proof. intros (rest & H & _). simpl in H. congruence. Qed.

Lemma search_absent p : forall s, Re.search p s = None <-> absent p s.
Proof.
  induction s as [|c s IH]; simpl.
  - destruct (Re.match_here p "") as [d|] eqn:E.
    + split; [discriminate|]. intros H. exfalso.
      apply (H "" d). now apply match_here_iff.
    + split; [|reflexivity]. intros _ pre d Hm.
      destruct pre as [|x pre].
      * apply match_here_iff in Hm. congruence.
      * destruct Hm as (rest & H & _). simpl in H. discriminate.
  - destruct (Re.match_here p (String c s)) as [d|] eqn:E.
    + split; [discriminate|]. intros H. exfalso.
      apply (H "" d). now apply match_here_iff.
    + rewrite IH. split.
      * intros Ha pre d Hm. destruct pre as [|x pre].
        -- apply match_here_iff in Hm. congruence.
        -- pose proof (match_at_head _ _ _ _ _ _ Hm) as ->.
           apply match_at_cons in Hm. exact (Ha _ _ Hm).
      * intros Ha pre d Hm. apply (Ha (String c pre) d).
        now apply match_at_cons.
Qed.

Lemma search_found p : forall s d, Re.search p s = Some d <-> found p s d.
Proof.
  induction s as [|c s IH]; intros d; simpl.
  - destruct (Re.match_here p "") as [d0|] eqn:E.
    + split.
      * intros [= <-]. exists "". split; [now apply match_here_iff|].
        intros pre' d' Hlt. simpl in Hlt. lia.
      * intros (pre & Hm & _). destruct pre as [|x pre].
        -- apply match_here_iff in Hm. congruence.
        -- destruct Hm as (rest & H & _). simpl in H. discriminate.
    + split; [discriminate|].
      intros (pre & Hm & _). destruct pre as [|x pre].
      * apply match_here_iff in Hm. congruence.
      * destruct Hm as (rest & H & _). simpl in H. discriminate.
  - destruct (Re.match_here p (String c s)) as [d0|] eqn:E.
    + split.
      * intros [= <-]. exists "". split; [now apply match_here_iff|].
        intros pre' d' Hlt. simpl in Hlt. lia.
      * intros (pre & Hm & Hleft). destruct pre as [|x pre].
        -- apply match_here_iff in Hm. congruence.
        -- exfalso. apply (Hleft "" d0); [simpl; lia|].
           now apply match_here_iff.
    + rewrite IH. split.
      * intros (pre & Hm & Hleft). exists (String c pre). split.
        -- now apply match_at_cons.
        -- intros pre' d' Hlt Hm'. destruct pre' as [|x pre'].
           ++ apply match_here_iff in Hm'. congruence.
           ++ pose proof (match_at_head _ _ _ _ _ _ Hm') as ->.
              apply match_at_cons in Hm'.
              apply (Hleft pre' d'); [simpl in Hlt; lia|exact Hm'].
      * intros (pre & Hm & Hleft). destruct pre as [|x pre].
        -- apply match_here_iff in Hm. congruence.
        -- pose proof (match_at_head _ _ _ _ _ _ Hm) as ->.
           exists pre. split; [now apply match_at_cons in Hm|].
           intros pre' d' Hlt Hm'. apply (Hleft (String c pre') d').
           ++ simpl. lia.
           ++ now apply match_at_cons.
Qed.

End Search.

Section Extract.
Import BaseStrategy Props.

Lemma extract_video_id_first_match url :
  extract_video_id url = first_match patterns url.
Proof.
  unfold extract_video_id.
  destruct (first_match patterns url); [reflexivity|].
  now destruct (Py.str_contains _ _).
Qed.

End Extract.

(** ** Searching a [str] *)

Section WideSearch.
Import Props.
Variable decimal : N -> bool.

Local Open Scope list_scope.

Lemma wide_strip_prefix_iff a : forall s t,
  Unicode.strip_prefix a s = Some t <-> s = a ++ t.
Proof.
  induction a as [|x a IH]; intros s t; simpl.
  - split; congruence.
  - destruct s as [|y s]; [split; discriminate|].
    destruct (N.eqb_spec x y) as [->|Hne].
    + rewrite IH. split; congruence.
    + split; [discriminate|congruence].
Qed.

Lemma wide_digits_sound cap : forall t,
  exists rest,
    t = Unicode.digits decimal cap t ++ rest
    /\ forallb decimal (Unicode.digits decimal cap t) = true
    /\ capped cap (length (Unicode.digits decimal cap t))
    /\ (cap = Some (length (Unicode.digits decimal cap t))
        \/ starts_decimal decimal rest = false).
Proof.
  intros t. revert cap. induction t as [|c t IH]; intros cap.
  - exists []. simpl. repeat split; auto. destruct cap; simpl; auto. lia.
  - simpl. destruct (decimal c) eqn:Ec.
    + destruct cap as [[|n]|].
      * exists (c :: t). simpl. repeat split; auto.
      * destruct (IH (Some n)) as (rest & H1 & H2 & H3 & H4).
        exists rest. simpl. rewrite Ec, H2. repeat split; auto.
        -- now rewrite <- H1.
        -- simpl in H3. lia.
        -- destruct H4 as [H4|H4]; [left|now right].
           injection H4 as H4. now rewrite <- H4.
      * destruct (IH None) as (rest & H1 & H2 & _ & H4).
        exists rest. simpl. rewrite Ec, H2. repeat split; auto.
        -- now rewrite <- H1.
        -- destruct H4 as [H4|H4]; [discriminate|now right].
    + exists (c :: t). simpl. repeat split; auto.
      destruct cap; simpl; auto. lia.
Qed.

Lemma wide_digits_complete cap : forall d rest,
  forallb decimal d = true ->
  capped cap (length d) ->
  (cap = Some (length d) \/ starts_decimal decimal rest = false) ->
  Unicode.digits decimal cap (d ++ rest) = d.
Proof.
  intros d. revert cap. induction d as [|c d IH]; intros cap rest Hd Hc Hm.
  - simpl. destruct rest as [|x rest]; [reflexivity|]. simpl.
    destruct (decimal x) eqn:Ex; [|reflexivity].
    destruct Hm as [->|Hm]; [reflexivity|]. simpl in Hm. congruence.
  - simpl in Hd. apply andb_true_iff in Hd as [Hc1 Hd]. simpl. rewrite Hc1.
    destruct cap as [[|n]|].
    + simpl in Hc. lia.
    + f_equal. apply IH; auto.
      * simpl in *. lia.
      * destruct Hm as [Hm|Hm]; [left|now right].
        injection Hm as Hm. now f_equal.
    + f_equal. apply IH; auto.
      destruct Hm as [Hm|Hm]; [discriminate|now right].
Qed.

Lemma wide_match_here_iff p s d :
  Unicode.match_here decimal p s = Some d <-> umatch_at decimal p s [] d.
Proof.
  unfold Unicode.match_here, umatch_at. simpl. split.
  - destruct (Unicode.strip_prefix _ s) as [t|] eqn:Et; [|discriminate].
    apply wide_strip_prefix_iff in Et as ->.
    destruct (Nat.leb_spec (Re.lo p)
                (length (Unicode.digits decimal (Re.hi p) t))); [|discriminate].
    intros [= <-].
    destruct (wide_digits_sound (Re.hi p) t) as (rest & H1 & H2 & H3 & H4).
    exists rest. repeat split; auto. now rewrite <- H1.
  - intros (rest & -> & Hd & Hlo & Hc & Hm).
    rewrite (proj2 (wide_strip_prefix_iff _ _ _) eq_refl).
    rewrite (wide_digits_complete _ _ _ Hd Hc Hm).
    apply Nat.leb_le in Hlo. now rewrite Hlo.
Qed.

Lemma umatch_at_cons p c s pre d :
  umatch_at decimal p (c :: s) (c :: pre) d <-> umatch_at decimal p s pre d.
Proof.
  unfold umatch_at. simpl. split; intros (rest & H & Hr); exists rest;
    (split; [congruence|exact Hr]).
Qed.

Lemma umatch_at_head p c c' s pre d :
  umatch_at decimal p (c :: s) (c' :: pre) d -> c' = c.
Proof. intros (rest & H & _). simpl in H. congruence. Qed.

Lemma umatch_at_nil p x pre d : ~ umatch_at decimal p [] (x :: pre) d.
Proof. intros (rest & H & _). simpl in H. discriminate. Qed.

Lemma wide_search_absent p : forall s,
  Unicode.search decimal p s = None <-> uabsent decimal p s.
Proof.
  induction s as [|c s IH]; simpl.
  - destruct (Unicode.match_here decimal p []) as [d|] eqn:E.
    + split; [discriminate|]. intros H. exfalso.
      apply (H [] d). now apply wide_match_here_iff.
    + split; [|reflexivity]. intros _ pre d Hm.
      destruct pre as [|x pre].
      * apply wide_match_here_iff in Hm. congruence.
      * exact (umatch_at_nil _ _ _ _ Hm).
  - destruct (Unicode.match_here decimal p (c :: s)) as [d|] eqn:E.
    + split; [discriminate|]. intros H. exfalso.
      apply (H [] d). now apply wide_match_here_iff.
    + rewrite IH. split.
      * intros Ha pre d Hm. destruct pre as [|x pre].
        -- apply wide_match_here_iff in Hm. congruence.
        -- pose proof (umatch_at_head _ _ _ _ _ _ Hm) as ->.
           apply umatch_at_cons in Hm. exact (Ha _ _ Hm).
      * intros Ha pre d Hm. apply (Ha (c :: pre) d).
        now apply umatch_at_cons.
Qed.

Lemma wide_search_found p : forall s d,
  Unicode.search decimal p s = Some d <-> ufound decimal p s d.
Proof.
  induction s as [|c s IH]; intros d; simpl.
  - destruct (Unicode.match_here decimal p []) as [d0|] eqn:E.
    + split.
      * intros [= <-]. exists []. split; [now apply wide_match_here_iff|].
        intros pre' d' Hlt. simpl in Hlt. lia.
      * intros (pre & Hm & _). destruct pre as [|x pre].
        -- apply wide_match_here_iff in Hm. congruence.
        -- destruct (umatch_at_nil _ _ _ _ Hm).
    + split; [discriminate|].
      intros (pre & Hm & _). destruct pre as [|x pre].
      * apply wide_match_here_iff in Hm. congruence.
      * destruct (umatch_at_nil _ _ _ _ Hm).
  - destruct (Unicode.match_here decimal p (c :: s)) as [d0|] eqn:E.
    + split.
      * intros [= <-]. exists []. split; [now apply wide_match_here_iff|].
        intros pre' d' Hlt. simpl in Hlt. lia.
      * intros (pre & Hm & Hleft). destruct pre as [|x pre].
        -- apply wide_match_here_iff in Hm. congruence.
        -- exfalso. apply (Hleft [] d0); [simpl; lia|].
           now apply wide_match_here_iff.
    + rewrite IH. split.
      * intros (pre & Hm & Hleft). exists (c :: pre). split.
        -- now apply umatch_at_cons.
        -- intros pre' d' Hlt Hm'. destruct pre' as [|x pre'].
           ++ apply wide_match_here_iff in Hm'. congruence.
           ++ pose proof (umatch_at_head _ _ _ _ _ _ Hm') as ->.
              apply umatch_at_cons in Hm'.
              apply (Hleft pre' d'); [simpl in Hlt; lia|exact Hm'].
      * intros (pre & Hm & Hleft). destruct pre as [|x pre].
        -- apply wide_match_here_iff in Hm. congruence.
        -- pose proof (umatch_at_head _ _ _ _ _ _ Hm) as ->.
           exists pre. split; [now apply umatch_at_cons in Hm|].
           intros pre' d' Hlt Hm'. apply (Hleft (c :: pre') d').
           ++ simpl. lia.
           ++ now apply umatch_at_cons.
Qed.

Lemma wide_first_match_some ps url id :
  Unicode.first_match decimal ps url = Some id <->
  exists i p, ps !! i = Some p /\ Unicode.search decimal p url = Some id
    /\ forall j p', (j < i)%nat -> ps !! j = Some p' ->
                    Unicode.search decimal p' url = None.
Proof.
  induction ps as [|q ps IH]; simpl.
  - split; [discriminate|]. intros (i & p & H & _). discriminate H.
  - destruct (Unicode.search decimal q url) as [d|] eqn:E.
    + split.
      * intros [= <-]. exists 0%nat, q. repeat split; auto. intros j p' Hj. lia.
      * intros (i & p & Hi & Hs & Hleft). destruct i as [|i].
        -- injection Hi as <-. congruence.
        -- specialize (Hleft 0%nat q (Nat.lt_0_succ _) eq_refl). congruence.
    + rewrite IH. split.
      * intros (i & p & Hi & Hs & Hleft). exists (S i), p. repeat split; auto.
        intros [|j] p' Hj Hp'; [injection Hp' as <-; exact E|].
        apply (Hleft j p'); [lia|exact Hp'].
      * intros (i & p & Hi & Hs & Hleft). destruct i as [|i].
        -- injection Hi as <-. congruence.
        -- exists i, p. repeat split; auto.
           intros j p' Hj Hp'. apply (Hleft (S j) p'); [lia|exact Hp'].
Qed.

Lemma wide_first_match_none ps url :
  Unicode.first_match decimal ps url = None <->
  forall p, p ∈ ps -> Unicode.search decimal p url = None.
Proof.
  induction ps as [|q ps IH]; simpl.
  - split; [|reflexivity]. intros _ p Hp. inversion Hp.
  - destruct (Unicode.search decimal q url) as [d|] eqn:E.
    + split; [discriminate|]. intros H.
      specialize (H q (list_elem_of_here _ _)). congruence.
    + rewrite IH. split.
      * intros H p Hp. apply elem_of_cons in Hp as [->|Hp]; auto.
      * intros H p Hp. apply H. now apply list_elem_of_further.
Qed.

Lemma wide_extract_first_match url :
  Unicode.extract_video_id decimal url
  = Unicode.first_match decimal BaseStrategy.patterns url.
Proof.
  unfold Unicode.extract_video_id.
  destruct (Unicode.first_match _ _ _); [reflexivity|].
  now destruct (Unicode.contains _ _).
Qed.

End WideSearch.

(** ** Latin-1 text inside [str] *)

Section Latin.
Import Props.

Local Open Scope list_scope.

Lemma of_string_cons c (s : string) :
  Unicode.of_string (String c s) = N_of_ascii c :: Unicode.of_string s.
Proof. reflexivity. Qed.

Lemma code_eqb a b : N.eqb (N_of_ascii a) (N_of_ascii b) = Ascii.eqb a b.
Proof.
  destruct (Ascii.eqb_spec a b) as [->|Hne]; [apply N.eqb_refl|].
  apply N.eqb_neq. intros H. apply Hne.
  rewrite <- (ascii_N_embedding a), <- (ascii_N_embedding b). now rewrite H.
Qed.

Lemma latin_digit decimal (c : ascii) :
  latin_decimal decimal -> decimal (N_of_ascii c) = Re.is_digit c.
Proof.
  intros H. rewrite (H _ (N_ascii_bounded c)). unfold Re.is_digit, nat_of_ascii.
  destruct (N.leb_spec 48 (N_of_ascii c)), (Nat.leb_spec 48 (N.to_nat (N_of_ascii c)));
    destruct (N.leb_spec (N_of_ascii c) 57), (Nat.leb_spec (N.to_nat (N_of_ascii c)) 57);
    try reflexivity; lia.
Qed.

Lemma latin_strip_prefix a : forall s,
  Unicode.strip_prefix (Unicode.of_string a) (Unicode.of_string s)
  = option_map Unicode.of_string (Py.strip_prefix a s).
Proof.
  induction a as [|x a IH]; intros s; [reflexivity|].
  destruct s as [|y s]; [reflexivity|].
  rewrite !of_string_cons. cbn [Unicode.strip_prefix Py.strip_prefix].
  rewrite code_eqb. destruct (Ascii.eqb x y); [apply IH|reflexivity].
Qed.

Lemma latin_digits decimal cap :
  latin_decimal decimal ->
  forall s, Unicode.digits decimal cap (Unicode.of_string s)
            = Unicode.of_string (Re.digits cap s).
Proof.
  intros H s. revert cap. induction s as [|c s IH]; intros cap; [reflexivity|].
  rewrite of_string_cons. cbn [Unicode.digits Re.digits].
  rewrite (latin_digit decimal c H).
  destruct (Re.is_digit c); [|reflexivity].
  destruct cap as [[|n]|]; [reflexivity| |]; rewrite of_string_cons, IH;
    reflexivity.
Qed.

Lemma of_string_length s : length (Unicode.of_string s) = String.length s.
Proof.
  unfold Unicode.of_string. rewrite length_map.
  induction s as [|c s IH]; simpl; [reflexivity|now rewrite IH].
Qed.

Lemma latin_match_here decimal p s :
  latin_decimal decimal ->
  Unicode.match_here decimal p (Unicode.of_string s)
  = option_map Unicode.of_string (Re.match_here p s).
Proof.
  intros H. unfold Unicode.match_here, Re.match_here.
  rewrite latin_strip_prefix.
  destruct (Py.strip_prefix (Re.lit p) s) as [rest|]; [|reflexivity].
  cbn [option_map]. rewrite (latin_digits decimal _ H), of_string_length.
  now destruct (_ <=? _)%nat.
Qed.

Lemma latin_search decimal p :
  latin_decimal decimal ->
  forall s, Unicode.search decimal p (Unicode.of_string s)
            = option_map Unicode.of_string (Re.search p s).
Proof.
  intros H. induction s as [|c s IH].
  - change (Unicode.search decimal p (Unicode.of_string ""))
      with (match Unicode.match_here decimal p (Unicode.of_string "") with
            | Some d => Some d
            | None => None
            end).
    rewrite (latin_match_here decimal p "" H). cbn [Re.search].
    now destruct (Re.match_here p "").
  - change (Unicode.search decimal p (Unicode.of_string (String c s)))
      with (match Unicode.match_here decimal p (Unicode.of_string (String c s)) with
            | Some d => Some d
            | None => Unicode.search decimal p (Unicode.of_string s)
            end).
    rewrite (latin_match_here decimal p _ H). cbn [Re.search].
    destruct (Re.match_here p (String c s)); [reflexivity|exact IH].
Qed.

Lemma latin_extract decimal (url : string) :
  latin_decimal decimal ->
  Unicode.extract_video_id decimal (Unicode.of_string url)
  = option_map Unicode.of_string (BaseStrategy.extract_video_id url).
Proof.
  intros H. rewrite wide_extract_first_match, extract_video_id_first_match.
  induction BaseStrategy.patterns as [|p ps IH]; [reflexivity|].
  cbn [Unicode.first_match BaseStrategy.first_match].
  rewrite (latin_search decimal p H).
  destruct (Re.search p url); [reflexivity|exact IH].
Qed.

Lemma latin_contains a : forall s,
  Unicode.contains (Unicode.of_string a) (Unicode.of_string s)
  = Py.str_contains a s.
Proof.
  induction s as [|c s IH].
  - change (Unicode.contains (Unicode.of_string a) (Unicode.of_string ""))
      with (match Unicode.strip_prefix (Unicode.of_string a)
                    (Unicode.of_string "") with
            | Some _ => true
            | None => false
            end).
    rewrite latin_strip_prefix. cbn [Py.str_contains].
    now destruct (Py.strip_prefix a "").
  - change (Unicode.contains (Unicode.of_string a)
              (Unicode.of_string (String c s)))
      with (match Unicode.strip_prefix (Unicode.of_string a)
                    (Unicode.of_string (String c s)) with
            | Some _ => true
            | None => Unicode.contains (Unicode.of_string a) (Unicode.of_string s)
            end).
    rewrite latin_strip_prefix. cbn [Py.str_contains].
    destruct (Py.strip_prefix a (String c s)); [reflexivity|exact IH].
Qed.

End Latin.

(** C5: on every [str], [extract_video_id] returns group 1 of the first
    pattern, in the order /video/(\d+), /note/(\d+), modal_id=(\d+),
    aweme_id=(\d+), /(\d{15,20}), that matches somewhere in the URL: the
    decimal digits (in the sense of [\d], which on [str] takes in the
    digits of every script) that follow the leftmost occurrence of the
    literal followed by enough digits, as many as the pattern and the text
    allow.  It returns [None] exactly when none of the five patterns
    matches, whether or not the URL is a v.douyin.com link, as for the
    short link https://v.douyin.com/iRNBho6u/.  On text below code point
    256 it is the function of module [BaseStrategy]. *)
Theorem extract_video_id_first_matching_pattern
    (decimal : N -> bool) (url : list N) :
  BaseStrategy.patterns
  = [ {| Re.lit := "/video/"; Re.lo := 1; Re.hi := None |};
      {| Re.lit := "/note/"; Re.lo := 1; Re.hi := None |};
      {| Re.lit := "modal_id="; Re.lo := 1; Re.hi := None |};
      {| Re.lit := "aweme_id="; Re.lo := 1; Re.hi := None |};
      {| Re.lit := "/"; Re.lo := 15; Re.hi := Some 20%nat |} ]
  /\ (forall id,
        Unicode.extract_video_id decimal url = Some id <->
        exists i p,
          BaseStrategy.patterns !! i = Some p
          /\ Props.ufound decimal p url id
          /\ forall j p', (j < i)%nat -> BaseStrategy.patterns !! j = Some p' ->
                          Props.uabsent decimal p' url)
  /\ (Unicode.extract_video_id decimal url = None <->
      forall p, p ∈ BaseStrategy.patterns -> Props.uabsent decimal p url)
  /\ (Unicode.contains (Unicode.of_string "v.douyin.com") url = true ->
      (forall p, p ∈ BaseStrategy.patterns -> Props.uabsent decimal p url) ->
      Unicode.extract_video_id decimal url = None)
  /\ (Props.latin_decimal decimal ->
      (forall s : string,
         Unicode.extract_video_id decimal (Unicode.of_string s)
         = option_map Unicode.of_string (BaseStrategy.extract_video_id s))
      /\ Unicode.contains (Unicode.of_string "v.douyin.com")
           (Unicode.of_string Examples.short_link0) = true
      /\ Unicode.extract_video_id decimal
           (Unicode.of_string Examples.short_link0) = None).
Proof.
  split; [reflexivity|].
  assert (Hnone : Unicode.extract_video_id decimal url = None <->
                  forall p, p ∈ BaseStrategy.patterns ->
                            Props.uabsent decimal p url).
  { rewrite wide_extract_first_match, wide_first_match_none.
    split; intros H p Hp; apply wide_search_absent, H, Hp. }
  split; [|split; [exact Hnone|split]].
  - intros id. rewrite wide_extract_first_match, wide_first_match_some.
    split; intros (i & p & Hi & Hs & Hleft); exists i, p;
      (split; [exact Hi|]); (split; [now apply wide_search_found|]);
      intros j p' Hj Hp'; apply wide_search_absent; eauto.
  - intros _ H. now apply Hnone.
  - intros Hl. split; [intros s; now apply latin_extract|]. split.
    + rewrite latin_contains. vm_compute. reflexivity.
    + rewrite (latin_extract decimal _ Hl). vm_compute. reflexivity.
Qed.

Lemma extract_video_id_first_matching_pattern_witness :
  Unicode.extract_video_id ExamplesExt.decimal0 ExamplesExt.url_arabic
  = Some [1633; 1634; 1635]%N
  /\ exists i p,
       BaseStrategy.patterns !! i = Some p
       /\ Props.ufound ExamplesExt.decimal0 p ExamplesExt.url_arabic
            [1633; 1634; 1635]%N
       /\ forall j p', (j < i)%nat -> BaseStrategy.patterns !! j = Some p' ->
                       Props.uabsent ExamplesExt.decimal0 p' ExamplesExt.url_arabic.
Proof.
  assert (H : Unicode.extract_video_id ExamplesExt.decimal0 ExamplesExt.url_arabic
              = Some [1633; 1634; 1635]%N)
    by (vm_compute; reflexivity).
  split; [exact H|].
  destruct (extract_video_id_first_matching_pattern ExamplesExt.decimal0
              ExamplesExt.url_arabic) as (_ & Hsome & _).
  apply (proj1 (Hsome [1633; 1634; 1635]%N) H).
Defined.

(** C4: [_resolve_short_url] issues exactly one request, for the short
    link and with redirects switched off.  When the response has a
    Location header whose value contains /video/ or /share/video/ followed
    by digits, the result is https://www.douyin.com/video/ followed by the
    digits captured there; when it contains neither, the result is the
    Location value; without a Location header, or when the request raises,
    the result is the URL that was passed in. *)
Theorem resolve_short_url_follows_location
    (requests_get : WebParser.request -> WebParser.http_result) (url : string) :
  let rq := {| WebParser.req_url := url; WebParser.allow_redirects := false |} in
  let out := WebParser._resolve_short_url requests_get url in
  out.2 = [rq]
  /\ (forall status_code headers location,
        requests_get rq = WebParser.HttpResponse status_code headers ->
        WebParser.header headers "Location" = Some location ->
        let contains :=
          (exists pre id, Props.match_at WebParser.video_pattern location pre id)
          \/ (exists pre id,
                Props.match_at WebParser.share_video_pattern location pre id) in
        (contains ->
         exists id,
           out.1 = "https://www.douyin.com/video/" ++ id
           /\ (Props.found WebParser.video_pattern location id
               \/ Props.found WebParser.share_video_pattern location id))
        /\ (~ contains -> out.1 = location))
  /\ (forall status_code headers,
        requests_get rq = WebParser.HttpResponse status_code headers ->
        WebParser.header headers "Location" = None ->
        out.1 = url)
  /\ (requests_get rq = WebParser.HttpError -> out.1 = url).
Proof.
  intros rq out. unfold out, WebParser._resolve_short_url. fold rq.
  split; [|split; [|split]].
  - destruct (requests_get rq) as [|st headers]; [reflexivity|].
    destruct (WebParser.header headers "Location"); [|reflexivity].
    destruct (Re.search WebParser.video_pattern s); [reflexivity|].
    destruct (Re.search WebParser.share_video_pattern s); reflexivity.
  - intros st headers location -> ->.
    destruct (Re.search WebParser.video_pattern location) as [m|] eqn:Ev.
    + split; [|intros Hn; exfalso; apply Hn; left].
      * intros _. exists m. split; [reflexivity|]. left. now apply search_found.
      * apply search_found in Ev as (pre & Hm & _). eauto.
    + destruct (Re.search WebParser.share_video_pattern location) as [m|] eqn:Es.
      * split; [|intros Hn; exfalso; apply Hn; right].
        -- intros _. exists m. split; [reflexivity|]. right. now apply search_found.
        -- apply search_found in Es as (pre & Hm & _). eauto.
      * split; [|reflexivity].
        intros [(pre & id & Hm)|(pre & id & Hm)]; exfalso.
        -- apply search_absent in Ev. exact (Ev _ _ Hm).
        -- apply search_absent in Es. exact (Es _ _ Hm).
  - intros st headers -> ->. reflexivity.
  - intros ->. reflexivity.
Qed.

Lemma resolve_short_url_follows_location_witness :
  let rq := {| WebParser.req_url := Examples.short_link0;
               WebParser.allow_redirects := false |} in
  let location :=
    "https://www.iesdouyin.com/share/video/7123456789012345678/?region=CN" in
  Examples.redirect0 rq
  = WebParser.HttpResponse 302 (<["location" := location]> ∅)
  /\ WebParser.header (<["location" := location]> ∅) "Location" = Some location
  /\ exists id,
       (WebParser._resolve_short_url Examples.redirect0 Examples.short_link0).1
       = "https://www.douyin.com/video/" ++ id.
Proof.
  intros rq location.
  assert (H1 : Examples.redirect0 rq
               = WebParser.HttpResponse 302 (<["location" := location]> ∅))
    by reflexivity.
  assert (H2 : WebParser.header (<["location" := location]> ∅) "Location"
               = Some location) by (vm_compute; reflexivity).
  split; [exact H1|]. split; [exact H2|].
  destruct (resolve_short_url_follows_location Examples.redirect0
              Examples.short_link0) as (_ & Hloc & _).
  destruct (Hloc 302%Z _ location H1 H2) as [Hyes _].
  destruct Hyes as (id & Hid & _).
  - right. exists "https://www.iesdouyin.com", "7123456789012345678".
    exists "/?region=CN". repeat split; try reflexivity.
    + vm_compute. lia.
    + right. reflexivity.
  - exists id. exact Hid.
Defined.

(** * Further properties *)

(** ** The cache: isolation, deletion, expiry, warm-up *)

Section CacheMore.
Import Py CacheManager CacheManagerExt.

Lemma make_key_bump md5 k c key :
  _make_key md5 (bump k c) key = _make_key md5 c key.
Proof. destruct key; reflexivity. Qed.

Lemma set_true_inv md5 up now c key value ttl c' :
  set md5 up now c key value ttl = (true, c') ->
  exists cache_key,
    _make_key md5 c key = Some cache_key
    /\ up = true
    /\ (0 < ttl_or_default c ttl)%Z
    /\ redis c'
       = <[cache_key := {| document := cache_data value now (ttl_or_default c ttl);
                           expire_at := (now + inject_Z (ttl_or_default c ttl))%Q |}]>
           (redis c)
    /\ prefix c' = prefix c.
Proof.
  unfold set. destruct (_make_key md5 c key) as [ck|]; [|discriminate].
  destruct up; [|discriminate]. cbn [andb].
  destruct (0 <? ttl_or_default c ttl)%Z eqn:E; [|discriminate]. cbn [andb].
  destruct (ttl_or_default c ttl * 1000 <? _)%Z; [|discriminate].
  intros [= <-]. exists ck. apply Z.ltb_lt in E. repeat split; auto.
Qed.

Lemma make_key_prefix md5 c c' key :
  prefix c' = prefix c -> _make_key md5 c' key = _make_key md5 c key.
Proof. intros H. destruct key; simpl; try reflexivity. now rewrite H. Qed.

Lemma set_effect md5 up now c key value ttl :
  let c' := (set md5 up now c key value ttl).2 in
  prefix c' = prefix c
  /\ (redis c' = redis c
      \/ exists ck e, _make_key md5 c key = Some ck
                      /\ redis c' = <[ck := e]> (redis c)).
Proof.
  unfold set. destruct (_make_key md5 c key) as [ck|]; [|now auto].
  destruct (up && _ && _); [|now auto].
  split; [reflexivity|]. right. eauto.
Qed.

End CacheMore.

(** X1: a [set] under one key leaves what [get] returns for every key
    with a different cache key as it was, and [get] itself never changes
    the stored entries. *)
Theorem cache_set_leaves_other_keys
    (md5 : string -> string) (up up' : bool) (now now' : Q)
    (c : CacheManager.t) (key key' value : Py.pyval) (ttl : option Z) :
  CacheManager._make_key md5 c key <> CacheManager._make_key md5 c key' ->
  let c' := (CacheManager.set md5 up now c key value ttl).2 in
  (CacheManager.get md5 up' now' c' key').1
  = (CacheManager.get md5 up' now' c key').1
  /\ CacheManager.redis (CacheManager.get md5 up' now' c key').2
     = CacheManager.redis c.
Proof.
  intros Hne c'. split.
  - destruct (set_effect md5 up now c key value ttl) as [Hp Hr]. fold c' in Hp, Hr.
    unfold CacheManager.get. rewrite (make_key_prefix md5 c c' key' Hp).
    destruct (CacheManager._make_key md5 c key') as [ck'|] eqn:Ek'; [|reflexivity].
    destruct up'; [|reflexivity].
    assert (Hg : CacheManager.redis_get c' ck' now'
                 = CacheManager.redis_get c ck' now').
    { unfold CacheManager.redis_get.
      destruct Hr as [-> | (ck & e & Hk & ->)]; [reflexivity|].
      rewrite lookup_insert_ne by congruence. reflexivity. }
    rewrite Hg. destruct (CacheManager.redis_get c ck' now'); reflexivity.
  - unfold CacheManager.get.
    destruct (CacheManager._make_key md5 c key'); [|reflexivity].
    destruct up'; [|reflexivity].
    destruct (CacheManager.redis_get c s now'); reflexivity.
Qed.

Lemma cache_set_leaves_other_keys_witness :
  let c := CacheManager.__init__ ∅ in
  CacheManager._make_key (fun s => s) c (Py.PStr "a")
  <> CacheManager._make_key (fun s => s) c (Py.PStr "b")
  /\ (CacheManager.get (fun s => s) true 5
        (CacheManager.set (fun s => s) true 0 c (Py.PStr "a") Py.PNone None).2
        (Py.PStr "b")).1
     = (CacheManager.get (fun s => s) true 5 c (Py.PStr "b")).1.
Proof.
  intros c.
  assert (H : CacheManager._make_key (fun s => s) c (Py.PStr "a")
              <> CacheManager._make_key (fun s => s) c (Py.PStr "b"))
    by (vm_compute; discriminate).
  split; [exact H|].
  apply (proj1 (cache_set_leaves_other_keys (fun s => s) true true 0 5 c
                  (Py.PStr "a") (Py.PStr "b") Py.PNone None H)).
Defined.

(** X2: after a successful [set] and before the entry expires, [exists]
    holds and [delete] succeeds; after the [delete], [get] returns [None],
    [exists] fails and a second [delete] returns [False]. *)
Theorem cache_delete_removes_entry
    (md5 : string -> string) (up : bool) (now t1 t2 : Q)
    (c c' : CacheManager.t) (key value : Py.pyval) (ttl : option Z) :
  CacheManager.set md5 up now c key value ttl = (true, c') ->
  (t1 < now + inject_Z (CacheManager.ttl_or_default c ttl))%Q ->
  let d := CacheManagerExt.delete md5 true t1 c' key in
  CacheManagerExt.exists_ md5 true t1 c' key = true
  /\ d.1 = true
  /\ (CacheManager.get md5 true t2 d.2 key).1 = None
  /\ CacheManagerExt.exists_ md5 true t2 d.2 key = false
  /\ (CacheManagerExt.delete md5 true t2 d.2 key).1 = false.
Proof.
  intros Hset Hlt d.
  destruct (set_true_inv _ _ _ _ _ _ _ _ Hset) as (ck & Hk & _ & _ & Hr & Hp).
  assert (Hk' : CacheManager._make_key md5 c' key = Some ck)
    by now rewrite (make_key_prefix md5 c c' key Hp).
  assert (Hex : CacheManagerExt.redis_exists c' ck t1 = true).
  { unfold CacheManagerExt.redis_exists, CacheManager.redis_get.
    rewrite Hr, lookup_insert_eq. cbn [CacheManager.expire_at].
    destruct (Qlt_le_dec _ _) as [Hgt|_]; [|reflexivity].
    exfalso. exact (Qlt_irrefl _ (Qlt_trans _ _ _ Hlt Hgt)). }
  assert (Hd : d = (true, CacheManager.bump "deletes"
                      {| CacheManager.redis := base.delete ck (CacheManager.redis c');
                         CacheManager.prefix := CacheManager.prefix c';
                         CacheManager.default_ttl := CacheManager.default_ttl c';
                         CacheManager.stats := CacheManager.stats c' |})).
  { unfold d, CacheManagerExt.delete. now rewrite Hk', Hex. }
  assert (Hgone : forall t, CacheManager.redis_get d.2 ck t = None).
  { intros t. rewrite Hd. unfold CacheManager.redis_get. simpl.
    now rewrite lookup_delete_eq. }
  assert (Hk2 : CacheManager._make_key md5 d.2 key = Some ck).
  { rewrite Hd. cbn [snd]. rewrite make_key_bump, <- Hk'.
    apply make_key_prefix. reflexivity. }
  split; [|split; [|split; [|split]]].
  - unfold CacheManagerExt.exists_. now rewrite Hk', Hex.
  - now rewrite Hd.
  - unfold CacheManager.get. now rewrite Hk2, Hgone.
  - unfold CacheManagerExt.exists_, CacheManagerExt.redis_exists.
    now rewrite Hk2, Hgone.
  - unfold CacheManagerExt.delete, CacheManagerExt.redis_exists.
    now rewrite Hk2, Hgone.
Qed.

Lemma cache_delete_removes_entry_witness :
  let c := CacheManager.__init__ ∅ in
  let c' := (CacheManager.set (fun s => s) true 1000 c Examples.url0
               (Py.PDict Examples.record0) (Some 3600%Z)).2 in
  CacheManager.set (fun s => s) true 1000 c Examples.url0
    (Py.PDict Examples.record0) (Some 3600%Z) = (true, c')
  /\ (CacheManager.get (fun s => s) true 1020
        (CacheManagerExt.delete (fun s => s) true 1010 c' Examples.url0).2
        Examples.url0).1 = None.
Proof.
  intros c c'.
  assert (H1 : CacheManager.set (fun s => s) true 1000 c Examples.url0
                 (Py.PDict Examples.record0) (Some 3600%Z) = (true, c'))
    by (vm_compute; reflexivity).
  assert (H2 : (1010 < 1000 + inject_Z
                  (CacheManager.ttl_or_default c (Some 3600%Z)))%Q)
    by (vm_compute; reflexivity).
  split; [exact H1|].
  destruct (cache_delete_removes_entry (fun s => s) true 1000 1010 1020 c c'
              Examples.url0 (Py.PDict Examples.record0) (Some 3600%Z) H1 H2)
    as (_ & _ & H & _).
  exact H.
Defined.

(** X3: after a successful [set] the entry is served up to and including
    the instant [now + ttl] and is gone afterwards: a [get] (the store
    answering) returns the stored envelope while the clock is not past
    that instant, and [None] once it is.  A [ttl] of 0 or [None] stands
    for the default of one hour, and with a negative [ttl] the [set] fails
    and changes nothing. *)
Theorem cache_entry_expires
    (md5 : string -> string) (up : bool) (now t : Q)
    (c : CacheManager.t) (key value : Py.pyval) (ttl : option Z) :
  let out := CacheManager.set md5 up now c key value ttl in
  let deadline := (now + inject_Z (CacheManager.ttl_or_default c ttl))%Q in
  (out.1 = true ->
   ((deadline < t)%Q ->
    (CacheManager.get md5 true t out.2 key).1 = None)
   /\ ((t <= deadline)%Q ->
       (CacheManager.get md5 true t out.2 key).1
       = Some (CacheManager.cache_data value now
                 (CacheManager.ttl_or_default c ttl))))
  /\ CacheManager.set md5 up now c key value (Some 0%Z)
     = CacheManager.set md5 up now c key value None
  /\ (forall z, ttl = Some z -> (z < 0)%Z -> out = (false, c)).
Proof.
  intros out deadline. split; [|split].
  - intros Hok.
    destruct out as [ok c'] eqn:Eo. cbn [fst snd] in *. subst ok.
    destruct (set_true_inv _ _ _ _ _ _ _ _ Eo) as (ck & Hk & _ & _ & Hr & Hp).
    unfold CacheManager.get.
    rewrite (make_key_prefix md5 c c' key Hp), Hk.
    unfold CacheManager.redis_get. rewrite Hr, lookup_insert_eq.
    cbn [CacheManager.expire_at CacheManager.document]. fold deadline.
    split; intros Ht.
    + destruct (Qlt_le_dec deadline t) as [_|Hle]; [reflexivity|].
      exfalso. apply (Qlt_not_le _ _ Ht Hle).
    + destruct (Qlt_le_dec deadline t) as [Hlt|_]; [|reflexivity].
      exfalso. apply (Qlt_not_le _ _ Hlt Ht).
  - reflexivity.
  - intros z -> Hz. unfold out, CacheManager.set.
    destruct (CacheManager._make_key md5 c key); [|reflexivity].
    unfold CacheManager.ttl_or_default.
    replace (z =? 0)%Z with false by (symmetry; apply Z.eqb_neq; lia).
    replace (0 <? z)%Z with false by (symmetry; apply Z.ltb_ge; lia).
    now rewrite andb_false_r.
Qed.

Lemma cache_entry_expires_witness :
  let c := CacheManager.__init__ ∅ in
  (CacheManager.set (fun s => s) true 1000 c Examples.url0
     (Py.PDict Examples.record0) (Some 60%Z)).1 = true
  /\ (CacheManager.get (fun s => s) true 1061
        (CacheManager.set (fun s => s) true 1000 c Examples.url0
           (Py.PDict Examples.record0) (Some 60%Z)).2 Examples.url0).1 = None.
Proof.
  intros c.
  assert (H1 : (CacheManager.set (fun s => s) true 1000 c Examples.url0
                  (Py.PDict Examples.record0) (Some 60%Z)).1 = true)
    by (vm_compute; reflexivity).
  split; [exact H1|].
  apply (proj1 (proj1 (cache_entry_expires (fun s => s) true 1000 1061 c
                         Examples.url0 (Py.PDict Examples.record0)
                         (Some 60%Z)) H1)).
  vm_compute. reflexivity.
Defined.

Section Warmup.
Import Py CacheManager CacheManagerExt Props.

Lemma warmup_counts md5 up fetcher_func : forall urls now c,
  let out := warmup md5 up fetcher_func now c urls in
  out.1.1 = length (filter (fun u => fetched_data fetcher_func u = true) out.1.2)
  /\ (length out.1.2 <= length urls)%nat.
Proof.
  induction urls as [|url rest IH]; intros now c; [split; reflexivity|].
  cbn [warmup]. destruct (exists_ md5 up now c url).
  { destruct (IH now c) as [H1 H2]. split; [exact H1|]. simpl. lia. }
  unfold fetched_data in *.
  destruct (fetcher_func url) as [taken fetched] eqn:Ef.
  destruct fetched as [data|].
  - destruct (truthy data) eqn:Et.
    + destruct (set md5 up (now + taken) c url data None) as [ok c1].
      specialize (IH (now + taken)%Q c1).
      destruct (warmup md5 up fetcher_func (now + taken) c1 rest)
        as [[n calls] c2].
      cbn [fst snd] in *. destruct IH as [H1 H2].
      rewrite filter_cons, decide_True by (rewrite Ef; exact Et).
      simpl. split; lia.
    + specialize (IH (now + taken)%Q c).
      destruct (warmup md5 up fetcher_func (now + taken) c rest)
        as [[n calls] c2].
      cbn [fst snd] in *. destruct IH as [H1 H2].
      rewrite filter_cons, decide_False
        by (rewrite Ef; cbn [snd]; rewrite Et; discriminate).
      simpl. split; lia.
  - specialize (IH (now + taken)%Q c).
    destruct (warmup md5 up fetcher_func (now + taken) c rest)
      as [[n calls] c2].
    cbn [fst snd] in *. destruct IH as [H1 H2].
    rewrite filter_cons, decide_False by (rewrite Ef; discriminate).
    simpl. split; lia.
Qed.

Lemma warmup_redis_down md5 fetcher_func : forall urls now c,
  let out := warmup md5 false fetcher_func now c urls in
  out.2 = c /\ out.1.2 = urls.
Proof.
  induction urls as [|url rest IH]; intros now c; [split; reflexivity|].
  cbn [warmup].
  assert (He : exists_ md5 false now c url = false).
  { unfold exists_. now destruct (_make_key md5 c url). }
  rewrite He.
  assert (Hs : forall t data, set md5 false t c url data None = (false, c)).
  { intros t data. unfold set. now destruct (_make_key md5 c url). }
  destruct (fetcher_func url) as [taken [data|]].
  - destruct (truthy data).
    + rewrite Hs. specialize (IH (now + taken)%Q c).
      destruct (warmup md5 false fetcher_func (now + taken) c rest)
        as [[n calls] c2].
      cbn [fst snd] in *. destruct IH as [-> ->]. split; reflexivity.
    + specialize (IH (now + taken)%Q c).
      destruct (warmup md5 false fetcher_func (now + taken) c rest)
        as [[n calls] c2].
      cbn [fst snd] in *. destruct IH as [-> ->]. split; reflexivity.
  - specialize (IH (now + taken)%Q c).
    destruct (warmup md5 false fetcher_func (now + taken) c rest)
      as [[n calls] c2].
    cbn [fst snd] in *. destruct IH as [-> ->]. split; reflexivity.
Qed.

End Warmup.

(** X4: the number [warmup] returns is the number of URLs for which the
    fetcher returned data, whether or not the data could be stored; it is
    at most the number of URLs.  When Redis does not answer, every URL is
    fetched, nothing is stored and the count is still the number of URLs
    with data. *)
Theorem warmup_counts_fetches_not_entries
    (md5 : string -> string) (up : bool)
    (fetcher_func : Py.pyval -> Q * option Py.pyval) (now : Q)
    (c : CacheManager.t) (urls : list Py.pyval) :
  let out := CacheManagerExt.warmup md5 up fetcher_func now c urls in
  out.1.1 = length (filter (fun u => Props.fetched_data fetcher_func u = true)
                      out.1.2)
  /\ (out.1.1 <= length urls)%nat
  /\ (up = false ->
      out.2 = c
      /\ out.1.2 = urls
      /\ out.1.1 = length (filter (fun u => Props.fetched_data fetcher_func u = true)
                             urls)).
Proof.
  intros out.
  destruct (warmup_counts md5 up fetcher_func urls now c) as [H1 H2].
  fold out in H1, H2. split; [exact H1|]. split.
  - rewrite H1. etransitivity; [apply length_filter|exact H2].
  - intros ->. destruct (warmup_redis_down md5 fetcher_func urls now c) as [Hc Hu].
    fold out in Hc, Hu. split; [exact Hc|]. split; [exact Hu|].
    now rewrite H1, Hu.
Qed.

Lemma warmup_counts_fetches_not_entries_witness :
  let fetch := fun _ : Py.pyval => (1%Q, Some (Py.PDict Examples.record0)) in
  let out := CacheManagerExt.warmup (fun s => s) false fetch 0
               (CacheManager.__init__ ∅) [Examples.url0; Py.PStr "k"] in
  out.1.1 = 2%nat /\ out.2 = CacheManager.__init__ ∅.
Proof.
  intros fetch out.
  destruct (warmup_counts_fetches_not_entries (fun s => s) false fetch 0
              (CacheManager.__init__ ∅) [Examples.url0; Py.PStr "k"])
    as (_ & _ & H).
  destruct (H eq_refl) as (Hc & _ & Hn). fold out in Hc, Hn.
  split; [|exact Hc]. rewrite Hn. vm_compute. reflexivity.
Defined.

(** ** Proxies: cool-down, blocking rule, list maintenance *)

Section ProxyMore.
Import ProxyManager ProxyManagerExt Props.

Lemma available_step_last_used t avail m proxy q :
  last_used (stats_of (available_step t (avail, m) proxy).2 q)
  = last_used (stats_of m q).
Proof.
  unfold available_step.
  set (stats := stats_of m proxy).
  assert (Hq : forall st, last_used st = last_used stats ->
            last_used (stats_of (<[proxy := st]> m) q) = last_used (stats_of m q)).
  { intros st Hst. destruct (decide (q = proxy)) as [->|Hne].
    - now rewrite stats_of_insert.
    - unfold stats_of. now rewrite lookup_insert_ne. }
  destruct (blocked stats) eqn:Eb; cbn [andb].
  - destruct (Qlt_le_dec t (block_until stats)); cbn [snd]; [now apply Hq|].
    cbn [last_used]. destruct (Qlt_le_dec _ _); cbn [snd]; now apply Hq.
  - destruct (Qlt_le_dec _ _); cbn [snd]; now apply Hq.
Qed.

Lemma available_fold_cooled t l : forall avail m m0,
  (forall q, last_used (stats_of m q) = last_used (stats_of m0 q)) ->
  (forall p, p ∈ avail -> (1 <= t - last_used (stats_of m0 p))%Q) ->
  forall p, p ∈ (fold_left (available_step t) l (avail, m)).1 ->
            (1 <= t - last_used (stats_of m0 p))%Q.
Proof.
  induction l as [|x l IH]; intros avail m m0 Hm Hav; [exact Hav|].
  cbn [fold_left].
  pose proof (available_step_spec t avail m x) as Hs.
  pose proof (fun q => available_step_last_used t avail m x q) as Hl.
  destruct (available_step t (avail, m) x) as [avail' m'].
  cbn [snd] in Hl. destruct Hs as (_ & _ & Hadd & _).
  apply IH.
  - intros q. now rewrite Hl.
  - intros p Hp. destruct Hadd as [->|(-> & _ & Hc)]; [now apply Hav|].
    apply elem_of_app in Hp as [Hp|Hp]; [now apply Hav|].
    apply list_elem_of_singleton in Hp as ->. now rewrite <- Hm.
Qed.

Lemma available_fold_subset t l : forall avail m p,
  p ∈ (fold_left (available_step t) l (avail, m)).1 -> p ∈ avail \/ p ∈ l.
Proof.
  induction l as [|x l IH]; intros avail m p Hp; [now left|].
  cbn [fold_left] in Hp.
  pose proof (available_step_spec t avail m x) as Hs.
  destruct (available_step t (avail, m) x) as [avail' m'].
  destruct Hs as (_ & _ & Hadd & _).
  destruct (IH _ _ _ Hp) as [H|H].
  - destruct Hadd as [->|(-> & _)]; [now left|].
    apply elem_of_app in H as [H|H]; [now left|].
    apply list_elem_of_singleton in H as ->. right. apply list_elem_of_here.
  - right. now apply list_elem_of_further.
Qed.

Lemma available_cooled self t p :
  p ∈ (_get_available_proxies self t).1 ->
  p ∈ proxies self
  /\ (1 <= t - last_used (stats_of (proxy_stats self) p))%Q.
Proof.
  rewrite get_available_fst. intros Hp. split.
  - destruct (available_fold_subset _ _ _ _ _ Hp) as [H|H]; [inversion H|exact H].
  - revert p Hp. apply available_fold_cooled; [reflexivity|].
    intros q Hq. inversion Hq.
Qed.

Lemma get_proxy_touches g self strategy t_check t_use p self1 :
  get_proxy g self strategy t_check t_use = (Some p, self1) ->
  exists sx, self1 = touch_last_used sx p t_use.
Proof.
  unfold get_proxy. destruct (proxies self); [discriminate|].
  destruct (_get_available_proxies self t_check) as [avail self'].
  destruct avail as [|first rest]; [discriminate|].
  match goal with
  | |- (let '(proxy, self0) := ?c in _) = _ -> _ =>
      destruct c as [[q|] sx]; [|discriminate]
  end.
  intros [= -> <-]. now exists sx.
Qed.

Lemma touch_last_used_sets sx p t :
  last_used (stats_of (proxy_stats (touch_last_used sx p t)) p) = t.
Proof. unfold touch_last_used. cbn [with_stats proxy_stats]. now rewrite stats_of_insert. Qed.

End ProxyMore.

(** X5: the proxy [get_proxy] returns is one of the configured proxies
    and was last used at least one second before the call; it is stamped
    with the time of use, and no [get_proxy] made less than one second
    after that time returns it again. *)
Theorem get_proxy_respects_cooldown
    (g g' : ProxyManager.rng) (self self1 : ProxyManager.t)
    (strategy strategy' : option string) (t_check t_use t t' : Q) (p : string) :
  ProxyManager.get_proxy g self strategy t_check t_use = (Some p, self1) ->
  p ∈ ProxyManager.proxies self
  /\ (1 <= t_check - ProxyManager.last_used
                       (ProxyManager.stats_of (ProxyManager.proxy_stats self) p))%Q
  /\ ProxyManager.last_used
       (ProxyManager.stats_of (ProxyManager.proxy_stats self1) p) = t_use
  /\ ((t < t_use + 1)%Q ->
      (ProxyManager.get_proxy g' self1 strategy' t t').1 <> Some p).
Proof.
  intros Hget.
  assert (Hav : p ∈ (ProxyManager._get_available_proxies self t_check).1).
  { eapply get_proxy_from_available. now rewrite Hget. }
  destruct (available_cooled _ _ _ Hav) as [Hin Hcool].
  destruct (get_proxy_touches _ _ _ _ _ _ _ Hget) as [sx ->].
  split; [exact Hin|]. split; [exact Hcool|].
  split; [apply touch_last_used_sets|].
  intros Hlt Hget'.
  apply get_proxy_from_available, available_cooled in Hget' as [_ Hc].
  rewrite touch_last_used_sets in Hc. lra.
Qed.

Lemma get_proxy_respects_cooldown_witness :
  let self := ProxyManager.__init__ [Examples.proxy0] in
  let out := ProxyManager.get_proxy Examples.generator0 self None 100 100 in
  out.1 = Some Examples.proxy0
  /\ (ProxyManager.get_proxy Examples.generator0 out.2 None (1001 # 10) (1001 # 10)).1
     <> Some Examples.proxy0.
Proof.
  intros self out.
  assert (H : ProxyManager.get_proxy Examples.generator0 self None 100 100
              = (Some Examples.proxy0, out.2)) by (vm_compute; reflexivity).
  split; [vm_compute; reflexivity|].
  destruct (get_proxy_respects_cooldown Examples.generator0 Examples.generator0
              self out.2 None None 100 100 (1001 # 10) (1001 # 10)
              Examples.proxy0 H) as (_ & _ & _ & Hno).
  apply Hno. vm_compute. reflexivity.
Defined.

(** X6: [mark_failure] adds one to the failure count of the proxy and
    leaves the other proxies alone; afterwards the proxy is flagged as
    blocked exactly when it was flagged before, or when it now has at
    least three failures and its last success is a minute or more old.
    [mark_success] records the success and its time but never lifts a
    block. *)
Theorem mark_failure_blocks_exactly_at_three
    (self : ProxyManager.t) (p : string) (duration now : Q) :
  p <> "" ->
  let st := ProxyManager.stats_of (ProxyManager.proxy_stats self) p in
  let st' := ProxyManager.stats_of
               (ProxyManager.proxy_stats
                  (ProxyManager.mark_failure self p duration now)) p in
  let ok := ProxyManager.stats_of
              (ProxyManager.proxy_stats (ProxyManager.mark_success self p now)) p in
  ProxyManager.failure st' = (ProxyManager.failure st + 1)%Z
  /\ (ProxyManager.blocked st' = true <->
      ProxyManager.blocked st = true
      \/ ((2 <= ProxyManager.failure st)%Z
          /\ (ProxyManager.last_success st <= now - 60)%Q))
  /\ (forall q, q <> p ->
        ProxyManager.stats_of
          (ProxyManager.proxy_stats (ProxyManager.mark_failure self p duration now)) q
        = ProxyManager.stats_of (ProxyManager.proxy_stats self) q)
  /\ ProxyManager.success ok = (ProxyManager.success st + 1)%Z
  /\ ProxyManager.last_success ok = now
  /\ ProxyManager.blocked ok = ProxyManager.blocked st
  /\ ProxyManager.block_until ok = ProxyManager.block_until st.
Proof.
  intros Hp st st' ok.
  apply String.eqb_neq in Hp.
  assert (Hne : forall (m : gmap string ProxyManager.proxy_stat) s q,
            q <> p -> ProxyManager.stats_of (<[p := s]> m) q
                      = ProxyManager.stats_of m q).
  { intros m s q Hq. unfold ProxyManager.stats_of.
    now rewrite lookup_insert_ne by congruence. }
  unfold st', ok, ProxyManager.mark_failure, ProxyManager.mark_success,
    ProxyManager._count_recent_failures.
  rewrite Hp. cbv zeta. cbn [ProxyManager.with_stats ProxyManager.proxy_stats].
  rewrite !stats_of_insert. cbn [ProxyManager.last_success ProxyManager.failure].
  fold st.
  destruct (Qlt_le_dec (now - 60) (ProxyManager.last_success st)) as [Hrecent|Hold].
  - change (3 <=? 1)%Z with false. cbv iota.
    cbn [ProxyManager.with_stats ProxyManager.proxy_stats].
    rewrite ?stats_of_insert. cbn.
    split; [reflexivity|]. split; [|split; [|now auto]].
    + split; [now left|]. intros [H|[_ H]]; [exact H|]. exfalso. lra.
    + intros q Hq. now apply Hne.
  - destruct (Z.leb_spec 3 (Z.min (ProxyManager.failure st + 1) 3)) as [H3|H3];
      cbn [ProxyManager.with_stats ProxyManager.proxy_stats];
      rewrite ?stats_of_insert; cbn.
    + split; [reflexivity|]. split; [|split; [|now auto]].
      * split; [|reflexivity]. intros _. right. split; [lia|exact Hold].
      * intros q Hq. rewrite !Hne by exact Hq. reflexivity.
    + split; [reflexivity|]. split; [|split; [|now auto]].
      * split; [now left|]. intros [H|[H _]]; [exact H|]. exfalso. lia.
      * intros q Hq. now apply Hne.
Qed.

Lemma mark_failure_blocks_exactly_at_three_witness :
  Examples.proxy0 <> ""
  /\ ProxyManager.blocked
       (ProxyManager.stats_of
          (ProxyManager.proxy_stats
             (ProxyManager.mark_failure
                (ProxyManager.mark_success Examples.proxies_failing
                   Examples.proxy0 150)
                Examples.proxy0 300 160)) Examples.proxy0) = false.
Proof.
  assert (H : Examples.proxy0 <> "") by discriminate.
  split; [exact H|].
  destruct (mark_failure_blocks_exactly_at_three
              (ProxyManager.mark_success Examples.proxies_failing
                 Examples.proxy0 150) Examples.proxy0 300 160 H)
    as (_ & Hiff & _).
  apply not_true_is_false. intros E.
  apply Hiff in E. destruct E as [E|[_ E]].
  - vm_compute in E. discriminate E.
  - revert E. vm_compute. intros E. apply E. reflexivity.
Defined.

Section ProxyList.
Import ProxyManager ProxyManagerExt Props.

Lemma list_remove_subset x l y : y ∈ list_remove x l -> y ∈ l.
Proof.
  induction l as [|z l IH]; simpl; [auto|].
  destruct (String.eqb_spec z x) as [->|Hne]; intros H.
  - now apply list_elem_of_further.
  - apply elem_of_cons in H as [->|H]; [apply list_elem_of_here|].
    apply list_elem_of_further, IH, H.
Qed.

Lemma list_remove_NoDup x l :
  NoDup l -> NoDup (list_remove x l) /\ x ∉ list_remove x l.
Proof.
  induction 1 as [|z l Hz Hl IH]; simpl.
  - split; [constructor|]. intros H. inversion H.
  - destruct (String.eqb_spec z x) as [->|Hne]; [split; assumption|].
    destruct IH as [IH1 IH2]. split.
    + constructor; [|exact IH1]. intros H. apply Hz. eapply list_remove_subset, H.
    + intros H. apply elem_of_cons in H as [H|H]; [congruence|contradiction].
Qed.

Lemma add_proxy_spec self p :
  p ∈ proxies (add_proxy self p)
  /\ (forall q, q ∈ proxies self -> q ∈ proxies (add_proxy self p))
  /\ (forall q, q ∈ proxies (add_proxy self p) -> q ∈ proxies self \/ q = p)
  /\ (NoDup (proxies self) -> NoDup (proxies (add_proxy self p)))
  /\ proxy_stats (add_proxy self p) = proxy_stats self.
Proof.
  unfold add_proxy. case_bool_decide as Hin; cbn.
  - repeat split; auto.
  - repeat split; auto.
    + apply elem_of_app. right. apply list_elem_of_here.
    + intros q Hq. apply elem_of_app. now left.
    + intros q Hq. apply elem_of_app in Hq as [Hq|Hq]; [now left|].
      apply list_elem_of_singleton in Hq. now right.
    + intros Hnd. apply NoDup_app. repeat split; auto.
      * intros q Hq Hq'. apply list_elem_of_singleton in Hq' as ->. contradiction.
      * apply NoDup_singleton.
Qed.

Lemma load_line_spec self line :
  let self' := load_line self line in
  (forall q, q ∈ proxies self -> q ∈ proxies self')
  /\ (forall q, q ∈ proxies self' ->
        q ∈ proxies self
        \/ (q = Downloader.strip line /\ q <> "" /\ String.prefix "#" q = false))
  /\ (NoDup (proxies self) -> NoDup (proxies self'))
  /\ proxy_stats self' = proxy_stats self.
Proof.
  unfold load_line.
  destruct (String.eqb_spec (Downloader.strip line) "") as [He|He]; cbn [negb andb].
  { repeat split; auto. }
  destruct (String.prefix "#" (Downloader.strip line)) eqn:Ep; cbn [negb].
  { repeat split; auto. }
  destruct (add_proxy_spec self (Downloader.strip line)) as (_ & H1 & H2 & H3 & H4).
  repeat split; auto.
  intros q Hq. destruct (H2 q Hq) as [H | ->]; [now left|]. right. auto.
Qed.

End ProxyList.

(** X7: [add_proxy] never creates a duplicate and adding twice is adding
    once; [remove_proxy] takes a proxy out of a duplicate-free list.
    Neither touches the statistics, so a proxy that is removed and added
    again while blocked is still refused by [get_proxy] until its
    [block_until] has passed. *)
Theorem readded_proxy_stays_blocked
    (self : ProxyManager.t) (p : string) (t : Q) :
  let back := ProxyManagerExt.add_proxy (ProxyManagerExt.remove_proxy self p) p in
  p ∈ ProxyManager.proxies (ProxyManagerExt.add_proxy self p)
  /\ ProxyManagerExt.add_proxy (ProxyManagerExt.add_proxy self p) p
     = ProxyManagerExt.add_proxy self p
  /\ (NoDup (ProxyManager.proxies self) ->
      NoDup (ProxyManager.proxies (ProxyManagerExt.add_proxy self p))
      /\ NoDup (ProxyManager.proxies (ProxyManagerExt.remove_proxy self p))
      /\ p ∉ ProxyManager.proxies (ProxyManagerExt.remove_proxy self p))
  /\ ProxyManager.proxy_stats back = ProxyManager.proxy_stats self
  /\ p ∈ ProxyManager.proxies back
  /\ (Props.currently_blocked
        (ProxyManager.stats_of (ProxyManager.proxy_stats self) p) t ->
      forall g strategy t',
        (ProxyManager.get_proxy g back strategy t t').1 <> Some p).
Proof.
  intros back.
  destruct (add_proxy_spec self p) as (Ha & _ & _ & Hnd & _).
  destruct (add_proxy_spec (ProxyManagerExt.remove_proxy self p) p)
    as (Hb & _ & _ & _ & Hst).
  assert (Hrs : ProxyManager.proxy_stats (ProxyManagerExt.remove_proxy self p)
                = ProxyManager.proxy_stats self).
  { unfold ProxyManagerExt.remove_proxy. now case_bool_decide. }
  split; [exact Ha|]. split; [|split; [|split; [|split]]].
  - unfold ProxyManagerExt.add_proxy at 1.
    now rewrite bool_decide_eq_true_2 by exact Ha.
  - intros H. split; [now apply Hnd|].
    unfold ProxyManagerExt.remove_proxy. case_bool_decide as Hin; cbn.
    + now apply list_remove_NoDup.
    + split; assumption.
  - unfold back. now rewrite Hst, Hrs.
  - exact Hb.
  - intros Hblocked g strategy t' Hget.
    apply get_proxy_from_available, available_not_blocked in Hget.
    apply Hget. unfold back. now rewrite Hst, Hrs.
Qed.

Lemma readded_proxy_stays_blocked_witness :
  let self := ProxyManager.mark_failure Examples.proxies_failing
                Examples.proxy0 300 102 in
  Props.currently_blocked
    (ProxyManager.stats_of (ProxyManager.proxy_stats self) Examples.proxy0) 200
  /\ (ProxyManager.get_proxy Examples.generator0
        (ProxyManagerExt.add_proxy
           (ProxyManagerExt.remove_proxy self Examples.proxy0) Examples.proxy0)
        None 200 200).1 <> Some Examples.proxy0.
Proof.
  intros self.
  assert (H : Props.currently_blocked
                (ProxyManager.stats_of (ProxyManager.proxy_stats self)
                   Examples.proxy0) 200)
    by (split; vm_compute; reflexivity).
  split; [exact H|].
  destruct (readded_proxy_stays_blocked self Examples.proxy0 200)
    as (_ & _ & _ & _ & _ & Hno).
  apply (Hno H).
Defined.

(** X8: [load_from_file] keeps every proxy that was configured, adds only
    stripped lines that are neither empty nor comments (starting with
    '#'), never creates a duplicate, and changes nothing when the file
    cannot be opened. *)
Theorem load_from_file_adds_only_proxy_lines
    (self : ProxyManager.t) (lines : list string) :
  let self' := ProxyManagerExt.load_from_file self (Some lines) in
  (forall q, q ∈ ProxyManager.proxies self -> q ∈ ProxyManager.proxies self')
  /\ (forall q, q ∈ ProxyManager.proxies self' ->
        q ∈ ProxyManager.proxies self
        \/ exists line, line ∈ lines /\ q = Downloader.strip line
                        /\ q <> "" /\ String.prefix "#" q = false)
  /\ (forall line, line ∈ lines ->
        Downloader.strip line <> "" ->
        String.prefix "#" (Downloader.strip line) = false ->
        Downloader.strip line ∈ ProxyManager.proxies self')
  /\ (NoDup (ProxyManager.proxies self) -> NoDup (ProxyManager.proxies self'))
  /\ ProxyManagerExt.load_from_file self None = self.
Proof.
  cbn [ProxyManagerExt.load_from_file].
  revert self. induction lines as [|l ls IH]; intros self.
  - cbn. repeat split; auto. intros line H. inversion H.
  - cbn [fold_left].
    destruct (load_line_spec self l) as (H1 & H2 & H3 & _).
    destruct (IH (ProxyManagerExt.load_line self l)) as (I1 & I2 & I3 & I4 & _).
    split; [|split; [|split; [|split]]].
    + intros q Hq. apply I1, H1, Hq.
    + intros q Hq. destruct (I2 q Hq) as [Hq'|(line & Hl & Hr)].
      * destruct (H2 q Hq') as [Hq''|Hr]; [now left|].
        right. exists l. split; [apply list_elem_of_here|exact Hr].
      * right. exists line. split; [now apply list_elem_of_further|exact Hr].
    + intros line Hin Hne Hc. apply elem_of_cons in Hin as [->|Hin].
      * apply I1. unfold ProxyManagerExt.load_line.
        apply String.eqb_neq in Hne. rewrite Hne, Hc. cbn [negb andb].
        exact (proj1 (add_proxy_spec _ _)).
      * now apply I3.
    + intros Hnd. apply I4, H3, Hnd.
    + reflexivity.
Qed.

Lemma load_from_file_adds_only_proxy_lines_witness :
  let lines := ["# proxies"; "  http://10.0.0.8:3128 "; ""; "http://10.0.0.7:8080"] in
  let self' := ProxyManagerExt.load_from_file
                 (ProxyManager.__init__ [Examples.proxy0]) (Some lines) in
  NoDup (ProxyManager.proxies (ProxyManager.__init__ [Examples.proxy0]))
  /\ NoDup (ProxyManager.proxies self')
  /\ ProxyManager.proxies self' = [Examples.proxy0; "http://10.0.0.8:3128"].
Proof.
  intros lines self'.
  assert (H : NoDup (ProxyManager.proxies (ProxyManager.__init__ [Examples.proxy0])))
    by (apply NoDup_singleton).
  split; [exact H|]. split; [|vm_compute; reflexivity].
  destruct (load_from_file_adds_only_proxy_lines
              (ProxyManager.__init__ [Examples.proxy0]) lines)
    as (_ & _ & _ & Hnd & _).
  exact (Hnd H).
Defined.

(** ** Dynamic weights stay within a factor of two *)

Section WeightBounds.
Import Py ParsingService Props.

Lemma sorted_lookup (l : list scored) : forall i j a b,
  StronglySorted by_score_desc l ->
  (i < j)%nat -> l !! i = Some a -> l !! j = Some b -> by_score_desc a b.
Proof.
  induction l as [|x l IH]; intros i j a b Hs Hij Ha Hb; [discriminate Ha|].
  inversion Hs as [|? ? Hl Hx]; subst.
  destruct i as [|i]; destruct j as [|j]; try lia.
  - simpl in Ha. injection Ha as <-. simpl in Hb.
    rewrite Forall_forall in Hx. apply Hx. eapply list_elem_of_lookup_2, Hb.
  - simpl in Ha, Hb. apply (IH i j); auto. lia.
Qed.

(** The base weights, and half of each, are binary64 numbers. *)
Lemma base_weight_exact n :
  let base := default (1 # 2)%Q (_initialize_weights !! n) in
  (0 < base)%Q
  /\ (Float.round base == base)%Q
  /\ (Float.round (base * (1 # 2)) == base * (1 # 2))%Q.
Proof.
  unfold _initialize_weights.
  repeat (rewrite lookup_insert; case_decide;
          [cbn [from_option id]; repeat split; vm_compute; reflexivity|]).
  rewrite lookup_empty. cbn [from_option id]. repeat split; vm_compute; reflexivity.
Qed.

Lemma base_weight_positive env cs n :
  (0 < default (1 # 2)%Q
         (strategy_weights (records (__init__ env) cs) !! n))%Q.
Proof.
  destruct (records_strategies cs (__init__ env)) as [_ ->].
  cbn [__init__ strategy_weights]. apply base_weight_exact.
Qed.

Lemma dynamic_weight_range env cs s :
  let self := records (__init__ env) cs in
  let base := default (1 # 2)%Q (strategy_weights self !! name s) in
  (base * (1 # 2) <= dynamic_weight self s)%Q
  /\ (dynamic_weight self s <= base)%Q.
Proof.
  intros self base.
  assert (Hbase : (0 < base)%Q /\ (Float.round base == base)%Q
                  /\ (Float.round (base * (1 # 2)) == base * (1 # 2))%Q).
  { unfold base, self.
    destruct (records_strategies cs (__init__ env)) as [_ ->].
    cbn [__init__ strategy_weights]. apply base_weight_exact. }
  destruct Hbase as (Hb & Hrb & Hrh).
  destruct (history_inv_records env cs (name s)) as (Hs & Hf & _ & _).
  fold self in Hs, Hf. apply inject_Z_nonneg in Hs.
  unfold dynamic_weight. fold base.
  set (sc := inject_Z (success_count self (name s))) in *.
  set (fc := failure_count self (name s)) in *.
  destruct (Qlt_le_dec 0 (sc + fc)) as [Hpos|_]; [|split; lra].
  assert (H0 : (0 <= sc / (sc + fc))%Q).
  { apply Qle_shift_div_l; [exact Hpos|]. lra. }
  assert (H1 : (sc / (sc + fc) <= 1)%Q).
  { apply Qle_shift_div_r; [exact Hpos|]. lra. }
  unfold Float.mul, Float.add, Float.div.
  set (rate := Float.round (sc / (sc + fc))).
  assert (Hr0 : (0 <= rate)%Q) by (apply round_nonneg, H0).
  assert (E1 : Float.round 1 = 1%Q) by (vm_compute; reflexivity).
  assert (E2 : Float.round (1 # 2) = (1 # 2)%Q) by (vm_compute; reflexivity).
  assert (Hr1 : (rate <= 1)%Q).
  { rewrite <- E1. apply round_le; [exact H0|exact H1]. }
  set (half := Float.round (rate * (1 # 2))).
  assert (Hh0 : (0 <= half)%Q) by (apply round_nonneg; lra).
  assert (Hh1 : (half <= 1 # 2)%Q).
  { apply Qle_trans with (Float.round (1 # 2)); [|rewrite E2; apply Qle_refl].
    apply round_le; lra. }
  set (x := Float.round ((1 # 2) + half)).
  assert (Hx0 : ((1 # 2) <= x)%Q).
  { apply Qle_trans with (Float.round (1 # 2)); [rewrite E2; apply Qle_refl|].
    apply round_le; lra. }
  assert (Hx1 : (x <= 1)%Q).
  { rewrite <- E1. apply round_le; lra. }
  split.
  - apply Qle_trans with (Float.round (base * (1 # 2)));
      [rewrite Hrh; apply Qle_refl|].
    apply round_le; nra.
  - apply Qle_trans with (Float.round base); [|rewrite Hrb; apply Qle_refl].
    apply round_le; nra.
Qed.

End WeightBounds.

(** X9: in every state the service can reach, the dynamic weight of a
    strategy lies between half its base weight and its base weight.  As a
    consequence the sorted chain always lists api_with_signature (at least
    0.5) before requests (at most 0.4). *)
Theorem dynamic_weight_between_half_and_base
    (env : gmap string string) (cs : list ParsingService.record_call)
    (s : ParsingService.strategy) :
  let self := ParsingService.records (ParsingService.__init__ env) cs in
  let base := default (1 # 2)%Q
                (ParsingService.strategy_weights self !! ParsingService.name s) in
  let sorted := ParsingService._sort_strategies_by_weight self in
  (0 < base)%Q
  /\ (base * (1 # 2) <= ParsingService.dynamic_weight self s)%Q
  /\ (ParsingService.dynamic_weight self s <= base)%Q
  /\ (forall i j x y,
        sorted !! i = Some x -> sorted !! j = Some y ->
        ParsingService.name (ParsingService.strat x) = "requests" ->
        ParsingService.name (ParsingService.strat y) = "api_with_signature" ->
        (j < i)%nat).
Proof.
  intros self base sorted.
  destruct (dynamic_weight_range env cs s) as [Hlo Hhi].
  split; [apply base_weight_positive|]. split; [exact Hlo|]. split; [exact Hhi|].
  intros i j x y Hx Hy Hnx Hny.
  assert (Hscores : Forall (fun e => ParsingService.score e
             = ParsingService.dynamic_weight self (ParsingService.strat e)) sorted).
  { apply sorted_desc_scores. apply Forall_forall. intros e He.
    apply list_elem_of_In, in_map_iff in He as (z & <- & _). reflexivity. }
  rewrite Forall_forall in Hscores.
  pose proof (Hscores x (list_elem_of_lookup_2 _ _ _ Hx)) as Sx.
  pose proof (Hscores y (list_elem_of_lookup_2 _ _ _ Hy)) as Sy.
  destruct (dynamic_weight_range env cs (ParsingService.strat x)) as [_ Hxhi].
  destruct (dynamic_weight_range env cs (ParsingService.strat y)) as [Hylo _].
  fold self in Hxhi, Hylo. rewrite Hnx in Hxhi. rewrite Hny in Hylo.
  assert (Hw : ParsingService.strategy_weights self
               = ParsingService._initialize_weights)
    by apply (records_strategies cs (ParsingService.__init__ env)).
  rewrite Hw in Hxhi, Hylo.
  change (default (1 # 2)%Q (ParsingService._initialize_weights !! "requests"))
    with (Float.round (4 # 10)) in Hxhi.
  change (default (1 # 2)%Q
            (ParsingService._initialize_weights !! "api_with_signature"))
    with (Float.round 1) in Hylo.
  assert (Hgap : (Float.round (4 # 10) < Float.round 1 * (1 # 2))%Q)
    by (vm_compute; reflexivity).
  destruct (Nat.lt_trichotomy i j) as [Hlt|[Heq|Hgt]]; [| |exact Hgt].
  - pose proof (sorted_lookup sorted i j x y
                  (sorted_desc_sorted _) Hlt Hx Hy) as Hord.
    unfold Props.by_score_desc in Hord. rewrite Sx, Sy in Hord. exfalso. lra.
  - subst j. rewrite Hx in Hy. injection Hy as <-.
    rewrite Hnx in Hny. discriminate Hny.
Qed.

Lemma dynamic_weight_between_half_and_base_witness :
  let self := ParsingService.records (ParsingService.__init__ ∅)
                [ParsingService.RecordFailure "api_with_signature";
                 ParsingService.RecordFailure "api_with_signature";
                 ParsingService.RecordSuccess "requests"] in
  let sorted := ParsingService._sort_strategies_by_weight self in
  exists x y,
    sorted !! 2%nat = Some x /\ sorted !! 1%nat = Some y
    /\ ParsingService.name (ParsingService.strat x) = "requests"
    /\ ParsingService.name (ParsingService.strat y) = "api_with_signature"
    /\ (1 < 2)%nat.
Proof.
  intros self sorted.
  assert (Hx : exists x, sorted !! 2%nat = Some x
                 /\ ParsingService.name (ParsingService.strat x) = "requests")
    by (eexists; split; vm_compute; reflexivity).
  assert (Hy : exists y, sorted !! 1%nat = Some y
                 /\ ParsingService.name (ParsingService.strat y)
                    = "api_with_signature")
    by (eexists; split; vm_compute; reflexivity).
  destruct Hx as (x & Hx & Hnx). destruct Hy as (y & Hy & Hny).
  exists x, y.
  split; [exact Hx|]. split; [exact Hy|]. split; [exact Hnx|]. split; [exact Hny|].
  destruct (dynamic_weight_between_half_and_base ∅
              [ParsingService.RecordFailure "api_with_signature";
               ParsingService.RecordFailure "api_with_signature";
               ParsingService.RecordSuccess "requests"] (ParsingService.strat x))
    as (_ & _ & _ & Hord).
  exact (Hord 2%nat 1%nat x y Hx Hy Hnx Hny).
Defined.

(** ** Normalised records and video ids *)

Section Normalised.
Import Py BaseStrategy ParsingService Props.

Lemma put_other k v (info : dict) k' :
  k' <> k -> put k v info !! k' = info !! k'.
Proof. intros H. destruct v; simpl; [now rewrite lookup_insert_ne|reflexivity]. Qed.

(** The image branch of [_extract_from_aweme_detail] stores no video_url. *)
Lemma extract_image_post repr (detail : dict) info :
  truthy (get detail "images" PNone) = true ->
  _extract_from_aweme_detail repr (PDict detail) = Some info ->
  info !! "video_url" = None.
Proof.
  intros Himg. unfold _extract_from_aweme_detail. cbn [as_dict mbind option_bind].
  rewrite Himg. intros H.
  repeat (case_match; simplify_option_eq);
    rewrite ?put_other by done;
    repeat (rewrite lookup_insert_ne by done); apply lookup_empty.
Qed.

Lemma normalized_has_video_url repr raw info :
  normalize_video_info repr raw = Some info ->
  is_Some (info !! "video_url").
Proof.
  intros H. destruct (normalize_shape repr raw info H) as [-> | [i ->]].
  - unfold blank_video_info. repeat (rewrite lookup_insert_ne by done).
    rewrite lookup_insert_eq. eauto.
  - unfold update. apply lookup_union_is_Some. right.
    unfold blank_video_info. repeat (rewrite lookup_insert_ne by done).
    rewrite lookup_insert_eq. eauto.
Qed.

Lemma normalized_valid_iff repr raw info :
  normalize_video_info repr raw = Some info ->
  (_validate_result info = true <->
   exists v, info !! "video_url" = Some v /\ truthy v = true /\ v <> PStr "None").
Proof.
  intros H. rewrite validate_result_iff.
  destruct (normalized_has_video_url repr raw info H) as [v Hv].
  assert (Hk : forall k, k = "video_id" \/ k = "title" \/ k = "author" ->
                         is_Some (info !! k)).
  { intros k Hk. destruct (normalize_shape repr raw info H) as [-> | [i ->]].
    - now apply blank_has_required.
    - unfold update. apply lookup_union_is_Some. right.
      now apply blank_has_required. }
  split.
  - intros (_ & _ & _ & _ & Hu). exists v. split; [exact Hv|]. now apply Hu.
  - intros (w & Hw & Ht & Hn). split; [|split; [|split; [|split]]]; auto.
    + intros ->. rewrite lookup_empty in Hv. discriminate Hv.
    + intros u Hu. rewrite Hw in Hu. injection Hu as <-. auto.
Qed.

End Normalised.

(** X10: a record returned by [normalize_video_info] always has a
    video_url, and [_validate_result] accepts it exactly when that
    video_url is truthy and not 'None'.  For an image post (an
    aweme_detail with images) and for raw data without aweme_detail,
    item_list and aweme_id the video_url stays empty, so the normalised
    record is rejected. *)
Theorem normalized_record_valid_iff_video_url
    (repr : Py.pyval -> string) (raw info : Py.dict) :
  BaseStrategy.normalize_video_info repr raw = Some info ->
  (exists v, info !! "video_url" = Some v)
  /\ (ParsingService._validate_result info = true <->
      exists v, info !! "video_url" = Some v
                /\ Py.truthy v = true /\ v <> Py.PStr "None")
  /\ (forall detail,
        raw !! "aweme_detail" = Some (Py.PDict detail) ->
        Py.truthy (Py.get detail "images" Py.PNone) = true ->
        info !! "video_url" = Some (Py.PStr "")
        /\ ParsingService._validate_result info = false)
  /\ (raw !! "aweme_detail" = None -> raw !! "item_list" = None ->
      raw !! "aweme_id" = None ->
      info = BaseStrategy.blank_video_info raw
      /\ ParsingService._validate_result info = false).
Proof.
  intros H.
  pose proof (normalized_valid_iff repr raw info H) as Hiff.
  assert (Hblank : forall r, BaseStrategy.blank_video_info r !! "video_url"
                             = Some (Py.PStr "")).
  { intros r. unfold BaseStrategy.blank_video_info.
    repeat (rewrite lookup_insert_ne by done). now rewrite lookup_insert_eq. }
  assert (Hrej : info !! "video_url" = Some (Py.PStr "") ->
                 ParsingService._validate_result info = false).
  { intros Hv. apply not_true_is_false. intros Hok.
    apply Hiff in Hok as (v & Hv' & Ht & _).
    rewrite Hv in Hv'. injection Hv' as <-. discriminate Ht. }
  split; [apply (normalized_has_video_url repr raw info H)|].
  split; [exact Hiff|]. split.
  - intros detail Hd Himg.
    assert (Hv : info !! "video_url" = Some (Py.PStr "")).
    { revert H. unfold BaseStrategy.normalize_video_info. rewrite Hd.
      destruct (BaseStrategy._extract_from_aweme_detail repr (Py.PDict detail))
        as [i|] eqn:Ei; [|discriminate].
      cbn [mbind option_bind]. intros [= <-].
      unfold Py.update. rewrite lookup_union_r; [apply Hblank|].
      eapply extract_image_post; eauto. }
    split; [exact Hv|now apply Hrej].
  - intros H1 H2 H3.
    assert (Hi : info = BaseStrategy.blank_video_info raw).
    { revert H. unfold BaseStrategy.normalize_video_info, Py.contains.
      rewrite H1, H2, H3.
      rewrite bool_decide_eq_false_2 by (intros [? ?]; discriminate).
      now intros [= <-]. }
    split; [exact Hi|]. apply Hrej. rewrite Hi. apply Hblank.
Qed.

Lemma normalized_record_valid_iff_video_url_witness :
  BaseStrategy.normalize_video_info (fun _ => "") ∅
  = Some (BaseStrategy.blank_video_info ∅)
  /\ ParsingService._validate_result (BaseStrategy.blank_video_info ∅) = false.
Proof.
  assert (E : BaseStrategy.normalize_video_info (fun _ => "") ∅
              = Some (BaseStrategy.blank_video_info ∅)) by reflexivity.
  split; [exact E|].
  destruct (normalized_record_valid_iff_video_url (fun _ => "") ∅ _ E)
    as (_ & _ & _ & Hblank).
  apply Hblank; apply lookup_empty.
Defined.

Section VideoIds.
Import BaseStrategy Props.

Local Open Scope string_scope.
Local Arguments String.append !_ _ / : simpl nomatch.

Lemma patterns_need_a_digit i p :
  patterns !! i = Some p -> (1 <= Re.lo p)%nat.
Proof.
  unfold patterns.
  do 5 (destruct i as [|i]; [intros [= <-]; simpl; lia|]).
  discriminate.
Qed.

Lemma digits_only_digits : forall d,
  digits_only d = true -> Re.digits None d = d.
Proof.
  induction d as [|c d IH]; simpl; [reflexivity|].
  intros H. apply andb_true_iff in H as [Hc Hd]. rewrite Hc. f_equal. now apply IH.
Qed.

Lemma search_canonical id :
  digits_only id = true -> id <> "" ->
  Re.search WebParser.video_pattern ("https://www.douyin.com/video/" ++ id)
  = Some id.
Proof.
  intros Hd Hne. simpl. unfold Re.match_here. simpl.
  rewrite (digits_only_digits id Hd).
  destruct id as [|c id]; [contradiction|]. reflexivity.
Qed.

End VideoIds.

(** X11: whatever [extract_video_id] returns, on any [str], is a
    non-empty run of decimal digits in the sense of [\d] (not of ASCII
    digits only) that occurs in the URL. *)
Theorem extract_video_id_returns_digits
    (decimal : N -> bool) (url id : list N) :
  Unicode.extract_video_id decimal url = Some id ->
  forallb decimal id = true
  /\ id <> []
  /\ exists pre rest, url = (pre ++ id ++ rest)%list.
Proof.
  rewrite wide_extract_first_match, wide_first_match_some.
  intros (i & p & Hi & Hs & _).
  apply wide_search_found in Hs as (pre & (rest & Hurl & Hd & Hlo & _) & _).
  pose proof (patterns_need_a_digit i p Hi) as H1.
  split; [exact Hd|]. split.
  - intros ->. simpl in Hlo. lia.
  - exists (pre ++ Unicode.of_string (Re.lit p))%list, rest.
    rewrite Hurl. now rewrite <- app_assoc.
Qed.

Lemma extract_video_id_returns_digits_witness :
  Unicode.extract_video_id ExamplesExt.decimal0 ExamplesExt.url_arabic
  = Some [1633; 1634; 1635]%N
  /\ forallb ExamplesExt.decimal0 [1633; 1634; 1635]%N = true.
Proof.
  assert (H : Unicode.extract_video_id ExamplesExt.decimal0 ExamplesExt.url_arabic
              = Some [1633; 1634; 1635]%N) by (vm_compute; reflexivity).
  split; [exact H|].
  exact (proj1 (extract_video_id_returns_digits _ _ _ H)).
Defined.

(** X12: the canonical URL that [_resolve_short_url] builds round-trips
    through [extract_video_id]: whenever the Location value of the
    redirect contains /video/ or /share/video/ followed by digits, the id
    extracted from the resolved URL is the id captured in the Location
    value. *)
Theorem resolved_url_yields_its_id
    (requests_get : WebParser.request -> WebParser.http_result)
    (url location : string) (status_code : Z) (headers : gmap string string) :
  requests_get {| WebParser.req_url := url; WebParser.allow_redirects := false |}
  = WebParser.HttpResponse status_code headers ->
  WebParser.header headers "Location" = Some location ->
  ((exists pre id, Props.match_at WebParser.video_pattern location pre id)
   \/ (exists pre id, Props.match_at WebParser.share_video_pattern location pre id)) ->
  exists id,
    (Props.found WebParser.video_pattern location id
     \/ Props.found WebParser.share_video_pattern location id)
    /\ (WebParser._resolve_short_url requests_get url).1
       = "https://www.douyin.com/video/" ++ id
    /\ BaseStrategy.extract_video_id
         (WebParser._resolve_short_url requests_get url).1 = Some id.
Proof.
  intros Hget Hloc Hc.
  assert (Hid : exists id,
    (Props.found WebParser.video_pattern location id
     \/ Props.found WebParser.share_video_pattern location id)
    /\ (WebParser._resolve_short_url requests_get url).1
       = "https://www.douyin.com/video/" ++ id).
  { unfold WebParser._resolve_short_url. rewrite Hget, Hloc.
    destruct (Re.search WebParser.video_pattern location) as [m|] eqn:Ev.
    - exists m. split; [left; now apply search_found|reflexivity].
    - destruct (Re.search WebParser.share_video_pattern location) as [m|] eqn:Es.
      + exists m. split; [right; now apply search_found|reflexivity].
      + exfalso. destruct Hc as [(pre & id & Hm)|(pre & id & Hm)].
        * apply search_absent in Ev. exact (Ev _ _ Hm).
        * apply search_absent in Es. exact (Es _ _ Hm). }
  destruct Hid as (id & Hf & Hr). exists id. split; [exact Hf|]. split; [exact Hr|].
  rewrite Hr, extract_video_id_first_match.
  assert (Hdig : Props.digits_only id = true /\ id <> "").
  { destruct Hf as [(pre & (rest & _ & Hd & Hlo & _) & _)
                   |(pre & (rest & _ & Hd & Hlo & _) & _)];
      (split; [exact Hd|intros ->; simpl in Hlo; lia]). }
  destruct Hdig as [Hd Hne].
  change BaseStrategy.patterns with
    (WebParser.video_pattern :: tl BaseStrategy.patterns).
  cbn [BaseStrategy.first_match].
  now rewrite (search_canonical id Hd Hne).
Qed.

Lemma resolved_url_yields_its_id_witness :
  let location :=
    "https://www.iesdouyin.com/share/video/7123456789012345678/?region=CN" in
  Examples.redirect0
    {| WebParser.req_url := Examples.short_link0;
       WebParser.allow_redirects := false |}
  = WebParser.HttpResponse 302 (<["location" := location]> ∅)
  /\ BaseStrategy.extract_video_id
       (WebParser._resolve_short_url Examples.redirect0 Examples.short_link0).1
     = Some "7123456789012345678".
Proof.
  intros location.
  assert (H1 : Examples.redirect0
                 {| WebParser.req_url := Examples.short_link0;
                    WebParser.allow_redirects := false |}
               = WebParser.HttpResponse 302 (<["location" := location]> ∅))
    by reflexivity.
  assert (H2 : WebParser.header (<["location" := location]> ∅) "Location"
               = Some location) by (vm_compute; reflexivity).
  split; [exact H1|].
  destruct (resolved_url_yields_its_id Examples.redirect0 Examples.short_link0
              location 302 _ H1 H2) as (id & _ & Hr & He).
  - right. exists "https://www.iesdouyin.com", "7123456789012345678".
    exists "/?region=CN". split; [reflexivity|]. split; [reflexivity|].
    split; [vm_compute; lia|]. split; [exact I|]. right. reflexivity.
  - assert (Hv : (WebParser._resolve_short_url Examples.redirect0
                    Examples.short_link0).1
                 = "https://www.douyin.com/video/7123456789012345678")
      by (vm_compute; reflexivity).
    rewrite Hv in Hr. vm_compute in Hr. injection Hr as Hid. subst id. exact He.
Defined.

(** ** File names *)

Section WideSanitize.
Import Unicode.

Local Open Scope list_scope.

Lemma wide_remove_chars_clean set s :
  Forall (fun c => c ∉ set) (remove_chars set s).
Proof.
  induction s as [|c s IH]; simpl; [constructor|].
  destruct (existsb (N.eqb c) set) eqn:E; [exact IH|].
  constructor; [|exact IH].
  intros Hin. apply list_elem_of_In in Hin.
  assert (existsb (N.eqb c) set = true); [|congruence].
  apply existsb_exists. exists c. split; [exact Hin|apply N.eqb_refl].
Qed.

Lemma wide_lstrip_suffix s : exists pre, s = pre ++ lstrip s.
Proof.
  induction s as [|c s IH]; simpl; [now exists []|].
  destruct (is_space c); [|now exists []].
  destruct IH as [pre IH]. exists (c :: pre). simpl. now rewrite <- IH.
Qed.

Lemma wide_lstrip_head s c : head (lstrip s) = Some c -> is_space c = false.
Proof.
  induction s as [|x s IH]; simpl; [discriminate|].
  destruct (is_space x) eqn:E; [exact IH|]. simpl. now intros [= <-].
Qed.

Lemma wide_strip_spec s :
  (exists pre post, s = pre ++ strip s ++ post)
  /\ (forall c, head (strip s) = Some c -> is_space c = false)
  /\ (forall c, last (strip s) = Some c -> is_space c = false).
Proof.
  assert (Hrev : forall l : list N, rev l = reverse l)
    by (intros l; apply rev_alt).
  unfold strip. rewrite !Hrev. clear Hrev.
  destruct (wide_lstrip_suffix s) as [pre Hs].
  destruct (wide_lstrip_suffix (reverse (lstrip s))) as [pre2 Hu].
  set (t := lstrip s) in *.
  set (v := lstrip (reverse t)) in *.
  assert (Ht : t = reverse v ++ reverse pre2).
  { rewrite <- (reverse_involutive t), Hu, reverse_app. reflexivity. }
  split; [|split].
  - exists pre, (reverse pre2). now rewrite <- Ht.
  - intros c Hc. apply (wide_lstrip_head s c). fold t. rewrite Ht.
    rewrite head_app. now rewrite Hc.
  - intros c Hc. rewrite last_reverse in Hc.
    exact (wide_lstrip_head _ _ Hc).
Qed.

(** *** On Latin-1 text the two versions agree *)

Lemma latin_space c : is_space (N_of_ascii c) = Downloader.is_space c.
Proof. destruct c as [[] [] [] [] [] [] [] []]; reflexivity. Qed.

Lemma latin_illegal c :
  existsb (N.eqb (N_of_ascii c)) illegal
  = existsb (Ascii.eqb c) Downloader.illegal.
Proof.
  unfold illegal. induction Downloader.illegal as [|x l IH]; [reflexivity|].
  cbn [map existsb]. now rewrite code_eqb, IH.
Qed.

Lemma latin_remove_chars s :
  remove_chars illegal (of_string s)
  = of_string (Re.remove_chars Downloader.illegal s).
Proof.
  induction s as [|c s IH]; [reflexivity|].
  rewrite of_string_cons. cbn [remove_chars Re.remove_chars].
  rewrite latin_illegal.
  destruct (existsb _ Downloader.illegal); [exact IH|].
  now rewrite of_string_cons, IH.
Qed.

Lemma latin_take m : forall s,
  take m (of_string s) = of_string (String.substring 0 m s).
Proof.
  induction m as [|m IH]; intros [|c s]; try reflexivity.
  rewrite of_string_cons. cbn [take String.substring].
  now rewrite of_string_cons, IH.
Qed.

Lemma latin_lstrip s : lstrip (of_string s) = of_string (Downloader.lstrip s).
Proof.
  induction s as [|c s IH]; [reflexivity|].
  rewrite of_string_cons. cbn [lstrip Downloader.lstrip].
  rewrite latin_space. destruct (Downloader.is_space c); [exact IH|].
  now rewrite of_string_cons.
Qed.

Lemma latin_rev s : rev (of_string s) = of_string (Downloader.rev_string s).
Proof.
  unfold of_string, Downloader.rev_string.
  now rewrite list_ascii_of_string_of_list_ascii, map_rev.
Qed.

Lemma latin_strip s : strip (of_string s) = of_string (Downloader.strip s).
Proof.
  unfold strip, Downloader.strip.
  now rewrite latin_lstrip, latin_rev, latin_lstrip, latin_rev.
Qed.

Lemma latin_sanitize s :
  option_map of_string (Downloader._sanitize_filename (Py.PStr s))
  = Some (_sanitize_filename (of_string s)).
Proof.
  unfold Downloader._sanitize_filename, _sanitize_filename.
  cbn [Py.as_str mbind option_bind option_map].
  rewrite latin_remove_chars, latin_take, latin_strip.
  destruct (Downloader.strip _) as [|c r]; reflexivity.
Qed.

End WideSanitize.

(** X13: on every [str] [_sanitize_filename] returns a name that is
    non-empty, at most 50 characters (code points, not bytes) long, free of
    the nine characters the method removes (angle brackets, colon, double
    quote, slash, backslash, bar, question mark, star) and without white
    space, in the sense of [str.isspace], at either end.  On text below
    code point 256 it is the function of module [Downloader], which raises
    on anything that is not a string. *)
Theorem sanitize_filename_is_safe (filename : list N) :
  let r := Unicode._sanitize_filename filename in
  r <> []
  /\ (length r <= 50)%nat
  /\ Forall (fun c => c ∉ Unicode.illegal) r
  /\ (forall c, head r = Some c -> Unicode.is_space c = false)
  /\ (forall c, last r = Some c -> Unicode.is_space c = false)
  /\ (forall s, filename = Unicode.of_string s ->
        option_map Unicode.of_string (Downloader._sanitize_filename (Py.PStr s))
        = Some r)
  /\ (forall v, (forall s, v <> Py.PStr s) ->
        Downloader._sanitize_filename v = None).
Proof.
  intros r. unfold r, Unicode._sanitize_filename.
  set (f1 := Unicode.remove_chars Unicode.illegal filename).
  set (f2 := take 50 f1).
  assert (Hlatin : forall s, filename = Unicode.of_string s ->
            option_map Unicode.of_string
              (Downloader._sanitize_filename (Py.PStr s))
            = Some (match Unicode.strip f2 with
                    | [] => Unicode.of_string "untitled"
                    | _ :: _ => Unicode.strip f2
                    end)).
  { intros s ->. apply latin_sanitize. }
  assert (Hraise : forall v, (forall s, v <> Py.PStr s) ->
            Downloader._sanitize_filename v = None).
  { intros v H. destruct v; try reflexivity. exfalso. now apply (H s). }
  destruct (wide_strip_spec f2) as ((pre & post & Hf2) & Hh & Hl).
  destruct (Unicode.strip f2) as [|c0 rest] eqn:Es.
  - split; [discriminate|]. split; [vm_compute; lia|]. split; [|split; [|split]].
    + repeat constructor; vm_compute; intros H;
        repeat (apply elem_of_cons in H as [H|H]; [discriminate H|]);
        inversion H.
    + intros c [= <-]. reflexivity.
    + intros c [= <-]. reflexivity.
    + split; [exact Hlatin|exact Hraise].
  - split; [discriminate|].
    assert (Hclean : Forall (fun c => c ∉ Unicode.illegal) f2).
    { unfold f2. apply Forall_take. apply wide_remove_chars_clean. }
    assert (Hlen : (length f2 <= 50)%nat).
    { unfold f2. rewrite length_take. lia. }
    rewrite Hf2 in Hclean, Hlen.
    apply Forall_app in Hclean as [_ Hclean].
    apply Forall_app in Hclean as [Hclean _].
    rewrite !length_app in Hlen.
    split; [lia|]. split; [exact Hclean|].
    split; [exact Hh|]. split; [exact Hl|].
    split; [exact Hlatin|exact Hraise].
Qed.

Lemma sanitize_filename_is_safe_witness :
  length ExamplesExt.title_cjk = 62%nat
  /\ (length (Unicode._sanitize_filename ExamplesExt.title_cjk) <= 50)%nat
  /\ option_map Unicode.of_string
       (Downloader._sanitize_filename (Py.PStr "  what?/a clip: <1>  "))
     = Some (Unicode._sanitize_filename
               (Unicode.of_string "  what?/a clip: <1>  ")).
Proof.
  split; [reflexivity|]. split.
  - exact (proj1 (proj2 (sanitize_filename_is_safe ExamplesExt.title_cjk))).
  - destruct (sanitize_filename_is_safe
                (Unicode.of_string "  what?/a clip: <1>  "))
      as (_ & _ & _ & _ & _ & Hl & _).
    exact (Hl _ eq_refl).
Defined.

(** ** Downloads: what reaches the disk *)

Section DownloadMore.
Import Py Downloader Props.

Local Open Scope string_scope.
Local Arguments String.append !_ _ / : simpl nomatch.

Lemma append_empty_r (s : string) : s ++ "" = s.
Proof. induction s as [|c s IH]; simpl; [reflexivity|now rewrite IH]. Qed.

Lemma append_assoc_l (a b c : string) : (a ++ b) ++ c = a ++ (b ++ c).
Proof. induction a as [|x a IH]; simpl; [reflexivity|now rewrite IH]. Qed.

Lemma written_concat chunks : written chunks = String.concat "" chunks.
Proof.
  unfold written.
  assert (H : forall acc,
            fold_left (fun a chunk => a ++ chunk) chunks acc
            = acc ++ String.concat "" chunks).
  { induction chunks as [|x xs IH]; intros acc.
    - simpl. now rewrite append_empty_r.
    - cbn [fold_left]. rewrite IH. destruct xs as [|y ys].
      + simpl. now rewrite !append_empty_r.
      + cbn [String.concat]. rewrite append_assoc_l. reflexivity. }
  now rewrite H.
Qed.

Lemma cover_keeps session_get fs cover_url save_dir filename q content :
  files fs !! q = Some content ->
  files (_download_cover session_get fs cover_url save_dir filename) !! q
  = Some content.
Proof.
  intros Hq. unfold _download_cover.
  destruct (path_exists fs (join save_dir filename)) eqn:E; [exact Hq|].
  destruct (as_str cover_url) as [u|]; [|exact Hq].
  destruct (session_get u) as [|st cl chunks [|]]; try exact Hq.
  destruct (is_error_status st); [exact Hq|].
  destruct (can_open fs (join save_dir filename)); [|exact Hq].
  cbn [write_file files].
  apply not_exists_no_file in E as [E _].
  rewrite lookup_insert_ne; [exact Hq|]. intros <-. congruence.
Qed.

End DownloadMore.

(** X14: on the video branch [download_video] never changes or removes a
    file that was on disk before the call, whatever the server answers and
    whether the download succeeds, is skipped or fails.  When the target
    is new, the response is complete, with a good status and a usable
    content-length, and the target can be opened for writing, the call
    returns [True], adds one to 'success' and leaves in the target file
    exactly the chunks received, in order.  When the target is new and
    cannot be opened (a video id with a slash in it names a directory that
    is not there), the call returns [False], adds one to 'failed' and
    writes nothing. *)
Theorem download_video_writes_the_stream
    (repr : Py.pyval -> string)
    (session_get : string -> Downloader.http_result)
    (self : Downloader.t) (fs : Downloader.filesystem)
    (video_info : Py.dict) (save_dir : option string)
    (dir filepath : string) :
  Props.video_target repr self video_info save_dir = Some (dir, filepath) ->
  let fs0 := Downloader.mkdir fs dir in
  let out := Downloader.download_video repr session_get self fs video_info save_dir in
  (forall q content,
     Downloader.files fs !! q = Some content ->
     Downloader.files out.2 !! q = Some content)
  /\ (forall u status_code content_length chunks,
        Downloader.path_exists fs0 filepath = false ->
        Downloader.can_open fs0 filepath = true ->
        Py.get video_info "video_url" Py.PNone = Py.PStr u ->
        session_get u
        = Downloader.GetResponse status_code content_length chunks
            Downloader.Complete ->
        Downloader.is_error_status status_code = false ->
        content_length <> Some None ->
        out.1.1 = Some true
        /\ Downloader.files out.2 !! filepath = Some (String.concat "" chunks)
        /\ Downloader.stats out.1.2 !! "success"
           = Some (default 0 (Downloader.stats self !! "success") + 1)%Z)
  /\ (Downloader.path_exists fs0 filepath = false ->
      Downloader.can_open fs0 filepath = false ->
      out = (Some false, Downloader.bump "failed" self, fs0)
      /\ Downloader.files out.2 = Downloader.files fs).
Proof.
  intros Ht fs0 out. unfold Props.video_target in Ht.
  unfold out, Downloader.download_video.
  destruct (Py.truthy (Py.PDict video_info)); [|discriminate Ht]. cbn [negb].
  destruct (Downloader._sanitize_filename
              (Py.get video_info "title" _)) as [title|]; [|discriminate Ht].
  destruct (Downloader._sanitize_filename
              (Py.get video_info "author" _)) as [author|]; [|discriminate Ht].
  cbn [mbind option_bind] in Ht.
  destruct (Py.truthy (Py.get video_info "is_image" Py.PNone));
    [discriminate Ht|].
  destruct (Py.truthy (Py.get video_info "video_url" Py.PNone));
    [|discriminate Ht].
  injection Ht as <- <-. cbn [negb]. fold fs0.
  set (filepath := Downloader.join _ _).
  split; [|split].
  - intros q content Hq.
    destruct (Downloader.path_exists fs0 filepath) eqn:Ex; [exact Hq|].
    destruct (not_exists_no_file _ _ Ex) as [Hnone Hdir].
    assert (Hqne : q <> filepath) by (intros ->; cbn in Hnone; congruence).
    assert (Hfail : forall fs1 : Downloader.filesystem,
      Downloader.files fs1 !! q = Some content ->
      Downloader.files (if Downloader.path_exists fs1 filepath
                        then Downloader.unlink fs1 filepath else fs1) !! q
      = Some content).
    { intros fs1 H1. destruct (Downloader.path_exists fs1 filepath); [|exact H1].
      cbn. now rewrite lookup_delete_ne by congruence. }
    assert (Hw : forall c, Downloader.files
                   (Downloader.write_file fs0 filepath c) !! q = Some content).
    { intros c. cbn. now rewrite lookup_insert_ne by congruence. }
    assert (Hq0 : Downloader.files fs0 !! q = Some content) by exact Hq.
    destruct (Py.as_str _) as [u|]; cbn [snd]; [|exact Hq0].
    destruct (session_get u) as [|st cl chunks fin]; cbn [snd]; [exact Hq0|].
    destruct (Downloader.is_error_status st); cbn [snd]; [exact Hq0|].
    destruct cl as [[n|]|]; cbn [snd]; try exact Hq0;
      (destruct (Downloader.can_open fs0 filepath); cbn [negb snd];
       [|exact Hq0]);
      destruct fin; cbn [snd]; try (apply Hfail, Hw);
      destruct (Py.truthy _); try apply cover_keeps; apply Hw.
  - intros u st cl chunks Ex Hopen Hu Hs Hst Hcl. rewrite Ex, Hu.
    cbn [Py.as_str]. rewrite Hs, Hst, Hopen. cbn [negb].
    assert (Hfile : forall cover : Downloader.filesystem -> Downloader.filesystem,
      (forall f q c, Downloader.files f !! q = Some c ->
                     Downloader.files (cover f) !! q = Some c) ->
      Downloader.files
        (cover (Downloader.write_file fs0 filepath (Downloader.written chunks)))
        !! filepath = Some (String.concat "" chunks)).
    { intros cover Hc. apply Hc. cbn. rewrite lookup_insert_eq.
      now rewrite written_concat. }
    destruct cl as [[n|]|]; [|contradiction|]; cbn [fst snd];
      (split; [reflexivity|]);
      (split; [|cbn; now rewrite lookup_insert_eq]);
      destruct (Py.truthy _);
      first [ apply (Hfile (fun f => Downloader._download_cover session_get f _ _ _));
              intros f q c; apply cover_keeps
            | apply (Hfile (fun f => f)); auto ].
  - intros Ex Hopen. rewrite Ex.
    match goal with
    | |- ?res = _ /\ _ =>
        assert (Hres : res = (Some false, Downloader.bump "failed" self, fs0))
    end.
    { destruct (Py.as_str _) as [u|]; [|reflexivity].
      destruct (session_get u) as [|st cl chunks fin]; [reflexivity|].
      destruct (Downloader.is_error_status st); [reflexivity|].
      rewrite Hopen. cbn [negb].
      destruct cl as [[n|]|]; reflexivity. }
    rewrite Hres. split; reflexivity.
Qed.

Lemma download_video_writes_the_stream_witness :
  let session := fun _ : string =>
    Downloader.GetResponse 200 None ["abc"; "def"] Downloader.Complete in
  let disk := {| Downloader.files := {["downloads/notes.txt" := "keep"]};
                 Downloader.dirs := ∅; Downloader.refused := ∅ |} in
  let out := Downloader.download_video (fun _ => "") session
               Examples.downloader0 disk Examples.clip0 None in
  Props.video_target (fun _ => "") Examples.downloader0 Examples.clip0 None
  = Some ("downloads", "downloads/someone_clip_7123456789012345678.mp4")
  /\ Downloader.files out.2 !! "downloads/notes.txt" = Some "keep"
  /\ Downloader.files out.2
     !! "downloads/someone_clip_7123456789012345678.mp4" = Some "abcdef".
Proof.
  intros session disk out.
  assert (H : Props.video_target (fun _ => "") Examples.downloader0
                Examples.clip0 None
              = Some ("downloads",
                      "downloads/someone_clip_7123456789012345678.mp4"))
    by (vm_compute; reflexivity).
  split; [exact H|].
  destruct (download_video_writes_the_stream (fun _ => "") session
              Examples.downloader0 disk Examples.clip0 None _ _ H)
    as (Hkeep & Hok & _).
  split; [apply Hkeep; reflexivity|].
  assert (E1 : Downloader.path_exists (Downloader.mkdir disk "downloads")
                 "downloads/someone_clip_7123456789012345678.mp4" = false)
    by (vm_compute; reflexivity).
  assert (E0 : Downloader.can_open (Downloader.mkdir disk "downloads")
                 "downloads/someone_clip_7123456789012345678.mp4" = true)
    by (vm_compute; reflexivity).
  assert (E2 : Py.get Examples.clip0 "video_url" Py.PNone
               = Py.PStr "https://cdn.example/clip.mp4")
    by (vm_compute; reflexivity).
  assert (E3 : Downloader.is_error_status 200 = false) by reflexivity.
  assert (E4 : @None (option Z) <> Some None) by discriminate.
  destruct (Hok "https://cdn.example/clip.mp4" 200%Z None ["abc"; "def"]
              E1 E0 E2 eq_refl E3 E4) as (_ & Hf & _).
  exact Hf.
Defined.

Section Images.
Import Py Downloader.

Lemma image_loop_spec session_get image_dir : forall images i fs,
  let out := image_loop session_get image_dir i images fs in
  (out.1 <= length images)%nat
  /\ (out.1 = 0%nat -> out.2 = fs)
  /\ (forall q, files out.2 !! q <> files fs !! q ->
        exists k, (i <= k < i + length images)%nat
                  /\ q = join image_dir ("image_" ++ two_digits k ++ ".jpg")).
Proof.
  induction images as [|image_url rest IH]; intros i fs.
  - cbn. repeat split; auto. intros q H. congruence.
  - cbn [image_loop length].
    assert (Hskip :
      let out := image_loop session_get image_dir (S i) rest fs in
      (out.1 <= S (length rest))%nat
      /\ (out.1 = 0%nat -> out.2 = fs)
      /\ (forall q, files out.2 !! q <> files fs !! q ->
            exists k, (i <= k < i + S (length rest))%nat
                      /\ q = join image_dir ("image_" ++ two_digits k ++ ".jpg"))).
    { destruct (IH (S i) fs) as (H1 & H2 & H3). repeat split; auto.
      intros q Hq. destruct (H3 q Hq) as (k & Hk & ->). exists k. split; [lia|auto]. }
    destruct (as_str image_url) as [u|]; [|exact Hskip].
    destruct (session_get u) as [|st cl chunks [|]]; try exact Hskip.
    destruct (is_error_status st); [exact Hskip|].
    destruct (can_open fs _); [|exact Hskip].
    set (fs1 := write_file fs _ _).
    destruct (IH (S i) fs1) as (H1 & H2 & H3).
    destruct (image_loop session_get image_dir (S i) rest fs1) as [n fs2].
    cbn [fst snd] in *. split; [lia|]. split; [discriminate|].
    intros q Hq.
    destruct (decide (q = join image_dir ("image_" ++ two_digits i ++ ".jpg")))
      as [->|Hne].
    + exists i. split; [lia|reflexivity].
    + destruct (H3 q) as (k & Hk & ->).
      * unfold fs1. cbn [write_file files].
        now rewrite lookup_insert_ne by congruence.
      * exists k. split; [lia|reflexivity].
Qed.

End Images.

(** X15: [_download_images] returns [False] only when it stored no image:
    then no file has changed, and when there was no image list at all
    neither has anything else.  It returns [True] with one more 'success'.
    Every file it writes is an image_NN.jpg inside the directory of the
    post, NN running from 01 to the number of images. *)
Theorem download_images_reports_stored_images
    (repr : Py.pyval -> string)
    (session_get : string -> Downloader.http_result)
    (self : Downloader.t) (fs : Downloader.filesystem)
    (video_info : Py.dict) (save_dir title author : string) :
  let images := Py.get video_info "images" (Py.PList []) in
  let image_dir :=
    Downloader.join save_dir
      (author ++ "_" ++ title ++ "_"
       ++ Py.str repr (Py.get video_info "video_id" (Py.PStr "unknown"))) in
  let out := Downloader._download_images repr session_get self fs video_info
               save_dir title author in
  (Py.truthy images = false -> out = (Some false, self, fs))
  /\ (out.1.1 = Some false ->
      Downloader.files out.2 = Downloader.files fs
      /\ (Py.truthy images = true -> out.1.2 = Downloader.bump "failed" self))
  /\ (out.1.1 = Some true -> out.1.2 = Downloader.bump "success" self)
  /\ (forall q,
        Downloader.files out.2 !! q <> Downloader.files fs !! q ->
        exists k, (1 <= k <= length (default [] (Py.iter images)))%nat
                  /\ q = Downloader.join image_dir
                           ("image_" ++ Downloader.two_digits k ++ ".jpg")).
Proof.
  intros images image_dir out. unfold out, Downloader._download_images.
  fold images. destruct (Py.truthy images) eqn:Et; cbn [negb].
  2:{ split; [reflexivity|]. split; [|split]; cbn; try discriminate.
      - intros _. split; [reflexivity|discriminate].
      - intros q H. congruence. }
  split; [discriminate|]. fold image_dir.
  assert (Hloop :
    let res :=
      let '(success_count, fs1) :=
        Downloader.image_loop session_get image_dir 1
          (default [] (Py.iter images)) (Downloader.mkdir fs image_dir) in
      if (0 <? success_count)%nat
      then (Some true, Downloader.bump "success" self, fs1)
      else (Some false, Downloader.bump "failed" self, fs1) in
    (res.1.1 = Some false ->
     Downloader.files res.2 = Downloader.files fs
     /\ (true = true -> res.1.2 = Downloader.bump "failed" self))
    /\ (res.1.1 = Some true -> res.1.2 = Downloader.bump "success" self)
    /\ (forall q,
          Downloader.files res.2 !! q <> Downloader.files fs !! q ->
          exists k, (1 <= k <= length (default [] (Py.iter images)))%nat
                    /\ q = Downloader.join image_dir
                             ("image_" ++ Downloader.two_digits k ++ ".jpg"))).
  { destruct (image_loop_spec session_get image_dir
                (default [] (Py.iter images)) 1 (Downloader.mkdir fs image_dir))
      as (H1 & H2 & H3).
    destruct (Downloader.image_loop session_get image_dir 1
                (default [] (Py.iter images)) (Downloader.mkdir fs image_dir))
      as [n fs2].
    cbn [fst snd] in H1, H2, H3. cbv zeta.
    assert (Hq : forall q,
      Downloader.files fs2 !! q <> Downloader.files fs !! q ->
      exists k, (1 <= k <= length (default [] (Py.iter images)))%nat
                /\ q = Downloader.join image_dir
                         ("image_" ++ Downloader.two_digits k ++ ".jpg")).
    { intros q Hne. destruct (H3 q Hne) as (k & Hk & ->).
      exists k. split; [lia|reflexivity]. }
    destruct (Nat.ltb_spec 0 n) as [Hpos|Hzero]; cbn [fst snd].
    - split; [discriminate|]. split; [reflexivity|exact Hq].
    - split; [|split; [discriminate|exact Hq]].
      intros _. split; [|reflexivity].
      rewrite H2 by lia. reflexivity. }
  destruct images as [|b|z|fl|s|l|d];
    try exact Hloop;
    cbn [fst snd];
    (split; [discriminate|split; [discriminate|]]);
    intros q H; exfalso; apply H; reflexivity.
Qed.

Lemma download_images_reports_stored_images_witness :
  let post : Py.dict := <["images" := Py.PList [Py.PStr "https://img/1"]]> ∅ in
  let out := Downloader._download_images (fun _ => "")
               (fun _ => Downloader.GetRaises) Examples.downloader0
               Examples.disk0 post "downloads" "clip" "someone" in
  out.1.1 = Some false
  /\ Downloader.files out.2 = Downloader.files Examples.disk0.
Proof.
  intros post out.
  assert (H : out.1.1 = Some false) by (vm_compute; reflexivity).
  split; [exact H|].
  destruct (download_images_reports_stored_images (fun _ => "")
              (fun _ => Downloader.GetRaises) Examples.downloader0
              Examples.disk0 post "downloads" "clip" "someone")
    as (_ & Hfalse & _).
  exact (proj1 (Hfalse H)).
Defined.

(** ** downloader_v3.py: the counters of a download *)

Section Counters.
Import Py Downloader DownloaderExt Props.

Lemma stat_bump_same k self : stat (bump k self) k = (stat self k + 1)%Z.
Proof. unfold stat, bump. cbn [stats]. now rewrite lookup_insert_eq. Qed.

Lemma stat_bump_other k k' self :
  k <> k' -> stat (bump k self) k' = stat self k'.
Proof. intros Hne. unfold stat, bump. cbn [stats]. now rewrite lookup_insert_ne. Qed.

Lemma download_images_counted repr session_get self fs video_info save_dir
    title author :
  let out := _download_images repr session_get self fs video_info save_dir
               title author in
  counted self out.1.1 out.1.2.
Proof.
  cbv zeta. unfold _download_images.
  destruct (negb _); [now constructor|].
  destruct (get video_info "images" (PList [])); cbn [fst snd];
    try (now constructor);
    destruct (image_loop _ _ _ _ _) as [n fs1];
    destruct (0 <? n)%nat; cbn [fst snd]; constructor.
Qed.

Lemma download_video_counted repr session_get self fs video_info save_dir :
  let out := download_video repr session_get self fs video_info save_dir in
  counted self out.1.1 out.1.2.
Proof.
  cbv zeta. unfold download_video.
  destruct (negb _); [now constructor|].
  destruct (_sanitize_filename _) as [title|]; [|now constructor].
  destruct (_sanitize_filename _) as [author|]; [|now constructor].
  destruct (truthy (get video_info "is_image" PNone)).
  { apply download_images_counted. }
  destruct (negb _); [now constructor|].
  destruct (path_exists _ _); [constructor|].
  destruct (as_str _) as [u|]; [|constructor].
  destruct (session_get u) as [|st cl chunks fin]; [constructor|].
  destruct (is_error_status st); [constructor|].
  destruct cl as [[z|]|]; try constructor;
    (destruct (can_open _ _); cbn [negb]; [|constructor]);
    destruct fin; constructor.
Qed.

Lemma counted_settled self r self' :
  counted self r self' ->
  let settled s := (stat s "success" + stat s "failed" + stat s "skipped")%Z in
  stat self' "total" = stat self "total"
  /\ (settled self <= settled self' <= settled self + 1)%Z
  /\ (r = Some true -> settled self' = (settled self + 1)%Z).
Proof.
  intros H; destruct H as [r Hr| | |]; cbv beta zeta;
    rewrite ?stat_bump_same; rewrite ?stat_bump_other by discriminate;
    (split; [reflexivity|split; [lia|]]); try (intros _; lia).
  intros E. contradiction.
Qed.

End Counters.

(** X16: [download_from_url] counts every URL once in 'total', and moves
    the sum of 'success', 'failed' and 'skipped' up by at most one, so a
    downloader whose statistics satisfy success + failed + skipped <= total
    keeps that.  A call that returns [True] is always counted (as a success
    or as skipped); one that returns [False] or raises may be counted
    nowhere. *)
Theorem download_from_url_counts_each_url_once
    (repr : Py.pyval -> string)
    (post : string -> Py.dict -> DownloaderExt.post_result)
    (session_get : string -> Downloader.http_result)
    (parsing_service_url : string) (cfg : DownloaderExt.config)
    (self : Downloader.t) (fs : Downloader.filesystem)
    (url cookies : Py.pyval) :
  let out := DownloaderExt.download_from_url repr post session_get
               parsing_service_url cfg self fs url cookies in
  let settled s :=
    (DownloaderExt.stat s "success" + DownloaderExt.stat s "failed"
     + DownloaderExt.stat s "skipped")%Z in
  DownloaderExt.stat out.1.2 "total"
  = (DownloaderExt.stat self "total" + 1)%Z
  /\ (settled self <= settled out.1.2 <= settled self + 1)%Z
  /\ (out.1.1 = Some true -> settled out.1.2 = (settled self + 1)%Z)
  /\ (settled self <= DownloaderExt.stat self "total" ->
      settled out.1.2 <= DownloaderExt.stat out.1.2 "total")%Z.
Proof.
  intros out settled.
  assert (Hc : Props.counted (Downloader.bump "total" self) out.1.1 out.1.2).
  { unfold out, DownloaderExt.download_from_url.
    destruct (negb _); [constructor|].
    destruct (DownloaderExt.parse_video _ _ _ _ _); cbn [fst snd];
      try (now constructor).
    apply download_video_counted. }
  apply counted_settled in Hc. cbv beta zeta in Hc.
  rewrite stat_bump_same in Hc.
  rewrite !stat_bump_other in Hc by discriminate.
  destruct Hc as (Ht & Hs & Htrue). unfold settled.
  split; [exact Ht|]. split; [exact Hs|]. split; [exact Htrue|].
  intros Hinv. rewrite Ht. lia.
Qed.

Lemma download_from_url_counts_each_url_once_witness :
  let out := DownloaderExt.download_from_url (fun _ => "")
               (fun _ _ => DownloaderExt.PostRaises)
               (fun _ => Downloader.GetRaises) "http://localhost:5000"
               ExamplesExt.config0
               Examples.downloader0 Examples.disk0 Examples.url0 Py.PNone in
  (DownloaderExt.stat out.1.2 "success" + DownloaderExt.stat out.1.2 "failed"
   + DownloaderExt.stat out.1.2 "skipped"
   <= DownloaderExt.stat out.1.2 "total")%Z.
Proof.
  intros out.
  destruct (download_from_url_counts_each_url_once (fun _ => "")
              (fun _ _ => DownloaderExt.PostRaises)
              (fun _ => Downloader.GetRaises) "http://localhost:5000"
              ExamplesExt.config0
              Examples.downloader0 Examples.disk0 Examples.url0 Py.PNone)
    as (_ & _ & _ & Hinv).
  apply Hinv. vm_compute. discriminate.
Defined.

(** ** From the cache of the service to the downloader *)

Section EndToEnd.
Import Py ParsingService Downloader DownloaderExt.

Lemma envelope_get value now ttl k dflt :
  k <> "value" -> k <> "cached_at" -> k <> "ttl" ->
  get (<["value" := value]>
         (<["cached_at" := PFloat now]> (<["ttl" := PInt ttl]> ∅))) k dflt
  = dflt.
Proof.
  intros H1 H2 H3. unfold get.
  rewrite !lookup_insert_ne by congruence. now rewrite lookup_empty.
Qed.

Lemma download_envelope repr session_get self fs value now ttl :
  download_video repr session_get self fs
    (<["value" := value]>
       (<["cached_at" := PFloat now]> (<["ttl" := PInt ttl]> ∅))) None
  = (Some false, self, mkdir fs (download_dir self)).
Proof.
  unfold download_video. cbn [truthy].
  rewrite bool_decide_eq_false_2 by apply insert_non_empty.
  cbn [negb]. rewrite !envelope_get by discriminate.
  change (_sanitize_filename (PStr "unknown")) with (Some "unknown").
  cbn [truthy negb]. reflexivity.
Qed.

Lemma request_url (cookies : pyval) (data : dict) url :
  data !! "url" = Some url ->
  get (if truthy cookies then <["cookies" := cookies]> data else data) "url" PNone
  = url.
Proof.
  intros H. unfold get.
  destruct (truthy cookies); [rewrite lookup_insert_ne by discriminate|];
    now rewrite H.
Qed.

Lemma request_force_refresh (cookies : pyval) (data : dict) v :
  data !! "force_refresh" = Some v ->
  get (if truthy cookies then <["cookies" := cookies]> data else data)
    "force_refresh" (PBool false) = v.
Proof.
  intros H. unfold get.
  destruct (truthy cookies); [rewrite lookup_insert_ne by discriminate|];
    now rewrite H.
Qed.

Lemma route_answers_from_cache o (data : dict) url self g envelope c2 :
  get data "url" PNone = PStr url ->
  url <> "" ->
  truthy (get data "force_refresh" (PBool false)) = false ->
  redis_up o = true ->
  CacheManager.get (md5 o) true (clock g) (cache_manager g) (PStr url)
  = (Some envelope, c2) ->
  truthy envelope = true ->
  (Routes.parse_route o (PDict data) self g).1.1
  = {| status := 200;
       json := PDict (<["success" := PBool true]> (<["data" := envelope]> ∅)) |}.
Proof.
  intros Hu Hne Hf Hup Hget Ht. unfold Routes.parse_route. rewrite Hu.
  assert (Htu : truthy (PStr url) = true).
  { cbn [truthy]. destruct (String.eqb_spec url ""); [contradiction|reflexivity]. }
  rewrite Htu. cbn [negb].
  unfold ParsingService.parse_video. rewrite Hup, Hget, Ht.
  unfold get at 1. rewrite lookup_insert_ne by discriminate.
  rewrite lookup_insert_eq. cbn [from_option id].
  rewrite Hf. reflexivity.
Qed.

End EndToEnd.

(** X17: what the cache bug does to a download.  Suppose the service has
    stored a parse result for [url] in Redis, the entry has not expired,
    the downloader does not ask for a refresh, and its POST to /parse is
    answered by the route (no rate limiting, no transport error).  Then
    [download_from_url] returns [False]: it counts the URL in 'total',
    creates the download directory and does nothing else; no request for
    a video is sent, no file is written, and neither 'failed' nor
    'success' is touched.  The record it is given is the envelope of the
    cache, which has no 'video_url'. *)
Theorem cached_url_is_not_downloaded
    (repr : Py.pyval -> string) (o : ParsingService.oracle)
    (post : string -> Py.dict -> DownloaderExt.post_result)
    (session_get : string -> Downloader.http_result)
    (parsing_service_url : string) (cfg : DownloaderExt.config)
    (dl : Downloader.t) (fs : Downloader.filesystem)
    (url : string) (cookies value : Py.pyval) (ttl : option Z) (now : Q)
    (c c' : CacheManager.t)
    (self : ParsingService.t) (g : ParsingService.globals) :
  url <> "" ->
  CacheManager.set (ParsingService.md5 o) (ParsingService.redis_up o) now c
    (Py.PStr url) value ttl = (true, c') ->
  ParsingService.cache_manager g = c' ->
  (ParsingService.clock g < now + inject_Z (CacheManager.ttl_or_default c ttl))%Q ->
  DownloaderExt.force_refresh cfg = false ->
  (forall data,
     post (parsing_service_url ++ "/parse") data
     = let resp := (Routes.parse_route o (Py.PDict data) self g).1.1 in
       DownloaderExt.PostResponse (ParsingService.status resp)
         (Some (ParsingService.json resp))) ->
  DownloaderExt.download_from_url repr post session_get parsing_service_url
    cfg dl fs (Py.PStr url) cookies
  = (Some false, Downloader.bump "total" dl,
     Downloader.mkdir fs (Downloader.download_dir dl)).
Proof.
  intros Hurl Hset Hg Hlt Hforce Hpost.
  assert (Hup : ParsingService.redis_up o = true).
  { revert Hset. unfold CacheManager.set. simpl.
    destruct (ParsingService.redis_up o); [reflexivity|discriminate]. }
  pose proof (cache_get_after_set _ _ _ _ _ _ _ _ _ Hset Hlt) as Hget.
  rewrite <- Hg in Hget.
  unfold DownloaderExt.download_from_url, DownloaderExt.parse_video.
  rewrite Hpost. cbv zeta.
  erewrite route_answers_from_cache; [|apply request_url, lookup_insert_eq
    |exact Hurl| |exact Hup|exact Hget|].
  - cbn [ParsingService.status ParsingService.json Z.eqb Pos.eqb].
    unfold Py.get. rewrite lookup_insert_eq.
    rewrite lookup_insert_ne by discriminate. rewrite lookup_insert_eq.
    cbn [from_option id Py.truthy CacheManager.cache_data].
    rewrite bool_decide_eq_false_2 by apply insert_non_empty.
    cbn [negb]. rewrite download_envelope. reflexivity.
  - rewrite request_force_refresh with (v := Py.PBool false); [reflexivity|].
    rewrite !lookup_insert_ne by discriminate. rewrite lookup_insert_eq.
    now rewrite Hforce.
  - cbn [Py.truthy CacheManager.cache_data].
    now rewrite bool_decide_eq_false_2 by apply insert_non_empty.
Qed.

Lemma cached_url_is_not_downloaded_witness :
  DownloaderExt.download_from_url (fun _ => "") ExamplesExt.post_cached
    (fun _ => Downloader.GetRaises) "http://localhost:5000"
    ExamplesExt.config0 Examples.downloader0 Examples.disk0 Examples.url0
    Py.PNone
  = (Some false, Downloader.bump "total" Examples.downloader0,
     Downloader.mkdir Examples.disk0 "downloads").
Proof.
  assert (H1 : "https://www.douyin.com/video/7123456789012345678" <> "")
    by discriminate.
  assert (H2 : CacheManager.set (ParsingService.md5 Examples.oracle_down)
                 (ParsingService.redis_up Examples.oracle_down) 1000
                 (CacheManager.__init__ ∅)
                 (Py.PStr "https://www.douyin.com/video/7123456789012345678")
                 (Py.PDict Examples.record0) (Some 3600%Z)
               = (true, ParsingService.cache_manager Examples.globals_cached))
    by (vm_compute; reflexivity).
  assert (H3 : ParsingService.cache_manager Examples.globals_cached
               = ParsingService.cache_manager Examples.globals_cached)
    by reflexivity.
  assert (H4 : (ParsingService.clock Examples.globals_cached
                < 1000 + inject_Z (CacheManager.ttl_or_default
                                     (CacheManager.__init__ ∅) (Some 3600%Z)))%Q)
    by (vm_compute; reflexivity).
  assert (H5 : DownloaderExt.force_refresh ExamplesExt.config0 = false)
    by reflexivity.
  assert (H6 : forall data,
            ExamplesExt.post_cached ("http://localhost:5000" ++ "/parse") data
            = let resp := (Routes.parse_route Examples.oracle_down
                             (Py.PDict data) Examples.service0
                             Examples.globals_cached).1.1 in
              DownloaderExt.PostResponse (ParsingService.status resp)
                (Some (ParsingService.json resp)))
    by (intros data; reflexivity).
  exact (cached_url_is_not_downloaded (fun _ => "") Examples.oracle_down
           ExamplesExt.post_cached (fun _ => Downloader.GetRaises)
           "http://localhost:5000" ExamplesExt.config0 Examples.downloader0
           Examples.disk0 _ Py.PNone _ _ _ _ _ Examples.service0
           Examples.globals_cached H1 H2 H3 H4 H5 H6).
Defined.

(** ** app.py: parsing the same URL again *)

Section Repeat.
Import Py ParsingService Props.

Lemma try_strategies_caches o url proxy options start :
  redis_up o = true ->
  forall l last_error self g v,
    let out := try_strategies o (PStr url) proxy options start l last_error
                 self g in
    out.1.1 = inr v ->
    exists c0,
      CacheManager.set (md5 o) (redis_up o) (clock out.2) c0 (PStr url) v
        (Some 3600%Z) = (true, cache_manager out.2).
Proof.
  intros Hup. induction l as [|s l IH]; intros last_error self g v.
  - cbn. discriminate.
  - cbn [try_strategies].
    destruct (enabled (strat s)); cbn [negb]; [|apply IH].
    destruct (_execute_strategy o (strat s) (PStr url) proxy options)
      as [taken out].
    destruct (Qle_bool taken (timeout (strat s))); [|apply IH].
    destruct out as [|e|[result|]]; try apply IH.
    destruct (truthy (PDict result) && _validate_result result); [|apply IH].
    destruct (CacheManager.set (md5 o) (redis_up o)
                (clock (sleep (log g (LogTrying (name (strat s)))) taken))
                (cache_manager (sleep (log g (LogTrying (name (strat s)))) taken))
                (PStr url) (PDict result) (Some 3600%Z)) as [ok c] eqn:Es.
    cbn [fst snd]. intros [= <-].
    exists (cache_manager (sleep (log g (LogTrying (name (strat s)))) taken)).
    assert (Hok : ok = true).
    { revert Es. unfold CacheManager.set. cbn [CacheManager._make_key].
      rewrite Hup. cbn. now intros [= <- _]. }
    rewrite Hok in Es. exact Es.
Qed.

Lemma parse_video_caches o url options self g v :
  redis_up o = true ->
  cache_hit o (PStr url) options g = false ->
  let out := parse_video o (PStr url) options self g in
  out.1.1 = inr v ->
  exists c0,
    CacheManager.set (md5 o) (redis_up o) (clock out.2) c0 (PStr url) v
      (Some 3600%Z) = (true, cache_manager out.2).
Proof.
  intros Hup. unfold cache_hit, parse_video.
  destruct (CacheManager.get _ _ _ _ _) as [cached c]. cbn [fst].
  intros Hmiss.
  assert (Hbody :
    let out :=
      (let '(proxy, g2) :=
         if truthy (get options "use_proxy" (PBool false))
         then let '(p, pm) := ProxyManager.get_proxy (generator o)
                                (proxy_manager (with_cache g c)) None
                                (clock (with_cache g c))
                                (clock (with_cache g c)) in
              (p, with_proxies (with_cache g c) pm)
         else (None, with_cache g c) in
       try_strategies o (PStr url) proxy options (clock g)
         (_sort_strategies_by_weight self) None self g2) in
    out.1.1 = inr v ->
    exists c0,
      CacheManager.set (md5 o) (redis_up o) (clock out.2) c0 (PStr url) v
        (Some 3600%Z) = (true, cache_manager out.2)).
  { destruct (truthy (get options "use_proxy" (PBool false))).
    - destruct (ProxyManager.get_proxy _ _ _ _ _) as [p pm].
      apply try_strategies_caches, Hup.
    - apply try_strategies_caches, Hup. }
  destruct cached as [w|]; [|exact Hbody].
  rewrite Hmiss. exact Hbody.
Qed.

End Repeat.

(** X18: a URL that [parse_video] has just parsed with a strategy (Redis
    answering, no cache hit) is answered from the cache when it is asked
    for again less than 3600 seconds later without 'force_refresh': no
    strategy is tried, the counters of the service stay as they are, one
    cache hit is logged and recorded, and the answer is the cache envelope
    around the first answer, stamped with the time of the first call's
    end. *)
Theorem parsed_url_is_answered_from_cache
    (o : ParsingService.oracle) (url : string) (options options' : Py.dict)
    (self : ParsingService.t) (g : ParsingService.globals) (v : Py.pyval)
    (d : Q) :
  let out := ParsingService.parse_video o (Py.PStr url) options self g in
  ParsingService.redis_up o = true ->
  Props.cache_hit o (Py.PStr url) options g = false ->
  out.1.1 = inr v ->
  (d < 3600)%Q ->
  Py.truthy (Py.get options' "force_refresh" (Py.PBool false)) = false ->
  let again :=
    ParsingService.parse_video o (Py.PStr url) options' out.1.2
      (ParsingService.sleep out.2 d) in
  again.1.1
  = inr (CacheManager.cache_data v (ParsingService.clock out.2) 3600)
  /\ again.1.2 = out.1.2
  /\ ParsingService.logger again.2
     = (ParsingService.logger out.2
        ++ [ParsingService.LogCacheHit (Py.PStr url)])%list
  /\ ParsingService.metrics_collector again.2
     = (ParsingService.metrics_collector out.2
        ++ [ParsingService.record_cache_hit])%list.
Proof.
  intros out Hup Hmiss Hv Hd Hforce again.
  destruct (parse_video_caches o url options self g v Hup Hmiss Hv)
    as [c0 Hset]. fold out in Hset.
  assert (Hlt : (ParsingService.clock (ParsingService.sleep out.2 d)
                 < ParsingService.clock out.2
                   + inject_Z (CacheManager.ttl_or_default c0 (Some 3600%Z)))%Q).
  { cbn [ParsingService.sleep ParsingService.clock].
    change (inject_Z (CacheManager.ttl_or_default c0 (Some 3600%Z)))
      with 3600%Q. lra. }
  pose proof (cache_get_after_set _ _ _ _ _ _ _ _ _ Hset Hlt) as Hget.
  change (CacheManager.ttl_or_default c0 (Some 3600%Z)) with 3600%Z in Hget.
  unfold again, ParsingService.parse_video.
  change (ParsingService.cache_manager (ParsingService.sleep out.2 d))
    with (ParsingService.cache_manager out.2).
  rewrite Hup, Hget.
  cbn [Py.truthy CacheManager.cache_data].
  rewrite bool_decide_eq_false_2 by apply insert_non_empty.
  rewrite Hforce. cbn [negb andb fst snd]. repeat split.
Qed.

Lemma parsed_url_is_answered_from_cache_witness :
  let out := ParsingService.parse_video Examples.oracle_up Examples.url0 ∅
               Examples.service0 Examples.globals0 in
  let again := ParsingService.parse_video Examples.oracle_up Examples.url0 ∅
                 out.1.2 (ParsingService.sleep out.2 10) in
  out.1.1 = inr (Py.PDict Examples.record0)
  /\ again.1.1
     = inr (CacheManager.cache_data (Py.PDict Examples.record0)
              (ParsingService.clock out.2) 3600).
Proof.
  intros out again.
  assert (H1 : ParsingService.redis_up Examples.oracle_up = true)
    by reflexivity.
  assert (H2 : Props.cache_hit Examples.oracle_up
                 (Py.PStr "https://www.douyin.com/video/7123456789012345678")
                 ∅ Examples.globals0 = false)
    by (vm_compute; reflexivity).
  assert (H3 : out.1.1 = inr (Py.PDict Examples.record0))
    by (vm_compute; reflexivity).
  assert (H4 : (10 < 3600)%Q) by (vm_compute; reflexivity).
  assert (H5 : Py.truthy (Py.get ∅ "force_refresh" (Py.PBool false)) = false)
    by reflexivity.
  split; [exact H3|].
  exact (proj1 (parsed_url_is_answered_from_cache Examples.oracle_up _ ∅ ∅
                  Examples.service0 Examples.globals0 _ 10 H1 H2 H3 H4 H5)).
Defined.

(** ** app.py: what parsing does to the proxies *)

Section ProxyFeedback.
Import Py ParsingService ProxyManager Props.

Lemma same_record_refl m : same_record m m.
Proof. intros p. cbv zeta. auto. Qed.

Lemma same_record_trans m1 m2 m3 :
  same_record m1 m2 -> same_record m2 m3 -> same_record m1 m3.
Proof.
  intros H12 H23 p. destruct (H12 p) as (A1 & A2 & A3).
  destruct (H23 p) as (B1 & B2 & B3). cbv zeta in *.
  split; [congruence|]. split; [congruence|auto].
Qed.

Lemma same_record_insert m q st :
  success st = success (stats_of m q) ->
  failure st = failure (stats_of m q) ->
  (blocked st = true -> blocked (stats_of m q) = true) ->
  same_record m (<[q := st]> m).
Proof.
  intros Hs Hf Hb p. cbv zeta. unfold stats_of at 1 3 5.
  destruct (decide (q = p)) as [->|Hne].
  - rewrite lookup_insert_eq. cbn [from_option id]. auto.
  - rewrite lookup_insert_ne by exact Hne. auto.
Qed.

Lemma available_step_same t acc q :
  same_record acc.2 (available_step t acc q).2.
Proof.
  destruct acc as [avail m]. unfold available_step. cbn [snd].
  destruct (blocked (stats_of m q)) eqn:Eb; cbn [andb].
  - destruct (Qlt_le_dec t (block_until (stats_of m q))); cbn [snd].
    + apply same_record_insert; auto.
    + destruct (Qlt_le_dec _ _); cbn [snd];
        apply same_record_insert; cbn; auto; discriminate.
  - destruct (Qlt_le_dec _ _); cbn [snd]; apply same_record_insert; auto.
Qed.

Lemma available_fold_same t l : forall acc,
  same_record acc.2 (fold_left (available_step t) l acc).2.
Proof.
  induction l as [|q l IH]; intros acc; cbn [fold_left].
  - apply same_record_refl.
  - eapply same_record_trans; [apply available_step_same|apply IH].
Qed.

Lemma reading_fold_same l : forall m,
  same_record m (fold_left (fun m p => <[p := stats_of m p]> m) l m).
Proof.
  induction l as [|q l IH]; intros m; cbn [fold_left].
  - apply same_record_refl.
  - eapply same_record_trans; [|apply IH].
    apply same_record_insert; auto.
Qed.

Lemma get_proxy_same g self strategy t_check t_use :
  let out := get_proxy g self strategy t_check t_use in
  same_record (proxy_stats self) (proxy_stats out.2)
  /\ proxies out.2 = proxies self.
Proof.
  cbv zeta. unfold get_proxy.
  destruct (proxies self) as [|p0 ps] eqn:Ep.
  { cbn [snd]. split; [apply same_record_refl|exact Ep]. }
  unfold _get_available_proxies. rewrite Ep.
  pose proof (available_fold_same t_check (p0 :: ps) ([], proxy_stats self))
    as Hav.
  destruct (fold_left (available_step t_check) (p0 :: ps)
              ([], proxy_stats self)) as [avail m].
  cbn [fst snd] in Hav.
  destruct avail as [|first rest].
  { cbn [snd with_stats proxy_stats proxies]. split; [exact Hav|exact Ep]. }
  set (strat := match strategy with
                | Some s => if String.eqb s "" then rotation_strategy self else s
                | None => rotation_strategy self
                end).
  assert (Hpick : forall (picked : option string) (self1 : t),
    same_record m (proxy_stats self1) ->
    proxies self1 = p0 :: ps ->
    let out := match picked with
               | Some p => (Some p, touch_last_used self1 p t_use)
               | None => (None, self1)
               end in
    same_record (proxy_stats self) (proxy_stats out.2)
    /\ proxies out.2 = p0 :: ps).
  { intros picked self1 H1 H2. cbv zeta. destruct picked as [p|]; cbn [snd].
    - unfold touch_last_used. cbn [with_stats proxy_stats proxies].
      split; [|exact H2].
      eapply same_record_trans; [exact Hav|].
      eapply same_record_trans; [exact H1|].
      apply same_record_insert; auto.
    - split; [|exact H2]. eapply same_record_trans; [exact Hav|exact H1]. }
  destruct (String.eqb strat "random").
  { apply Hpick; [apply same_record_refl|exact Ep]. }
  destruct (String.eqb strat "round-robin").
  { apply Hpick; [apply same_record_refl|exact Ep]. }
  destruct (String.eqb strat "weighted").
  - unfold _get_weighted_proxy. cbn [with_stats proxy_stats proxies].
    destruct (Qeq_bool _ _); apply Hpick; cbn [with_stats proxy_stats proxies];
      try exact Ep; apply reading_fold_same.
  - apply (Hpick (Some first) (with_stats self m));
      [apply same_record_refl|exact Ep].
Qed.

Lemma try_strategies_proxies o url proxy options start :
  forall l last_error self g,
    proxy_manager (try_strategies o url proxy options start l last_error
                     self g).2
    = proxy_manager g.
Proof.
  induction l as [|s l IH]; intros last_error self g.
  - reflexivity.
  - cbn [try_strategies].
    destruct (enabled (strat s)); cbn [negb]; [|apply IH].
    destruct (_execute_strategy o (strat s) url proxy options) as [taken out].
    destruct (Qle_bool taken (timeout (strat s)));
      [|rewrite IH; reflexivity].
    destruct out as [|e|[result|]]; try (rewrite IH; reflexivity).
    destruct (truthy (PDict result) && _validate_result result);
      [|rewrite IH; reflexivity].
    destruct (CacheManager.set _ _ _ _ _ _ _) as [ok c]. reflexivity.
Qed.

End ProxyFeedback.

(** X19: the service never tells the proxy manager how a proxy fared.
    Whatever [parse_video] does (cache hit, success, failure, with or
    without 'use_proxy'), every proxy has the same success and failure
    counts afterwards, no proxy has become blocked, and the list of
    proxies is the same. *)
Theorem parse_video_never_marks_a_proxy
    (o : ParsingService.oracle) (url : Py.pyval) (options : Py.dict)
    (self : ParsingService.t) (g : ParsingService.globals) :
  let out := ParsingService.parse_video o url options self g in
  Props.same_record
    (ProxyManager.proxy_stats (ParsingService.proxy_manager g))
    (ProxyManager.proxy_stats (ParsingService.proxy_manager out.2))
  /\ ProxyManager.proxies (ParsingService.proxy_manager out.2)
     = ProxyManager.proxies (ParsingService.proxy_manager g).
Proof.
  cbv zeta. unfold ParsingService.parse_video.
  destruct (CacheManager.get _ _ _ _ _) as [cached c].
  assert (Hbody :
    let out :=
      (let '(proxy, g2) :=
         if Py.truthy (Py.get options "use_proxy" (Py.PBool false))
         then let '(p, pm) :=
                ProxyManager.get_proxy (ParsingService.generator o)
                  (ParsingService.proxy_manager (ParsingService.with_cache g c))
                  None (ParsingService.clock (ParsingService.with_cache g c))
                  (ParsingService.clock (ParsingService.with_cache g c)) in
              (p, ParsingService.with_proxies (ParsingService.with_cache g c) pm)
         else (None, ParsingService.with_cache g c) in
       ParsingService.try_strategies o url proxy options
         (ParsingService.clock g)
         (ParsingService._sort_strategies_by_weight self) None self g2) in
    Props.same_record
      (ProxyManager.proxy_stats (ParsingService.proxy_manager g))
      (ProxyManager.proxy_stats (ParsingService.proxy_manager out.2))
    /\ ProxyManager.proxies (ParsingService.proxy_manager out.2)
       = ProxyManager.proxies (ParsingService.proxy_manager g)).
  { cbv zeta.
    destruct (Py.truthy (Py.get options "use_proxy" (Py.PBool false))).
    - pose proof (get_proxy_same (ParsingService.generator o)
                    (ParsingService.proxy_manager g) None
                    (ParsingService.clock g) (ParsingService.clock g)) as H.
      cbv zeta in H.
      cbn [ParsingService.with_cache ParsingService.proxy_manager
           ParsingService.clock].
      destruct (ProxyManager.get_proxy _ _ _ _ _) as [p pm].
      rewrite try_strategies_proxies. exact H.
    - rewrite try_strategies_proxies.
      split; [apply same_record_refl|reflexivity]. }
  destruct cached as [v|]; [|exact Hbody].
  destruct (Py.truthy v && _); [|exact Hbody].
  split; [apply same_record_refl|reflexivity].
Qed.

(** ** app.py: what parsing reports to the metrics collector *)

Section Metrics.
Import Py ParsingService Props.

Lemma try_strategies_one_metric o url proxy options start :
  forall l last_error self g,
    let out := try_strategies o url proxy options start l last_error self g in
    exists m,
      metrics_collector out.2 = (metrics_collector g ++ [m])%list
      /\ match m with
         | record_cache_hit => False
         | record_parse_success n elapsed =>
             (exists v, out.1.1 = inr v)
             /\ elapsed = (clock out.2 - start)%Q
             /\ success_count out.1.2 n = (success_count self n + 1)%Z
         | record_parse_failure => exists e, out.1.1 = inl e
         end.
Proof.
  induction l as [|s l IH]; intros last_error self g.
  - eexists. split; [reflexivity|]. eexists. reflexivity.
  - cbn [try_strategies].
    destruct (enabled (strat s)); cbn [negb]; [|apply IH].
    destruct (_execute_strategy o (strat s) url proxy options) as [taken out].
    assert (Hnext : forall last' self' g',
      metrics_collector g' = metrics_collector g ->
      (forall n, success_count self' n = success_count self n) ->
      let out := try_strategies o url proxy options start l last' self' g' in
      exists m,
        metrics_collector out.2 = (metrics_collector g ++ [m])%list
        /\ match m with
           | record_cache_hit => False
           | record_parse_success n elapsed =>
               (exists v, out.1.1 = inr v)
               /\ elapsed = (clock out.2 - start)%Q
               /\ success_count out.1.2 n = (success_count self n + 1)%Z
           | record_parse_failure => exists e, out.1.1 = inl e
           end).
    { intros last' self' g' Hg' Hs'. cbv zeta.
      destruct (IH last' self' g') as (m & Hm & Hcase).
      exists m. rewrite <- Hg'. split; [exact Hm|].
      destruct m as [|n elapsed|]; [exact Hcase| |exact Hcase].
      destruct Hcase as (Hv & He & Hn).
      split; [exact Hv|]. split; [exact He|]. now rewrite <- Hs'. }
    destruct (Qle_bool taken (timeout (strat s)));
      [|now apply Hnext].
    destruct out as [|e|[result|]]; try (now apply Hnext).
    destruct (truthy (PDict result) && _validate_result result);
      [|now apply Hnext].
    destruct (CacheManager.set _ _ _ _ _ _ _) as [ok c].
    eexists. split; [reflexivity|]. cbn [fst snd].
    split; [eexists; reflexivity|]. split; [reflexivity|].
    change (_record_success self (name (strat s)))
      with (record self (RecordSuccess (name (strat s)))).
    rewrite success_count_record. cbn [is_success_of].
    now rewrite bool_decide_eq_true_2 by reflexivity.
Qed.

End Metrics.

(** X20: every call of [parse_video] reports exactly one outcome to the
    metrics collector.  A cache hit is reported as such and leaves the
    counters of the service alone; an answer found by a strategy is
    reported as a success of that strategy, with the time the whole call
    took, and that strategy's success count goes up by one; a call that
    raises is reported as one failure (without a strategy name, whichever
    strategies failed). *)
Theorem parse_video_reports_one_outcome
    (o : ParsingService.oracle) (url : Py.pyval) (options : Py.dict)
    (self : ParsingService.t) (g : ParsingService.globals) :
  let out := ParsingService.parse_video o url options self g in
  exists m,
    ParsingService.metrics_collector out.2
    = (ParsingService.metrics_collector g ++ [m])%list
    /\ match m with
       | ParsingService.record_cache_hit =>
           Props.cache_hit o url options g = true
           /\ (exists v, out.1.1 = inr v)
           /\ out.1.2 = self
       | ParsingService.record_parse_success n elapsed =>
           Props.cache_hit o url options g = false
           /\ (exists v, out.1.1 = inr v)
           /\ elapsed
              = (ParsingService.clock out.2 - ParsingService.clock g)%Q
           /\ ParsingService.success_count out.1.2 n
              = (ParsingService.success_count self n + 1)%Z
       | ParsingService.record_parse_failure =>
           Props.cache_hit o url options g = false
           /\ (exists e, out.1.1 = inl e)
       end.
Proof.
  cbv zeta. unfold Props.cache_hit, ParsingService.parse_video.
  destruct (CacheManager.get _ _ _ _ _) as [cached c]. cbn [fst].
  assert (Hbody :
    let out :=
      (let '(proxy, g2) :=
         if Py.truthy (Py.get options "use_proxy" (Py.PBool false))
         then let '(p, pm) :=
                ProxyManager.get_proxy (ParsingService.generator o)
                  (ParsingService.proxy_manager (ParsingService.with_cache g c))
                  None (ParsingService.clock (ParsingService.with_cache g c))
                  (ParsingService.clock (ParsingService.with_cache g c)) in
              (p, ParsingService.with_proxies (ParsingService.with_cache g c) pm)
         else (None, ParsingService.with_cache g c) in
       ParsingService.try_strategies o url proxy options
         (ParsingService.clock g)
         (ParsingService._sort_strategies_by_weight self) None self g2) in
    exists m,
      ParsingService.metrics_collector out.2
      = (ParsingService.metrics_collector g ++ [m])%list
      /\ match m with
         | ParsingService.record_cache_hit => False
         | ParsingService.record_parse_success n elapsed =>
             (exists v, out.1.1 = inr v)
             /\ elapsed
                = (ParsingService.clock out.2 - ParsingService.clock g)%Q
             /\ ParsingService.success_count out.1.2 n
                = (ParsingService.success_count self n + 1)%Z
         | ParsingService.record_parse_failure => exists e, out.1.1 = inl e
         end).
  { cbv zeta.
    destruct (Py.truthy (Py.get options "use_proxy" (Py.PBool false))).
    - destruct (ProxyManager.get_proxy _ _ _ _ _) as [p pm].
      exact (try_strategies_one_metric o url p options
               (ParsingService.clock g)
               (ParsingService._sort_strategies_by_weight self) None self
               (ParsingService.with_proxies (ParsingService.with_cache g c) pm)).
    - exact (try_strategies_one_metric o url None options
               (ParsingService.clock g)
               (ParsingService._sort_strategies_by_weight self) None self
               (ParsingService.with_cache g c)). }
  destruct cached as [v|].
  - destruct (Py.truthy v && _) eqn:Hhit.
    + exists ParsingService.record_cache_hit.
      split; [reflexivity|]. split; [reflexivity|].
      split; [exists v; reflexivity|reflexivity].
    + destruct Hbody as (m & Hm & Hcase). exists m. split; [exact Hm|].
      destruct m as [|n elapsed|]; [contradiction| |];
        (split; [reflexivity|exact Hcase]).
  - destruct Hbody as (m & Hm & Hcase). exists m. split; [exact Hm|].
    destruct m as [|n elapsed|]; [contradiction| |];
      (split; [reflexivity|exact Hcase]).
Qed.

(** ** downloader_v3.py and app.py: one request through the /parse route *)

Section Forwarding.
Import Py ParsingService Downloader DownloaderExt.

Lemma request_get (cookies : pyval) (data : dict) k dflt :
  k <> "cookies" ->
  get (if truthy cookies then <["cookies" := cookies]> data else data) k dflt
  = get data k dflt.
Proof.
  intros Hk. unfold get.
  destruct (truthy cookies); [|reflexivity].
  now rewrite lookup_insert_ne by congruence.
Qed.

Lemma request_cookies (cookies : pyval) (data : dict) :
  data !! "cookies" = None ->
  get (if truthy cookies then <["cookies" := cookies]> data else data)
    "cookies" PNone
  = if truthy cookies then cookies else PNone.
Proof.
  intros Hk. unfold get.
  destruct (truthy cookies); [now rewrite lookup_insert_eq|now rewrite Hk].
Qed.

Lemma get_insert_eq (d : dict) k v dflt : get (<[k := v]> d) k dflt = v.
Proof. unfold get. now rewrite lookup_insert_eq. Qed.

Lemma get_insert_ne (d : dict) k k' v dflt :
  k <> k' -> get (<[k := v]> d) k' dflt = get d k' dflt.
Proof. intros H. unfold get. now rewrite lookup_insert_ne. Qed.

Lemma get_empty k dflt : get ∅ k dflt = dflt.
Proof. unfold get. now rewrite lookup_empty. Qed.

End Forwarding.

(** X21: when the POST of the downloader is answered by the /parse route,
    the downloader's [parse_video] hands the service's [parse_video] the
    URL together with its own 'use_proxy' and 'force_refresh' settings and
    the cookies (falsy cookies are sent as none, 'headers' never), and
    returns what the service returns; it returns [None] when the service
    raises, and without calling the service when the URL is falsy. *)
Theorem downloader_parse_forwards_to_service
    (o : ParsingService.oracle)
    (post : string -> Py.dict -> DownloaderExt.post_result)
    (parsing_service_url : string) (cfg : DownloaderExt.config)
    (url cookies : Py.pyval)
    (self : ParsingService.t) (g : ParsingService.globals) :
  (forall data,
     post (parsing_service_url ++ "/parse") data
     = let resp := (Routes.parse_route o (Py.PDict data) self g).1.1 in
       DownloaderExt.PostResponse (ParsingService.status resp)
         (Some (ParsingService.json resp))) ->
  let options : Py.dict :=
    <["use_proxy" := Py.PBool (DownloaderExt.use_proxy cfg)]>
      (<["force_refresh" := Py.PBool (DownloaderExt.force_refresh cfg)]>
         (<["cookies" := if Py.truthy cookies then cookies else Py.PNone]>
            (<["headers" := Py.PNone]> ∅))) in
  DownloaderExt.parse_video post parsing_service_url cfg url cookies
  = if Py.truthy url
    then match (ParsingService.parse_video o url options self g).1.1 with
         | inr result => result
         | inl _ => Py.PNone
         end
    else Py.PNone.
Proof.
  intros Hpost options. unfold DownloaderExt.parse_video.
  rewrite Hpost. cbv zeta. unfold Routes.parse_route.
  rewrite !(request_get cookies _ "url") by discriminate.
  rewrite !(request_get cookies _ "use_proxy") by discriminate.
  rewrite !(request_get cookies _ "force_refresh") by discriminate.
  rewrite !(request_get cookies _ "headers") by discriminate.
  rewrite request_cookies
    by (rewrite !lookup_insert_ne by discriminate; apply lookup_empty).
  repeat (rewrite get_insert_eq || (rewrite get_insert_ne by discriminate)
          || rewrite get_empty).
  fold options.
  destruct (Py.truthy url); cbn [negb]; [|reflexivity].
  destruct (ParsingService.parse_video o url options self g)
    as [[[e|result] self1] g1]; cbn [fst snd ParsingService.status
      ParsingService.json ParsingService.failure_body]; [reflexivity|].
  cbn [Z.eqb Pos.eqb].
  repeat (rewrite get_insert_eq || (rewrite get_insert_ne by discriminate)).
  reflexivity.
Qed.

Lemma downloader_parse_forwards_to_service_witness :
  DownloaderExt.parse_video ExamplesExt.post_cached "http://localhost:5000"
    ExamplesExt.config0 Examples.url0 Py.PNone
  = match (ParsingService.parse_video Examples.oracle_down Examples.url0
             (<["use_proxy" := Py.PBool false]>
                (<["force_refresh" := Py.PBool false]>
                   (<["cookies" := Py.PNone]> (<["headers" := Py.PNone]> ∅))))
             Examples.service0 Examples.globals_cached).1.1 with
    | inr result => result
    | inl _ => Py.PNone
    end.
Proof.
  assert (H : forall data,
            ExamplesExt.post_cached ("http://localhost:5000" ++ "/parse") data
            = let resp := (Routes.parse_route Examples.oracle_down
                             (Py.PDict data) Examples.service0
                             Examples.globals_cached).1.1 in
              DownloaderExt.PostResponse (ParsingService.status resp)
                (Some (ParsingService.json resp)))
    by (intros data; reflexivity).
  exact (downloader_parse_forwards_to_service Examples.oracle_down
           ExamplesExt.post_cached "http://localhost:5000" ExamplesExt.config0
           Examples.url0 Py.PNone Examples.service0 Examples.globals_cached H).
Defined.
